(** * lm-evaluation-harness: request dispatch and result reconciliation

    A shallow embedding of [lm_eval/evaluator.py] (function [evaluate]) and
    of the part of [lm_eval/models/huggingface.py] it calls.  Python objects
    are records, [collections.defaultdict] and [dict] are insertion-ordered
    association lists, raised exceptions are the [Raise] branch of a result
    type, and the collaborators the driver does not define (tasks, the
    backend model, the metric library) are fields of records or section
    variables. *)

From stdpp Require Import base numbers list strings gmap sorting.
From Stdlib Require Import ZArith Lia.

Open Scope Z_scope.
Set Warnings "-clear-no-such-hyp".

(** ** Exceptions and the result type *)

Inductive exn : Type :=
  | AssertionError
  | IndexError
  | KeyError
  | AttributeError
  | CollaboratorError (msg : string).

(** Exceptions of the interpreter that the driver itself never raises are
    carried by [CollaboratorError] under the name of their class. *)
Definition TypeError : exn := CollaboratorError "TypeError".
Definition ValueError : exn := CollaboratorError "ValueError".
Definition RuntimeError : exn := CollaboratorError "RuntimeError".

Inductive result (A : Type) : Type :=
  | Ok (a : A)
  | Raise (e : exn).
Arguments Ok {A} a.
Arguments Raise {A} e.

Definition rbind {A B} (m : result A) (k : A → result B) : result B :=
  match m with
  | Ok a => k a
  | Raise e => Raise e
  end.

Notation "'do' x <- m ; k" := (rbind m (λ x, k))
  (at level 10, x pattern, m at level 100, k at level 200).

Definition of_option {A} (e : exn) (o : option A) : result A :=
  match o with
  | Some a => Ok a
  | None => Raise e
  end.

(** A loop whose body may raise: the first exception ends the loop. *)
Fixpoint rfold {A S} (body : S → A → result S) (s : S) (l : list A) : result S :=
  match l with
  | [] => Ok s
  | x :: l' => do s' <- body s x; rfold body s' l'
  end.

(** ** Python sequences *)

(** [xs[i]]: a negative index counts from the end, an index out of range
    raises IndexError. *)
Definition py_index {A} (xs : list A) (i : Z) : result A :=
  let n := Z.of_nat (length xs) in
  if bool_decide (0 ≤ i < n) then of_option IndexError (xs !! Z.to_nat i)
  else if bool_decide (- n ≤ i < 0) then of_option IndexError (xs !! Z.to_nat (n + i))
  else Raise IndexError.

(** [xs[:k]]: a negative bound counts from the end; bounds are clamped. *)
Definition py_slice_to {A} (xs : list A) (k : Z) : list A :=
  if bool_decide (0 ≤ k) then take (Z.to_nat k) xs
  else take (Z.to_nat (Z.of_nat (length xs) + k)) xs.

(** [xs[k:]]: a negative bound counts from the end; bounds are clamped. *)
Definition py_slice_from {A} (xs : list A) (k : Z) : list A :=
  if bool_decide (0 ≤ k) then drop (Z.to_nat k) xs
  else drop (Z.to_nat (Z.of_nat (length xs) + k)) xs.

(** [enumerate(xs)], counting from [n]. *)
Fixpoint enumerate_from {A} (n : Z) (xs : list A) : list (Z * A) :=
  match xs with
  | [] => []
  | x :: xs' => (n, x) :: enumerate_from (n + 1) xs'
  end.

Definition enumerate {A} (xs : list A) : list (Z * A) := enumerate_from 0 xs.

(** [zip] applied to an unpacked tuple of columns: its rows, as many as the
    shortest column has entries. *)
Fixpoint zip_star {A} (cols : list (list A)) : list (list A) :=
  match cols with
  | [] => []
  | c :: cs =>
      match cs with
      | [] => (λ v, [v]) <$> c
      | _ :: _ => zip_with cons c (zip_star cs)
      end
  end.

(** [zip(a, b, c)] of the reconciliation loop. *)
Fixpoint zip3 {A B C} (a : list A) (b : list B) (c : list C) : list (A * B * C) :=
  match a, b, c with
  | x :: a', y :: b', z :: c' => (x, y, z) :: zip3 a' b' c'
  | _, _, _ => []
  end.

(** The batches a [DataLoader] with [shuffle=False] draws from a dataset:
    consecutive runs of [b] items, the last one possibly shorter, for a
    positive [b].  The fuel is the number of items, which bounds the number
    of batches. *)
Fixpoint chunks_fuel {A} (fuel : nat) (b : nat) (xs : list A) : list (list A) :=
  match fuel with
  | O => []
  | S fuel' =>
      match xs with
      | [] => []
      | _ :: _ => take b xs :: chunks_fuel fuel' b (drop b xs)
      end
  end.

Definition chunks {A} (b : nat) (xs : list A) : list (list A) :=
  chunks_fuel (length xs) b xs.

(** ** Insertion-ordered dictionaries *)

Section odict.
Context {K V : Type} `{EqDecision K}.

Fixpoint od_get (d : list (K * V)) (k : K) : option V :=
  match d with
  | [] => None
  | (k', v) :: d' => if decide (k' = k) then Some v else od_get d' k
  end.

(** [d[k] = v]: an existing key keeps its position, a new one goes last. *)
Fixpoint od_set (d : list (K * V)) (k : K) (v : V) : list (K * V) :=
  match d with
  | [] => [(k, v)]
  | (k', v') :: d' =>
      if decide (k' = k) then (k', v) :: d' else (k', v') :: od_set d' k v
  end.

Definition od_keys (d : list (K * V)) : list K := fst <$> d.

End odict.

(** [collections.defaultdict(list)]: reading a missing key stores the empty
    list under it. *)
Section defaultdict.
Context {K A : Type} `{EqDecision K}.

(** The value of [d[k]]. *)
Definition dl_get (d : list (K * list A)) (k : K) : list A :=
  default [] (od_get d k).

(** The dictionary after a read of [d[k]]. *)
Definition dl_touch (d : list (K * list A)) (k : K) : list (K * list A) :=
  match od_get d k with
  | Some _ => d
  | None => d ++ [(k, [])]
  end.

(** [d[k].append(x)]. *)
Definition dl_append (d : list (K * list A)) (k : K) (x : A) : list (K * list A) :=
  od_set d k (dl_get d k ++ [x]).

End defaultdict.

(** ** Data model *)

Section model.
(** Carriers the driver treats as opaque: a dataset row, a prompt context,
    the few-shot logging dictionary, an element of a request's argument
    tuple, a scalar of a backend response, a metric value, a logged value,
    and the state of the random generators the collaborators draw from;
    further a padded batch of token sequences and the network inside the
    model object. *)
Context {Raw Ctx Info Args V M J World : Type}.
Context {Batch Net : Type}.

(** A dataset row after [map] added its ["doc_id"]. *)
Record Doc : Type := mkDoc {
  doc_fields : Raw;
  doc_field_doc_id : Z
}.

(** [lm_eval.api.request.Request], with the two attributes the driver sets
    on it; [args] is its tuple of arguments.  A task builds a fresh object
    for every request, so setting an attribute is an update of that request
    alone. *)
Record Request : Type := mkRequest {
  request_type : string;
  args : list Args;
  index : option Z;
  doc_id : Z;
  unique_request_id : Z
}.

(** [fewshotex_logging_info] after the driver stored ["doc_id"] in it. *)
Record LoggingInfo : Type := mkLoggingInfo {
  fewshot_info : Info;
  logged_doc_id : Z
}.

(** An entry of [requests_origin]:
    [(i, task_template_key, doc, doc_id, fewshotex_logging_info,
      request_return_index)]. *)
Record Origin : Type := mkOrigin {
  o_i : Z;
  o_task_template_key : string;
  o_doc : Doc;
  o_doc_id : Z;
  o_fewshotex_logging_info : LoggingInfo;
  o_request_return_index : option Z
}.

(** One response as the reconciliation loop sees it: an element of a row or
    of a tensor, or a whole row or tensor. *)
Inductive Response : Type :=
  | RItem (v : V)
  | RSeq (vs : list V).

(** An aggregation function or a standard-error estimator: it may draw from
    a random generator and it may raise. *)
Definition Reducer : Type := list M → World → result (M * World).

(** What the driver uses of a [Task].  [construct_requests] stands for the
    call of line 242 followed by the wrapping of a single request into a
    list (lines 243-244). *)
Record Task : Type := mkTask {
  has_validation_docs : bool;
  has_test_docs : bool;
  registry_name : string;
  prompt_template_name : option string;
  evaluation_docs : list Raw;
  invalid_doc_for_prompt : Doc → bool;
  fewshot_context : Doc → Z → World → (Ctx * Info) * World;
  construct_requests : Doc → Ctx → Z → list Request;
  VERSION : Z;
  process_results : Doc → list Response → list (string * M);
  aggregation : list (string * Reducer);
  get_logging_info : list (string * J)
}.

(** ** Request construction and multiplexing (lines 193-256) *)

(** Lines 193-204: the tasks that have evaluation documents, under their
    task-template keys. *)
Definition build_task_dict (get_task_template_key : string → option string → string)
    (tasks : list Task) : list (string * Task) :=
  foldl (λ task_dict task,
    if negb (has_validation_docs task) && negb (has_test_docs task) then task_dict
    else od_set task_dict
           (get_task_template_key (registry_name task) (prompt_template_name task))
           task) [] tasks.

Record BuildState : Type := mkBuildState {
  rng : World;
  docs : list ((string * Z) * Doc);
  requests : list (string * list Request);
  requests_origin : list (string * list Origin);
  versions : list (string * Z)
}.

(** Lines 246-254, the body of [for i, req in enumerate(reqs)]. *)
Definition mux_request (task_template_key : string) (doc : Doc) (d_id : Z)
    (fewshotex_logging_info : LoggingInfo) (st : BuildState) (ir : Z * Request)
    : BuildState :=
  let '(i, req) := ir in
  let origin0 := dl_touch (requests_origin st) (request_type req) in
  let req' := mkRequest (request_type req) (args req) (index req) d_id
                (Z.of_nat (length (dl_get origin0 (request_type req)))) in
  let request_return_index := index req' in
  mkBuildState (rng st) (docs st)
    (dl_append (requests st) (request_type req') req')
    (dl_append origin0 (request_type req')
       (mkOrigin i task_template_key doc d_id fewshotex_logging_info
          request_return_index))
    (versions st).

(** Lines 234-254, the body of [for doc_id, doc in enumerate(...)]. *)
Definition build_doc (num_fewshot : Z) (task_template_key : string) (task : Task)
    (st : BuildState) (id_doc : Z * Doc) : BuildState :=
  let '(d_id, doc) := id_doc in
  let docs' := od_set (docs st) (task_template_key, d_id) doc in
  let '((ctx, info), rng') := fewshot_context task doc num_fewshot (rng st) in
  let fewshotex_logging_info := mkLoggingInfo info (doc_field_doc_id doc) in
  let reqs := construct_requests task doc ctx num_fewshot in
  foldl (mux_request task_template_key doc d_id fewshotex_logging_info)
    (mkBuildState rng' docs' (requests st) (requests_origin st) (versions st))
    (enumerate reqs).

(** [itertools.islice(task_docs, 0, limit)]. *)
Definition islice_to {A} (limit : option nat) (xs : list A) : list A :=
  match limit with
  | None => xs
  | Some n => take n xs
  end.

(** Lines 216-256, the body of [for task_template_key, task in
    task_dict.items()]. *)
Definition build_task (shuffle : World → list Doc → list Doc * World)
    (num_fewshot : Z) (limit : option nat)
    (st : BuildState) (kt : string * Task) : BuildState :=
  let '(task_template_key, task) := kt in
  let task_docs := (λ p, mkDoc p.2 p.1) <$> enumerate (evaluation_docs task) in
  let task_docs := filter (λ d, invalid_doc_for_prompt task d = false) task_docs in
  let '(task_docs, rng') := shuffle (rng st) task_docs in
  let st' := foldl (build_doc num_fewshot task_template_key task)
               (mkBuildState rng' (docs st) (requests st) (requests_origin st)
                  (versions st))
               (enumerate (islice_to limit task_docs)) in
  mkBuildState (rng st') (docs st') (requests st') (requests_origin st')
    (od_set (versions st') task_template_key (VERSION task)).

(** Lines 206-256. *)
Definition build (shuffle : World → list Doc → list Doc * World)
    (num_fewshot : Z) (limit : option nat) (seed : World)
    (task_dict : list (string * Task)) : BuildState :=
  foldl (build_task shuffle num_fewshot limit)
    (mkBuildState seed [] [] [] []) task_dict.




(** ** Request datasets and collation (lines 113-162) *)

(** What a tokenizer returns for one string: the fields ['input_ids'] and
    ['attention_mask'] of the encoding. *)
Record Tok : Type := mkTok {
  tok_input_ids : list Z;
  tok_attention_mask : list Z
}.

(** What the driver, the datasets and the collator use of the model
    object: [getattr(model, request_type)], absent for a name the model
    does not define; [tok_encode] and [max_length]; the attribute
    [tokenizer], of which only the padding is used that
    [transformers.DataCollatorWithPadding] does with it; and the attribute
    [model], the network.  A capability maps the three padded batches of a
    collated batch to a tuple of columns ([_loglikelihood_tokens] returns
    the two columns of log-probabilities and of exact-match flags). *)
Record LM : Type := mkLM {
  getattr : string → option (Batch → Batch → Batch → result (list (list V)));
  tok_encode : Args → result Tok;
  max_length : Z;
  tokenizer : option (list Tok → result Batch);
  inner_model : option Net
}.

(** What [__getitem__] uses of the classes of a request and of its
    arguments: the elements iterating over a request yields (line 130
    unpacks a request into two names), and [+] on two arguments (line
    132). *)
Record RequestApi : Type := mkRequestApi {
  request_iter : Request → result (list Request);
  args_add : Args → Args → Args
}.

(** [RequestDataset.__init__]: the assertion of line 121, then the three
    assignments; the dataset is its request list.  The second conjunct of
    the assertion is evaluated only when the first one holds. *)
Definition RequestDataset_init (r_type : string) (reqs : list Request)
    : result (list Request) :=
  if bool_decide (size (list_to_set (C:=gset string) (request_type <$> reqs)) = 1%nat)
  then
    do r0 <- py_index reqs 0;
    if bool_decide (r_type = request_type r0) then Ok reqs
    else Raise AssertionError
  else Raise AssertionError.

(** [RequestDataset.__len__]. *)
Definition RequestDataset_len (dataset : list Request) : Z :=
  Z.of_nat (length dataset).

(** The tuple [__getitem__] returns: the three one-element tensors and the
    three encodings. *)
Record Sample : Type := mkSample {
  s_index : Z;
  s_unique_request_id : Z;
  s_doc_id : Z;
  s_context_tokens : Tok;
  s_target_tokens : Tok;
  s_decoder_input_tokens : Tok
}.

(** [RequestDataset.__getitem__], lines 129-147, on the entry [item] of
    [self.requests].  Unpacking into two names needs exactly two elements
    (ValueError otherwise); [torch.tensor] of a list that holds [None]
    raises RuntimeError.  The dictionary of lines 136-139 is built and not
    used. *)
Definition RequestDataset_getitem (api : RequestApi) (model : LM) (item : Request)
    : result Sample :=
  do parts <- request_iter api item;
  do request <- match parts with
                | [_; request] => Ok request
                | _ => Raise ValueError
                end;
  do context_target <- match args request with
                       | [context; target] => Ok (context, target)
                       | _ => Raise ValueError
                       end;
  let '(context, target) := context_target in
  let decoder_inputs := args_add api context target in
  do decoder_input_tokens <- tok_encode model decoder_inputs;
  let decoder_input_ids :=
    py_slice_from (py_slice_to (tok_input_ids decoder_input_tokens) (-1))
      (- max_length model) in
  let decoder_attention_mask :=
    py_slice_from (py_slice_to (tok_attention_mask decoder_input_tokens) (-1))
      (- max_length model) in
  let decoder_inputs := mkTok decoder_input_ids decoder_attention_mask in
  do context_tokens <- tok_encode model context;
  do target_tokens <- tok_encode model target;
  do index_tensor <- of_option RuntimeError (index request);
  Ok (mkSample index_tensor (unique_request_id request) (doc_id request)
        context_tokens target_tokens decoder_input_tokens).

(** The tuple [DataCollator.__call__] returns. *)
Record Collated : Type := mkCollated {
  index_batch : list Z;
  unique_request_id_batch : list Z;
  doc_id_batch : list Z;
  context_batch : Batch;
  target_batch : Batch;
  decoder_tokens_batch : Batch
}.

(** [DataCollator.__call__], lines 153-162; [collator] is [self.collator].
    Unpacking the zipped samples into six names fails on an empty list of
    samples; [torch.cat] concatenates the one-element tensors. *)
Definition DataCollator_call (collator : list Tok → result Batch)
    (samples : list Sample) : result Collated :=
  match samples with
  | [] => Raise ValueError
  | _ :: _ =>
      do context_batch <- collator (s_context_tokens <$> samples);
      do target_batch <- collator (s_target_tokens <$> samples);
      do decoder_tokens_batch <- collator (s_decoder_input_tokens <$> samples);
      Ok (mkCollated (s_index <$> samples) (s_unique_request_id <$> samples)
            (s_doc_id <$> samples) context_batch target_batch decoder_tokens_batch)
  end.

(** What a [DataLoader] does to present a batch: it reads the items of the
    batch from the dataset and hands the samples to [collate_fn]. *)
Definition fetch (api : RequestApi) (model : LM)
    (collator : list Tok → result Batch) (items : list Request) : result Collated :=
  do samples <- rfold (λ samples item,
                         do sample <- RequestDataset_getitem api model item;
                         Ok (samples ++ [sample]))
                  [] items;
  DataCollator_call collator samples.

(** ** Batch execution (lines 272-335) *)

(** What the driver uses of [accelerate.Accelerator].  A prepared loader
    yields, at every step, the batch of each worker in rank order; the
    driving process is the worker [process_index]. *)
Record Accelerator : Type := mkAccelerator {
  use_distributed : bool;
  process_index : nat;
  prepare_model : Net → result Net;
  prepare_data_loader : list (list Request) → list (list (list Request))
}.

(** Lines 277-288: [DataLoader(dataset, batch_size=batch_size,
    shuffle=False)], as the batches of items it draws. *)
Definition DataLoader (batch_size : nat) (dataset : list Request)
    : list (list Request) :=
  chunks batch_size dataset.

(** A loader after line 293: its dataset, the collator it was built with
    and the steps it yields. *)
Record Loader : Type := mkLoader {
  loader_dataset : list Request;
  loader_collator : list Tok → result Batch;
  loader_steps : list (list (list Request))
}.

(** A single process: every step is the loader's own batch. *)
Definition single_process : Accelerator :=
  mkAccelerator false 0 Ok (fmap (λ batch, [batch])).

(** Modelled from the spec: the gather step of the external accelerate
    library, which concatenates the per-worker streams of one step into a
    single stream in worker-rank order. *)
Definition gather {A} (per_worker : list (list A)) : list A := mjoin per_worker.

(** Modelled from the spec: padded [W]-way sharding by the external
    accelerate library.  The workers draw [W] consecutive batches per step;
    the stream is first padded to a multiple of [W] times the batch size
    with copies of its last element, so that all worker batches are
    uniform. *)
Definition padded_prepare (W B : nat) (loader : list (list Request))
    : list (list (list Request)) :=
  let stream := mjoin loader in
  let per_step := (W * B)%nat in
  let missing := ((per_step - length stream `mod` per_step) `mod` per_step)%nat in
  let padded :=
    match last stream with
    | Some r => stream ++ replicate missing r
    | None => stream
    end in
  chunks W (chunks B padded).

Definition padded_distributed (W B : nat) (rank : nat) : Accelerator :=
  mkAccelerator true rank Ok (padded_prepare W B).

(** An entry of [process_response_queue]:
    [(i, response, fewshotex_logging_info, unique_request_id)]. *)
Record QEntry : Type := mkQEntry {
  q_i : Z;
  q_response : Response;
  q_fewshotex_logging_info : LoggingInfo;
  q_unique_request_id : Z
}.

(** Lines 323-332 for one step: the gathered id streams and responses, and
    the updated [samples_seen].  [batches] and [all_responses] are the
    collated batch and the response of every worker. *)
Definition gather_step (n_steps : nat) (dataset_len : nat) (step : Z)
    (samples_seen : Z) (batches : list Collated)
    (all_responses : list (list (list V)))
    : result (list Z * list Z * list (list V) * Z) :=
  let doc_ids := gather (doc_id_batch <$> batches) in
  let unique_request_ids := gather (unique_request_id_batch <$> batches) in
  do col0 <- rfold (λ acc r, do c <- py_index r 0; Ok (acc ++ [c])) [] all_responses;
  do col1 <- rfold (λ acc r, do c <- py_index r 1; Ok (acc ++ [c])) [] all_responses;
  let responses := [gather col0; gather col1] in
  if bool_decide (step = Z.of_nat n_steps - 1) then
    Ok (unique_request_ids, doc_ids,
        py_slice_to responses (Z.of_nat dataset_len - samples_seen), samples_seen)
  else
    Ok (unique_request_ids, doc_ids, responses,
        samples_seen + Z.of_nat (length responses)).

(** Lines 310-320 on one worker: the loader presents the batch, then the
    capability answers it. *)
Definition answer (api : RequestApi) (model : LM) (collator : list Tok → result Batch)
    (capability : Batch → Batch → Batch → result (list (list V)))
    (items : list Request) : result (Collated * list (list V)) :=
  do request_batch <- fetch api model collator items;
  do responses <- capability (context_batch request_batch)
                    (target_batch request_batch)
                    (decoder_tokens_batch request_batch);
  Ok (request_batch, responses).

(** Lines 306-335, the first half of the body of
    [for step, request_batch in enumerate(requests_data_loader)]: the
    triples the batch hands to reconciliation, and [samples_seen].  The
    loader presents the batch of the driving process before the capability
    is looked up; under distributed execution every worker does the same
    with its own batch. *)
Definition step_triples (api : RequestApi) (acc : Accelerator) (model : LM)
    (r_type : string) (collator : list Tok → result Batch)
    (n_steps dataset_len : nat) (samples_seen : Z)
    (sb : Z * list (list Request))
    : result (list (Z * Z * list V) * Z) :=
  let '(step, shards) := sb in
  do request_batch <- fetch api model collator (nth (process_index acc) shards []);
  let unique_request_ids := unique_request_id_batch request_batch in
  let doc_ids := doc_id_batch request_batch in
  do capability <- of_option AttributeError (getattr model r_type);
  do responses <- capability (context_batch request_batch)
                    (target_batch request_batch)
                    (decoder_tokens_batch request_batch);
  do gathered <-
    (if use_distributed acc then
       do all <-
         rfold (λ rs shard,
                  do r <- answer api model collator capability shard; Ok (rs ++ [r]))
           [] shards;
       gather_step n_steps dataset_len step samples_seen (all.*1) (all.*2)
     else Ok (unique_request_ids, doc_ids, responses, samples_seen));
  let '(unique_request_ids, doc_ids, responses, samples_seen) := gathered in
  let responses :=
    if bool_decide (1 < length responses)%nat then zip_star responses
    else responses in
  Ok (zip3 unique_request_ids doc_ids responses, samples_seen).

(** ** Response reconciliation (lines 342-353) *)

(** Lines 343-352: the bucket and the entry a triple contributes. *)
Definition reconcile_entry (origins : list Origin) (t : Z * Z * list V)
    : result ((string * Z) * QEntry) :=
  let '(u_id, d_id, response) := t in
  do o <- py_index origins u_id;
  if bool_decide (d_id = o_doc_id o) then
    do response' <-
      match o_request_return_index o with
      | Some request_return_index =>
          do v <- py_index response request_return_index; Ok (RItem v)
      | None => Ok (RSeq response)
      end;
    Ok ((o_task_template_key o, d_id),
        mkQEntry (o_i o) response' (o_fewshotex_logging_info o) u_id)
  else Raise AssertionError.

(** The body of [for unique_request_id, doc_id, response in zip(...)]. *)
Definition reconcile_one (origins : list Origin)
    (queue : list ((string * Z) * list QEntry)) (t : Z * Z * list V)
    : result (list ((string * Z) * list QEntry)) :=
  do ke <- reconcile_entry origins t;
  Ok (dl_append queue ke.1 ke.2).

(** Lines 306-353, the body of [for step, request_batch in enumerate(...)].
    The state is [process_response_queue] and [samples_seen]. *)
Definition exec_step (api : RequestApi) (acc : Accelerator) (model : LM)
    (r_type : string) (collator : list Tok → result Batch)
    (origins : list Origin) (n_steps dataset_len : nat)
    (st : list ((string * Z) * list QEntry) * Z)
    (sb : Z * list (list Request))
    : result (list ((string * Z) * list QEntry) * Z) :=
  do ts <- step_triples api acc model r_type collator n_steps dataset_len st.2 sb;
  do queue <- rfold (reconcile_one origins) st.1 ts.1;
  Ok (queue, ts.2).

(** Lines 304-353, the body of [for request_type, requests_data_loader in
    requests_data_loaders.items()]. *)
Definition exec_type (api : RequestApi) (acc : Accelerator) (model : LM)
    (requests_origin : list (string * list Origin))
    (queue : list ((string * Z) * list QEntry))
    (tl : string * Loader)
    : result (list ((string * Z) * list QEntry)) :=
  let '(r_type, requests_data_loader) := tl in
  do st <- rfold (exec_step api acc model r_type
                    (loader_collator requests_data_loader)
                    (dl_get requests_origin r_type)
                    (length (loader_steps requests_data_loader))
                    (length (loader_dataset requests_data_loader)))
             (queue, 0) (enumerate (loader_steps requests_data_loader));
  Ok st.1.

(** Lines 272-275: the dataset of every request type. *)
Definition requests_datasets (st : BuildState)
    : result (list (string * list Request)) :=
  rfold (λ datasets tr,
           do dataset <- RequestDataset_init tr.1 tr.2;
           Ok (od_set datasets tr.1 dataset))
    [] (requests st).

(** Lines 277-288: the loader of every dataset; each gets a collator
    around [model.tokenizer]. *)
Definition requests_data_loaders (model : LM)
    (datasets : list (string * list Request))
    : result (list (string * (list Request * (list Tok → result Batch)))) :=
  rfold (λ loaders td,
           do collator <- of_option AttributeError (tokenizer model);
           Ok (od_set loaders td.1 (td.2, collator)))
    [] datasets.

(** Lines 293-296: the prepared loaders. *)
Definition prepare_loaders (acc : Accelerator) (batch_size : nat)
    (loaders : list (string * (list Request * (list Tok → result Batch))))
    : list (string * Loader) :=
  (λ tl, (tl.1, mkLoader tl.2.1 tl.2.2
                  (prepare_data_loader acc (DataLoader batch_size tl.2.1))))
    <$> loaders.

(** The prepared loaders of a state, all with one collator. *)
Definition loaders_of (acc : Accelerator) (collator : list Tok → result Batch)
    (batch_size : nat) (st : BuildState) : list (string * Loader) :=
  prepare_loaders acc batch_size ((λ tr, (tr.1, (tr.2, collator))) <$> requests st).

(** Lines 299-353: all request types, in the order their first request was
    built. *)
Definition execute_loaders (api : RequestApi) (acc : Accelerator) (model : LM)
    (requests_origin : list (string * list Origin))
    (loaders : list (string * Loader))
    : result (list ((string * Z) * list QEntry)) :=
  rfold (exec_type api acc model requests_origin) [] loaders.

Definition execute (api : RequestApi) (acc : Accelerator) (model : LM)
    (collator : list Tok → result Batch) (batch_size : nat)
    (st : BuildState) : result (list ((string * Z) * list QEntry)) :=
  execute_loaders api acc model (requests_origin st)
    (loaders_of acc collator batch_size st).

(** ** Deduplication, ordering and scoring (lines 355-386) *)

(** Lines 358-364: keep an entry when its [unique_request_id] has not been
    seen in this bucket. *)
Definition dedup_step (st : gset Z * list QEntry) (per_doc_request : QEntry)
    : gset Z * list QEntry :=
  let '(unique_request_ids, filtered_per_doc_requests) := st in
  if bool_decide (q_unique_request_id per_doc_request ∈ unique_request_ids) then st
  else ({[q_unique_request_id per_doc_request]} ∪ unique_request_ids,
        filtered_per_doc_requests ++ [per_doc_request]).

Definition dedup (per_doc_requests : list QEntry) : list QEntry :=
  (foldl dedup_step (∅, []) per_doc_requests).2.

(** Line 365: [per_doc_requests.sort(key=lambda x: x[0])].  The sort of
    Python lists is stable, and so is insertion from the right in front of
    the first entry whose key is not smaller. *)
Fixpoint insert_by_i (e : QEntry) (l : list QEntry) : list QEntry :=
  match l with
  | [] => [e]
  | y :: l' =>
      if bool_decide (q_i e ≤ q_i y) then e :: y :: l' else y :: insert_by_i e l'
  end.

Definition sort_by_i (l : list QEntry) : list QEntry := foldr insert_by_i [] l.

(** Lines 358-367: the entries of a bucket that reach scoring, the Result
    Bundle and the context metadata. *)
Definition bucket_entries (per_doc_requests : list QEntry) : list QEntry :=
  sort_by_i (dedup per_doc_requests).

Definition per_doc_results (per_doc_requests : list QEntry) : list Response :=
  q_response <$> bucket_entries per_doc_requests.

Definition fewshot_logging_info (per_doc_requests : list QEntry)
    : result LoggingInfo :=
  py_index (q_fewshotex_logging_info <$> bucket_entries per_doc_requests) 0.

(** Lines 357-386, the body of the loop over [process_response_queue];
    the state is [vals].  Writing the example log is left out. *)
Definition score_bucket (task_dict : list (string * Task))
    (docs : list ((string * Z) * Doc))
    (vals : list ((string * string) * list M))
    (bucket : (string * Z) * list QEntry)
    : result (list ((string * string) * list M)) :=
  let '((task_template_key, d_id), per_doc_requests) := bucket in
  let results := per_doc_results per_doc_requests in
  do info <- fewshot_logging_info per_doc_requests;
  do task <- of_option KeyError (od_get task_dict task_template_key);
  do doc <- of_option KeyError (od_get docs (task_template_key, d_id));
  let metrics := process_results task doc results in
  Ok (foldl (λ vals mv, dl_append vals (task_template_key, mv.1) mv.2) vals metrics).

Definition score (task_dict : list (string * Task))
    (docs : list ((string * Z) * Doc))
    (process_response_queue : list ((string * Z) * list QEntry))
    : result (list ((string * string) * list M)) :=
  rfold (score_bucket task_dict docs) [] process_response_queue.

(** ** Aggregation (lines 388-426) *)

(** A value of a results dictionary. *)
Inductive Cell : Type :=
  | CStr (s : string)
  | CNone
  | CMetric (m : M)
  | CLog (j : J).

Definition name_cell (o : option string) : Cell :=
  match o with
  | Some s => CStr s
  | None => CNone
  end.

(** [results[key][field] = v] on a [defaultdict(dict)]. *)
Definition dd_set (results : list (string * list (string * Cell)))
    (key field : string) (v : Cell) : list (string * list (string * Cell)) :=
  od_set results key (od_set (default [] (od_get results key)) field v).

Definition stderr_key (metric : string) : string := metric +:+ "_stderr".

(** Lines 411-413. *)
Definition stderr_iters (bootstrap_iters : Z) (metric : string) : Z :=
  if bool_decide (metric ∈ ["bleu"; "chrf"; "ter"]) then Z.min bootstrap_iters 1000
  else bootstrap_iters.

Record AggState : Type := mkAggState {
  ag_results : list (string * list (string * Cell));
  ag_metric_results : list (list (string * Cell));
  ag_world : World
}.

(** Lines 391-418, the body of the loop over [vals].  The two helpers of
    [lm_eval.tasks] and [lm_eval.api.metric] are parameters. *)
Definition aggregate_one
    (split_task_template_key : string → string * option string)
    (stderr_for_metric : Reducer → Z → option Reducer)
    (task_dict : list (string * Task)) (bootstrap_iters : Z)
    (st : AggState) (kv : (string * string) * list M) : result AggState :=
  let '((task_template_key, metric), items) := kv in
  let '(task_name, prompt_name) := split_task_template_key task_template_key in
  let results := dd_set (ag_results st) task_template_key "task_name" (CStr task_name) in
  let results := dd_set results task_template_key "prompt_name" (name_cell prompt_name) in
  do task <- of_option KeyError (od_get task_dict task_template_key);
  do reduce <- of_option KeyError (od_get (aggregation task) metric);
  do r1 <- reduce items (ag_world st);
  let results := dd_set results task_template_key metric (CMetric r1.1) in
  do reduce' <- of_option KeyError (od_get (aggregation task) metric);
  do r2 <- reduce' items r1.2;
  let _metric_results :=
    foldl (λ d kj, od_set d kj.1 (CLog kj.2))
      (od_set (od_set (od_set [] "task_name" (CStr task_name))
                 "prompt_name" (name_cell prompt_name))
         metric (CMetric r2.1))
      (get_logging_info task) in
  do reduce'' <- of_option KeyError (od_get (aggregation task) metric);
  match stderr_for_metric reduce'' (stderr_iters bootstrap_iters metric) with
  | Some stderr =>
      do s1 <- stderr items r2.2;
      let results := dd_set results task_template_key (stderr_key metric) (CMetric s1.1) in
      do s2 <- stderr items s1.2;
      let _metric_results := od_set _metric_results (stderr_key metric) (CMetric s2.1) in
      Ok (mkAggState results (ag_metric_results st ++ [_metric_results]) s2.2)
  | None =>
      Ok (mkAggState results (ag_metric_results st ++ [_metric_results]) r2.2)
  end.

Definition aggregate
    (split_task_template_key : string → string * option string)
    (stderr_for_metric : Reducer → Z → option Reducer)
    (task_dict : list (string * Task)) (bootstrap_iters : Z) (w : World)
    (vals : list ((string * string) * list M)) : result AggState :=
  rfold (aggregate_one split_task_template_key stderr_for_metric task_dict
           bootstrap_iters)
    (mkAggState [] [] w) vals.

(** ** The driver *)

Record EvalOutput : Type := mkEvalOutput {
  out_results : list (list (string * Cell));
  out_versions : list (string * Z);
  out_table_results : list (string * list (string * Cell))
}.

Record Config : Type := mkConfig {
  num_fewshot : Z;
  batch_size : nat;
  bootstrap_iters : Z;
  limit : option nat
}.

Record Collaborators : Type := mkCollaborators {
  get_task_template_key : string → option string → string;
  split_task_template_key : string → string * option string;
  shuffle : World → list Doc → list Doc * World;
  stderr_for_metric : Reducer → Z → option Reducer;
  request_api : RequestApi
}.

(** The state after request construction, as a function of the run's
    inputs. *)
Definition built (env : Collaborators) (cfg : Config) (seed : World)
    (tasks : list Task) : BuildState :=
  build (shuffle env) (num_fewshot cfg) (limit cfg) seed
    (build_task_dict (get_task_template_key env) tasks).

(** [evaluate]; [acc] is the object [Accelerator()] returns.  Line 292
    stores the prepared network in the model object, where the driver does
    not read it again: the capabilities of [model] are those of the object
    after the assignment.  The result is the dictionary of the pair that
    line 419 returns. *)
Definition evaluate (env : Collaborators) (acc : Accelerator) (model : LM)
    (tasks : list Task) (cfg : Config) (seed : World) : result EvalOutput :=
  let task_dict := build_task_dict (get_task_template_key env) tasks in
  let st := built env cfg seed tasks in
  do datasets <- requests_datasets st;
  do loaders <- requests_data_loaders model datasets;
  do net <- of_option AttributeError (inner_model model);
  do prepared <- prepare_model acc net;
  do process_response_queue <-
    execute_loaders (request_api env) acc model (requests_origin st)
      (prepare_loaders acc (batch_size cfg) loaders);
  do vals <- score task_dict (docs st) process_response_queue;
  do ag <- aggregate (split_task_template_key env) (stderr_for_metric env)
             task_dict (bootstrap_iters cfg) (rng st) vals;
  Ok (mkEvalOutput (ag_metric_results ag) (versions st) (ag_results ag)).

End model.

(** * Concrete runs

    Small instances of the collaborators, used to run the driver: rows,
    arguments, response scalars and metric values are integers, a padded
    batch is a list of integers, the state of the random generators is a
    counter. *)

Module Demo.

(** [k] requests of one type for a document, all with the same return
    index. *)
Definition requests_for (t : string) (idx : option Z) (k : nat) (d : @Doc Z)
    : list (@Request Z) :=
  (λ c, mkRequest t [10 * doc_fields d + Z.of_nat c; 0] idx 0 0) <$> seq 0 k.


Definition total : @Reducer Z Z := λ items w, Ok (foldr Z.add 0 items, w).

Definition task (name : string) (rows : list Z)
    (reqs : @Doc Z → list (@Request Z))
    : @Task Z unit unit Z Z Z string Z :=
  mkTask true false name None rows (λ _, false)
    (λ _ _ w, ((tt, tt), w + 1))
    (λ d _ _, reqs d)
    1
    (λ _ rs, [("acc"%string, Z.of_nat (length rs))])
    [("acc"%string, total)]
    [].

(** Iterating over a request yields the request twice; [+] is addition. *)
Definition api : @RequestApi Z := mkRequestApi (λ r, Ok [r; r]) Z.add.

(** The tokenizer encodes an argument as one token; padding keeps the first
    token of every sequence. *)
Definition collator : list Tok → result (list Z) :=
  λ toks, Ok ((λ t, default 0 (head (tok_input_ids t))) <$> toks).

(** A backend with the capabilities of [huggingface.py]: [loglikelihood]
    and [loglikelihood_rolling] answer with two columns, as
    [_loglikelihood_tokens] does, [greedy_until] with one row of tokens per
    request. *)
Definition capabilities (t : string)
    : option (list Z → list Z → list Z → result (list (list Z))) :=
  if decide (t = "loglikelihood"%string) then
    Some (λ context _ _, Ok [context; (λ _, 1) <$> context])
  else if decide (t = "loglikelihood_rolling"%string) then
    Some (λ context _ _, Ok [context; (λ _, 0) <$> context])
  else if decide (t = "greedy_until"%string) then
    Some (λ context _ _, Ok ((λ a, [a; a + 1]) <$> context))
  else None.

Definition lm : @LM Z Z (list Z) unit :=
  mkLM capabilities (λ a, Ok (mkTok [a] [1])) 2048 (Some collator) (Some tt).

(** A single process whose loader presents every request under another doc
    id than the one request construction gave it. *)
Definition tampering : @Accelerator Z unit :=
  mkAccelerator false 0 Ok
    (fmap (λ batch : list (@Request Z),
             [(λ r : @Request Z,
                 mkRequest (request_type r) (args r) (index r) (doc_id r + 1)
                   (unique_request_id r)) <$> batch])).

(** Standard-error estimators: none; one that is a function of the values;
    one that divides by the number of values minus one; one that draws from
    the random generator. *)
Definition no_stderr : @Reducer Z Z → Z → option (@Reducer Z Z) := λ _ _, None.

Definition flat_stderr : @Reducer Z Z → Z → option (@Reducer Z Z) :=
  λ _ _, Some (λ items w, Ok (0, w)).

Definition strict_stderr : @Reducer Z Z → Z → option (@Reducer Z Z) :=
  λ _ _, Some (λ items w,
    if bool_decide (length items < 2)%nat
    then Raise (CollaboratorError "ZeroDivisionError")
    else Ok (0, w)).


Definition env (sfm : @Reducer Z Z → Z → option (@Reducer Z Z))
    : @Collaborators Z Z Z Z :=
  mkCollaborators (λ name _, name) (λ key, (key, None)) (λ w ds, (ds, w)) sfm api.

Definition cfg (B : nat) : Config := mkConfig 0 B 10 None.

(** One task, [n] documents, [k] scored-continuation requests each. *)
Definition tasks (n k : nat) : list (@Task Z unit unit Z Z Z string Z) :=
  [task "t" ((λ j, 100 + Z.of_nat j) <$> seq 0 n)
     (requests_for "loglikelihood" (Some 0) k)].

Definition state (n k B : nat) : @BuildState Z unit Z Z :=
  built (env no_stderr) (cfg B) 0 (tasks n k).

(** The entries of a bucket with sub-indexes 2, 0, 1 in arrival order. *)
Definition scrambled : list (@QEntry unit Z) :=
  [mkQEntry 2 (RItem 12) (mkLoggingInfo tt 7) 5;
   mkQEntry 0 (RItem 10) (mkLoggingInfo tt 7) 3;
   mkQEntry 1 (RItem 11) (mkLoggingInfo tt 7) 4].

End Demo.

Module DemoRuns.


(** A task whose requests name a capability the backend does not have,
    after a task whose requests it can answer. *)
Definition unregistered : list (@Task Z unit unit Z Z Z string Z) :=
  [Demo.task "t" [100] (Demo.requests_for "loglikelihood" (Some 0) 1);
   Demo.task "u" [200] (Demo.requests_for "perplexity" (Some 0) 1)].

(** Three documents with one generation request each. *)
Definition generation : list (@Task Z unit unit Z Z Z string Z) :=
  [Demo.task "t" [100; 101; 102] (Demo.requests_for "greedy_until" (Some 0) 1)].

(** The requests of [Demo.state n 1 B] and their loader under padded
    two-way execution. *)
Definition reqs (n B : nat) : list (@Request Z) :=
  dl_get (requests (Demo.state n 1 B)) "loglikelihood"%string.

Definition loader (n B : nat) : list (list (list (@Request Z))) :=
  prepare_data_loader (padded_distributed (Net:=unit) 2 B 0)
    (DataLoader B (reqs n B)).

(** The dispatch ids of the requests and of every worker batch. *)
Definition ids (n B : nat) : list Z :=
  list_fmap _ _ unique_request_id (reqs n B).

Definition loader_ids (n B : nat) : list (list (list Z)) :=
  list_fmap _ _ (list_fmap _ _ (list_fmap _ _ unique_request_id)) (loader n B).

End DemoRuns.

(** * Specification predicates *)

(** The two collections of the multiplexer are index-aligned: they have the
    same request types in the same order, and for every type the request at
    position [j] carries dispatch id [j] and its origin record is the entry
    at position [j] of the origin list of that type. *)
Definition aligned {Raw Info Args : Type}
    (reqs : list (string * list (@Request Args)))
    (origins : list (string * list (@Origin Raw Info))) : Prop :=
  od_keys reqs = od_keys origins ∧
  NoDup (od_keys reqs) ∧
  ∀ t,
    length (dl_get reqs t) = length (dl_get origins t) ∧
    ∀ (j : nat) r, dl_get reqs t !! j = Some r →
      request_type r = t ∧
      unique_request_id r = Z.of_nat j ∧
      ∃ o, dl_get origins t !! j = Some o ∧
           o_doc_id o = doc_id r ∧
           o_request_return_index o = index r.

(** The contract of the multiplexer for the request list of one document.
    Of the requests the task returned, those of the type [t], each with its
    position in the list; the requests the multiplexer files under [t] for
    them, with dispatch ids counting on from the [base] requests the type
    already has; and the origin records it files beside them. *)
Definition of_type {Args : Type} (t : string) (reqs : list (@Request Args))
    : list (Z * @Request Args) :=
  filter (λ ir, request_type ir.2 = t) (enumerate reqs).

Definition filed_requests {Args : Type} (t : string) (base : nat) (d : Z)
    (reqs : list (@Request Args)) : list (@Request Args) :=
  imap (λ k ir, mkRequest t (args ir.2) (index ir.2) d (Z.of_nat (base + k)))
    (of_type t reqs).

Definition filed_origins {Raw Info Args : Type} (t key : string) (doc : @Doc Raw)
    (d : Z) (info : @LoggingInfo Info) (reqs : list (@Request Args))
    : list (@Origin Raw Info) :=
  (λ ir, mkOrigin ir.1 key doc d info (index ir.2)) <$> of_type t reqs.

(** Deduplication as a recursive function of the ids seen so far; it is the
    loop of lines 358-364 read from the left ([dedup_fold] below). *)
Fixpoint dedup_from {Info V : Type} (seen : gset Z) (l : list (@QEntry Info V))
    : list (@QEntry Info V) :=
  match l with
  | [] => []
  | e :: l' =>
      if bool_decide (q_unique_request_id e ∈ seen) then dedup_from seen l'
      else e :: dedup_from ({[q_unique_request_id e]} ∪ seen) l'
  end.

(** The order of line 365. *)
Definition le_i {Info V : Type} (e1 e2 : @QEntry Info V) : Prop :=
  q_i e1 ≤ q_i e2.

(** A bucket as construction fills it: entries with the same dispatch id
    are copies of one entry, and so are entries with the same sub-index. *)
Definition bucket_consistent {Info V : Type} (l : list (@QEntry Info V)) : Prop :=
  ∀ e1 e2, e1 ∈ l → e2 ∈ l →
    q_unique_request_id e1 = q_unique_request_id e2 ∨ q_i e1 = q_i e2 → e1 = e2.



(** A prepared loader presents only requests of the dataset it was made
    from. *)
Definition loader_sound {Args Net : Type} (acc : @Accelerator Args Net)
    (batch_size : nat)
    (reqs : list (@Request Args)) : Prop :=
  ∀ step shard r,
    step ∈ prepare_data_loader acc (DataLoader batch_size reqs) →
    shard ∈ step → r ∈ shard → r ∈ reqs.

(** The collaborators of batch execution have no failing assertion of their
    own: iterating over a request, the tokenizer, the padding, and the
    capabilities the run asks for. *)
Definition backend_no_assert {Raw Info Args V World Batch Net : Type}
    (api : @RequestApi Args) (model : @LM Args V Batch Net)
    (collator : list Tok → result Batch)
    (st : @BuildState Raw Info Args World) : Prop :=
  (∀ r, request_iter api r ≠ Raise AssertionError) ∧
  (∀ a, tok_encode model a ≠ Raise AssertionError) ∧
  (∀ toks, collator toks ≠ Raise AssertionError) ∧
  ∀ t reqs capability context target decoder,
    (t, reqs) ∈ requests st →
    getattr model t = Some capability →
    capability context target decoder ≠ Raise AssertionError.


(** [results[key][field]] and [record[field]] for reading results. *)
Definition table_cell {M J : Type}
    (results : list (string * list (string * @Cell M J))) (key field : string)
    : option (@Cell M J) :=
  od_get (default [] (od_get results key)) field.

(** The triples of request construction: one per origin record. *)
Definition origin_triple {Raw Info : Type} (o : @Origin Raw Info) : string * Z * Z :=
  (o_task_template_key o, o_doc_id o, o_i o).

Definition constructed {Raw Info Args World : Type}
    (st : @BuildState Raw Info Args World) : list (string * Z * Z) :=
  mjoin ((λ tos : string * list (@Origin Raw Info), origin_triple <$> tos.2)
           <$> requests_origin st).

(** The triples the reconciler recovers: one per entry that reaches
    scoring. *)
Definition recovered {Info V : Type}
    (queue : list ((string * Z) * list (@QEntry Info V))) : list (string * Z * Z) :=
  mjoin ((λ b : (string * Z) * list (@QEntry Info V),
            (λ e, (b.1.1, b.1.2, q_i e)) <$> bucket_entries b.2) <$> queue).






(** Iterating over a request yields, as second element, a request with the
    dispatch id and the doc id of the request itself. *)
Definition iter_keeps_ids {Args : Type} (api : @RequestApi Args) : Prop :=
  ∀ r r0 r', request_iter api r = Ok [r0; r'] →
    unique_request_id r' = unique_request_id r ∧ doc_id r' = doc_id r.















(** * The code around the driver

    The result table of lines 429-476 and the cache name of lines 78-82. *)

(** [sub in s] on strings. *)
Fixpoint str_contains (sub s : string) : bool :=
  String.prefix sub s ||
  match s with
  | EmptyString => false
  | String _ s' => str_contains sub s'
  end.

(** [s.endswith(suffix)]. *)
Fixpoint endswith (s suffix : string) : bool :=
  String.eqb s suffix ||
  match s with
  | EmptyString => false
  | String _ s' => endswith s' suffix
  end.

(** [s.replace(old, new)] for a pattern [old] of one character. *)
Fixpoint replace_char (old new : Ascii.ascii) (s : string) : string :=
  match s with
  | EmptyString => EmptyString
  | String c s' =>
      String (if Ascii.eqb c old then new else c) (replace_char old new s')
  end.

(** ** The result table (lines 429-476) *)

Section table.
Context {M J : Type}.

(** A row of [values]: task name, prompt name, version, metric, value,
    the sign between value and standard error, standard error.  The version
    is the task's version or the empty string. *)
Record Row : Type := mkRow {
  row_task_name : @Cell M J;
  row_prompt_name : @Cell M J;
  row_version : Z + string;
  row_metric : string;
  row_value : string;
  row_sign : string;
  row_stderr : string
}.

(** Lines 444-474, the body of [for m, v in result_dict.items()]; the state
    is [values] and [version].  [format_4f] is the operator ["%.4f" % v]. *)
Definition table_row (format_4f : @Cell M J → result string)
    (result_dict : list (string * @Cell M J))
    (st : list Row * (Z + string)) (mv : string * @Cell M J)
    : result (list Row * (Z + string)) :=
  let '(values, version) := st in
  let '(m, v) := mv in
  if endswith m "_stderr" then Ok st
  else if str_contains "_name" m then Ok st
  else
    match od_get result_dict (m +:+ "_stderr") with
    | Some se =>
        do task_name <- of_option KeyError (od_get result_dict "task_name");
        do prompt_name <- of_option KeyError (od_get result_dict "prompt_name");
        do value <- format_4f v;
        do stderr <- format_4f se;
        Ok (values ++ [mkRow task_name prompt_name version m value "±" stderr],
            inr "")
    | None =>
        do task_name <- of_option KeyError (od_get result_dict "task_name");
        do prompt_name <- of_option KeyError (od_get result_dict "prompt_name");
        do value <- format_4f v;
        Ok (values ++ [mkRow task_name prompt_name version m value "" ""],
            inr "")
    end.

(** Lines 442-474, the body of [for k, result_dict in
    results["table_results"].items()]. *)
Definition table_rows (format_4f : @Cell M J → result string)
    (versions : list (string * Z)) (values : list Row)
    (kd : string * list (string * @Cell M J)) : result (list Row) :=
  let '(k, result_dict) := kd in
  do version <- of_option KeyError (od_get versions k);
  do st <- rfold (table_row format_4f result_dict) (values, inl version)
             result_dict;
  Ok st.1.

(** Lines 441-475: the value matrix handed to the table writer. *)
Definition make_table_values (format_4f : @Cell M J → result string)
    (results : @EvalOutput M J) : result (list Row) :=
  rfold (table_rows format_4f (out_versions results)) []
    (out_table_results results).

(** [make_table]: the writer of [pytablewriter] renders the matrix. *)
Definition make_table (dumps : list Row → string)
    (format_4f : @Cell M J → result string)
    (results : @EvalOutput M J) : result string :=
  do values <- make_table_values format_4f results;
  Ok (dumps values).

End table.

(** The fields of a results dictionary that get a row (lines 445-448). *)
Definition shown (m : string) : bool :=
  negb (endswith m "_stderr") && negb (str_contains "_name" m).

(** ** The cache of the command-line entry point (lines 78-82) *)

Section cache.
Import (notations) Stdlib.Strings.Ascii.

(** Line 79. *)
Definition cache_args (model_args : string) : string :=
  replace_char "/"%char "-"%char
    (replace_char ","%char "_"%char (replace_char "="%char "-"%char model_args)).

(** Line 81. *)
Definition cache_location (model_api_name model_args : string) : string :=
  "lm_cache/" +:+ model_api_name +:+ "_" +:+ cache_args model_args +:+ ".db".

(** What line 79 does to one character. *)
Definition cache_char (c : Ascii.ascii) : Ascii.ascii :=
  if bool_decide (c = "="%char ∨ c = "/"%char) then "-"%char
  else if bool_decide (c = ","%char) then "_"%char
  else c.

(** Two characters that line 79 does not tell apart. *)
Definition same_cache_class (a b : Ascii.ascii) : Prop :=
  a = b ∨
  (a ∈ ["="%char; "-"%char; "/"%char] ∧ b ∈ ["="%char; "-"%char; "/"%char]) ∨
  (a ∈ [","%char; "_"%char] ∧ b ∈ [","%char; "_"%char]).

(** Two argument strings of the same length whose characters line 79 does
    not tell apart. *)
Fixpoint same_cache (s1 s2 : string) : Prop :=
  match s1, s2 with
  | EmptyString, EmptyString => True
  | String a s1', String b s2' => same_cache_class a b ∧ same_cache s1' s2'
  | _, _ => False
  end.

(** The characters of a string. *)
Fixpoint chars (s : string) : list Ascii.ascii :=
  match s with
  | EmptyString => []
  | String c s' => c :: chars s'
  end.

End cache.

(** * Further specification predicates *)

Section predicates.
Context {Raw Ctx Info Args V M J World : Type}.

(** The test of line 195, negated: the task has evaluation documents. *)
Definition has_evaluation_docs (task : @Task Raw Ctx Info Args V M J World) : bool :=
  has_validation_docs task || has_test_docs task.

(** Lines 201-203: the key of a task. *)
Definition task_key (key_of : string → option string → string)
    (task : @Task Raw Ctx Info Args V M J World) : string :=
  key_of (registry_name task) (prompt_template_name task).

(** The entry of [versions] a task of the task dictionary gets (line 256). *)
Definition version_entry (kt : string * @Task Raw Ctx Info Args V M J World)
    : string * Z :=
  (kt.1, VERSION kt.2).

(** Every origin record can be traced back: its task is in the task
    dictionary, [docs] holds its document under the key of its bucket, and
    the doc id stored in its logging dictionary is the ["doc_id"] field of
    that document. *)
Definition origins_traceable
    (task_dict : list (string * @Task Raw Ctx Info Args V M J World))
    (st : @BuildState Raw Info Args World) : Prop :=
  ∀ t (j : nat) o, dl_get (requests_origin st) t !! j = Some o →
    is_Some (od_get task_dict (o_task_template_key o)) ∧
    od_get (docs st) (o_task_template_key o, o_doc_id o) = Some (o_doc o) ∧
    logged_doc_id (o_fewshotex_logging_info o) = doc_field_doc_id (o_doc o).

(** The invariant of request construction behind [origins_traceable]: the
    origin records belong to the tasks in [done] or to the documents before
    [d] of the task [key]. *)
Definition traced (done : list string) (key : string) (d : Z)
    (st : @BuildState Raw Info Args World) : Prop :=
  ∀ t (j : nat) o, dl_get (requests_origin st) t !! j = Some o →
    (o_task_template_key o ∈ done ∨
     (o_task_template_key o = key ∧ 0 ≤ o_doc_id o < d)) ∧
    od_get (docs st) (o_task_template_key o, o_doc_id o) = Some (o_doc o) ∧
    logged_doc_id (o_fewshotex_logging_info o) = doc_field_doc_id (o_doc o).

(** No request list and no origin list is empty. *)
Definition lists_nonempty (st : @BuildState Raw Info Args World) : Prop :=
  (∀ t reqs, (t, reqs) ∈ requests st → reqs ≠ []) ∧
  (∀ t os, (t, os) ∈ requests_origin st → os ≠ []).





(** The cells of a results dictionary other than the two names hold metric
    values. *)
Definition dict_ok (dict : list (string * @Cell M J)) : Prop :=
  ∀ field c, (field, c) ∈ dict →
    field = "task_name"%string ∨ field = "prompt_name"%string ∨ ∃ m, c = CMetric m.

(** [table_results] as the aggregation loop leaves it: every key is a key
    of the task dictionary, and every results dictionary holds the two names
    and, beside them, metric values only. *)
Definition table_well_formed
    (task_dict : list (string * @Task Raw Ctx Info Args V M J World))
    (results : list (string * list (string * @Cell M J))) : Prop :=
  NoDup (od_keys results) ∧
  ∀ key dict, od_get results key = Some dict →
    is_Some (od_get task_dict key) ∧
    is_Some (od_get dict "task_name") ∧
    is_Some (od_get dict "prompt_name") ∧
    NoDup (od_keys dict) ∧
    dict_ok dict.

End predicates.

(** * The backend of [lm_eval/models/huggingface.py]

    The parts of the Hugging Face backend that do not depend on the
    libraries it loads: the maximum sequence length and the constructor
    (lines 20-80, 124-144, 239-246), the stopping criteria (lines 359-388),
    [greedy_until] (lines 167-180) and the loop of [_loglikelihood_tokens]
    (lines 304-340).  Tensors of token ids are lists of rows; the pretrained
    configuration, tokenizer and model are parameters. *)

Module huggingface.

Definition _DEFAULT_MAX_LENGTH : Z := 2048.

(** The two subclasses of [HuggingFaceAutoLM]. *)
Inductive AutoClass : Type :=
  | AutoCausalLM
  | AutoSeq2SeqLM.

(** What the backend uses of a tokenizer.  [model_max_length] is absent
    when the tokenizer object has no such attribute. *)
Record Tokenizer : Type := mkTokenizer {
  model_max_length : option Z;
  pad_token : option string;
  eos_token : option string;
  decode : list Z → string
}.

Section model.
Context {Model : Type}.

(** The attributes of a model object that the constructor sets.  [_config]
    lists the attributes of the pretrained configuration with their
    values; [model] is absent until line 74 sets it. *)
Record HuggingFaceAutoLM : Type := mkHuggingFaceAutoLM {
  auto_class : AutoClass;
  _batch_size : Z;
  _user_defined_max_generation_length : option Z;
  _max_length : option Z;
  _config : list (string * Z);
  tokenizer : Tokenizer;
  model : option Model
}.

(** Line 138. *)
Definition seqlen_config_attrs : list string :=
  ["n_positions"; "max_position_embeddings"; "n_ctx"]%string.

(** The property [max_length]: lines 124-144, and lines 239-246 for
    [AutoSeq2SeqLM], which overrides it. *)
Definition max_length (self : HuggingFaceAutoLM) : Z :=
  match auto_class self with
  | AutoSeq2SeqLM =>
      match _max_length self with
      | Some n => n
      | None => _DEFAULT_MAX_LENGTH
      end
  | AutoCausalLM =>
      match _max_length self with
      | Some n => n
      | None =>
          match head (omap (od_get (_config self)) seqlen_config_attrs) with
          | Some n => n
          | None =>
              match model_max_length (tokenizer self) with
              | Some n => n
              | None => _DEFAULT_MAX_LENGTH
              end
          end
      end
  end.

(** The revision that lines 92 and 107 pass on. *)
Definition revision_path (revision : string) (subfolder : option string) : string :=
  revision +:+ match subfolder with
               | Some s => "/" +:+ s
               | None => ""
               end.

(** Lines 96-110.  [from_pretrained] stands for
    [transformers.AutoTokenizer.from_pretrained] applied to a name and a
    revision. *)
Definition _create_auto_tokenizer (from_pretrained : string → string → result Tokenizer)
    (pretrained revision : string) (subfolder tokenizer : option string)
    : result Tokenizer :=
  do t <- from_pretrained (default pretrained tokenizer)
            (revision_path revision subfolder);
  Ok (mkTokenizer (model_max_length t) (eos_token t) (eos_token t) (decode t)).

(** Lines 82-94.  [from_pretrained] stands for the [from_pretrained] of
    the [AUTO_MODEL_CLASS] of the subclass. *)
Definition _create_auto_model (from_pretrained : AutoClass → string → string → result Model)
    (cls : AutoClass) (pretrained revision : string) (subfolder : option string)
    : result Model :=
  from_pretrained cls pretrained (revision_path revision subfolder).

(** The [device] argument of the constructor: a string, an integer or
    [None]. *)
Inductive Device : Type :=
  | DeviceStr (s : string)
  | DeviceInt (n : Z)
  | DeviceNone.

(** [HuggingFaceAutoLM.__init__], lines 55-80: the assertions, the
    assignments, the assignment of [self.max_length] to the tokenizer and
    the creation of the model.  [config_from_pretrained] stands for
    [transformers.AutoConfig.from_pretrained]; [model_from_pretrained]
    includes the switch of the model to evaluation mode. *)
Definition init (cls : AutoClass)
    (config_from_pretrained : string → result (list (string * Z)))
    (tokenizer_from_pretrained : string → string → result Tokenizer)
    (model_from_pretrained : AutoClass → string → string → result Model)
    (pretrained : string) (tokenizer : option string) (subfolder : option string)
    (revision : string) (batch_size : option Z)
    (user_defined_max_generation_length : option Z) (max_length_arg : option Z)
    (device : Device) : result HuggingFaceAutoLM :=
  match device with
  | DeviceStr _ =>
      match batch_size with
      | Some b =>
          do config <- config_from_pretrained pretrained;
          do tok <- _create_auto_tokenizer tokenizer_from_pretrained pretrained
                      revision subfolder tokenizer;
          let self := mkHuggingFaceAutoLM cls b user_defined_max_generation_length
                        max_length_arg config tok None in
          let tok' := mkTokenizer (Some (max_length self)) (pad_token tok)
                        (eos_token tok) (decode tok) in
          do m <- _create_auto_model model_from_pretrained cls pretrained revision
                    subfolder;
          Ok (mkHuggingFaceAutoLM cls b user_defined_max_generation_length
                max_length_arg config tok' (Some m))
      | None => Raise AssertionError
      end
  | _ => Raise AssertionError
  end.

End model.
Arguments HuggingFaceAutoLM : clear implicits.

(** [MultiTokenEOSCriteria], lines 359-374. *)
Record MultiTokenEOSCriteria : Type := mkMultiTokenEOSCriteria {
  sequence_ids : list Z;
  sequence_ids_len : Z;
  sequence : string
}.

Definition MultiTokenEOSCriteria_init (tok : Tokenizer) (ids : list Z)
    : MultiTokenEOSCriteria :=
  mkMultiTokenEOSCriteria ids (Z.of_nat (length ids) + 1) (decode tok ids).

(** [__call__]: [input_ids] is the batch of the sequences generated so
    far. *)
Definition MultiTokenEOSCriteria_call (tok : Tokenizer)
    (self : MultiTokenEOSCriteria) (input_ids : list (list Z)) : result bool :=
  do row <- py_index input_ids 0;
  let last_token_id := py_slice_from row (- sequence_ids_len self) in
  let last_tokens := decode tok last_token_id in
  Ok (str_contains (sequence self) last_tokens).

(** [stop_sequences_criteria], lines 377-388: iterating over [None]
    raises TypeError. *)
Definition stop_sequences_criteria (tok : Tokenizer)
    (stop_sequences_ids : option (list (list Z)))
    : result (list MultiTokenEOSCriteria) :=
  match stop_sequences_ids with
  | Some rows => Ok (MultiTokenEOSCriteria_init tok <$> rows)
  | None => Raise TypeError
  end.

(** An argument of [greedy_until] as its assertions see it: a tensor,
    [None], or another object. *)
Inductive Arg : Type :=
  | ATensor (rows : list (list Z))
  | ANone
  | AOther.

Section generation.
Context {Inputs Generations : Type}.

(** [_model_generate], lines 212-228 and 347-357: [generate] stands for
    the call of [self.model.generate] and what the subclass does with its
    result. *)
Definition _model_generate
    (generate : Inputs → list (list Z) → list MultiTokenEOSCriteria → result Generations)
    (tok : Tokenizer) (inputs : Inputs) (max_tokens : list (list Z))
    (stop : option (list (list Z))) : result Generations :=
  do stopping_criteria <- stop_sequences_criteria tok stop;
  generate inputs max_tokens stopping_criteria.

(** [greedy_until], lines 167-180. *)
Definition greedy_until
    (generate : Inputs → list (list Z) → list MultiTokenEOSCriteria → result Generations)
    (tok : Tokenizer) (context_inputs : Inputs)
    (stop_sequences max_generation_length : Arg) : result Generations :=
  match max_generation_length with
  | ATensor max_tokens =>
      match stop_sequences with
      | ATensor s => _model_generate generate tok context_inputs max_tokens (Some s)
      | ANone => _model_generate generate tok context_inputs max_tokens None
      | AOther => Raise AssertionError
      end
  | _ => Raise AssertionError
  end.

End generation.

Section loglikelihood.
Context {Logits Score : Type}.

(** [torch.cat] of a list of one-element tensors: their elements in order;
    it refuses the empty list. *)
Definition torch_cat {A} (xs : list A) : result (list A) :=
  match xs with
  | [] => Raise RuntimeError
  | _ :: _ => Ok xs
  end.

(** The loop of [_loglikelihood_tokens], lines 320-340.  [row_score] is
    the body of the loop for one row: the summed log-probability of the
    target and whether the greedy tokens match it. *)
Definition _loglikelihood_tokens
    (row_score : Logits → list Z → list Z → result (Score * bool))
    (log_softmaxes : list Logits) (input_ids attention_mask : list (list Z))
    : result (list Score * list bool) :=
  do results <-
    rfold (λ (acc : list Score * list bool) (row : Logits * list Z * list Z),
             do r <- row_score row.1.1 row.1.2 row.2;
             Ok (acc.1 ++ [r.1], acc.2 ++ [r.2]))
      ([], []) (zip3 log_softmaxes input_ids attention_mask);
  do logprobs <- torch_cat results.1;
  do exact_match <- torch_cat results.2;
  Ok (logprobs, exact_match).

End loglikelihood.

End huggingface.

(** * Properties *)

(** ** The result type *)

Lemma rbind_Ok {A B} (m : result A) (k : A → result B) b :
  rbind m k = Ok b ↔ ∃ a, m = Ok a ∧ k a = Ok b.
Proof.
  destruct m as [a|e]; simpl.
  - split; [by exists a | by intros (? & [= ->] & ?)].
  - split; [done | by intros (? & ? & ?)].
Qed.

Lemma rfold_cons {A S} (body : S → A → result S) s x l :
  rfold body s (x :: l) = rbind (body s x) (λ s', rfold body s' l).
Proof. done. Qed.

Lemma rfold_app {A S} (body : S → A → result S) s l1 l2 :
  rfold body s (l1 ++ l2) = rbind (rfold body s l1) (λ s', rfold body s' l2).
Proof.
  revert s. induction l1 as [|x l1 IH]; intros s; simpl; [done|].
  destruct (body s x); simpl; [apply IH | done].
Qed.

Lemma rbind_raise {A B} (m : result A) (k : A → result B) e :
  rbind m k = Raise e ↔ m = Raise e ∨ ∃ a, m = Ok a ∧ k a = Raise e.
Proof.
  destruct m as [a|e']; simpl.
  - split; [intros H; right; by exists a | by intros [?|(? & [= ->] & ?)]].
  - split; [intros [= ->]; by left | by intros [[= ->]|(? & ? & _)]].
Qed.

Lemma rfold_not_raise {A S} (body : S → A → result S) e l s :
  (∀ s x, x ∈ l → body s x ≠ Raise e) → rfold body s l ≠ Raise e.
Proof.
  revert s. induction l as [|x l IH]; intros s Hb; simpl; [done|].
  destruct (body s x) as [s'|e'] eqn:Hx; simpl.
  - apply IH. intros s0 y Hy. apply Hb. by right.
  - intros [= ->]. by eapply Hb; [left|].
Qed.

Lemma rfold_raise {A S} (body : S → A → result S) e s s1 l1 x l2 :
  rfold body s l1 = Ok s1 → body s1 x = Raise e →
  rfold body s (l1 ++ x :: l2) = Raise e.
Proof. intros H1 Hx. rewrite rfold_app, H1. simpl. by rewrite Hx. Qed.


Lemma rfold_collect_inv {A B} (f : A → result B) l acc ys :
  rfold (λ rs x, do r <- f x; Ok (rs ++ [r])) acc l = Ok ys →
  ∃ zs, ys = acc ++ zs ∧ Forall2 (λ x y, f x = Ok y) l zs.
Proof.
  revert acc. induction l as [|x l IH]; intros acc; simpl.
  - intros [= <-]. exists []. split; [by rewrite app_nil_r | constructor].
  - destruct (f x) as [y|] eqn:Hy; simpl; [|done].
    intros H. destruct (IH _ H) as (zs & -> & HF).
    exists (y :: zs). split; [by rewrite <- app_assoc | by constructor].
Qed.

Lemma rfold_fmap {A B S} (g : A → B) (body : S → B → result S) s l :
  rfold body s (g <$> l) = rfold (λ s x, body s (g x)) s l.
Proof.
  revert s. induction l as [|x l IH]; intros s; csimpl; [done|].
  destruct (body s (g x)); simpl; [apply IH | done].
Qed.

Lemma rfold_ext_in {A S} (body body' : S → A → result S) s l :
  (∀ s x, x ∈ l → body s x = body' s x) → rfold body s l = rfold body' s l.
Proof.
  revert s. induction l as [|x l IH]; intros s Hb; simpl; [done|].
  rewrite (Hb s x) by left. destruct (body' s x); simpl; [|done].
  apply IH. intros s' y Hy. apply Hb. by right.
Qed.

Lemma foldl_invariant {A S} (P : S → Prop) (f : S → A → S) l s :
  (∀ s x, P s → P (f s x)) → P s → P (foldl f s l).
Proof.
  intros Hstep. revert s. induction l as [|x l IH]; intros s Hs; simpl; auto.
Qed.

(** ** Python sequences *)

Lemma py_index_nat {A} (xs : list A) (i : nat) x :
  xs !! i = Some x → py_index xs (Z.of_nat i) = Ok x.
Proof.
  intros Hx. pose proof (lookup_lt_Some _ _ _ Hx) as Hlt.
  unfold py_index. rewrite bool_decide_eq_true_2 by lia.
  by rewrite Nat2Z.id, Hx.
Qed.

Lemma py_index_raise {A} (xs : list A) i e : py_index xs i = Raise e → e = IndexError.
Proof.
  unfold py_index, of_option. repeat case_bool_decide; repeat case_match;
    by intros [= <-].
Qed.


Lemma enumerate_from_snd {A} n (xs : list A) : (enumerate_from n xs).*2 = xs.
Proof. revert n. induction xs as [|x xs IH]; intros n; simpl; [done|]. by rewrite IH. Qed.

(** ** Dictionaries *)

Section odict_facts.
Context {K V : Type} `{EqDecision K}.
Implicit Types (d : list (K * V)) (k : K) (v : V).

Lemma od_get_set_eq d k v : od_get (od_set d k v) k = Some v.
Proof.
  induction d as [|[k' v'] d IH]; simpl.
  - by rewrite decide_True.
  - destruct (decide (k' = k)) as [->|Hne]; simpl.
    + by rewrite decide_True.
    + by rewrite decide_False.
Qed.

Lemma od_get_set_ne d k k' v : k ≠ k' → od_get (od_set d k v) k' = od_get d k'.
Proof.
  intros Hne. induction d as [|[k0 v0] d IH]; simpl.
  - by rewrite decide_False.
  - destruct (decide (k0 = k)) as [->|Hne0]; simpl.
    + by rewrite !decide_False.
    + by rewrite IH.
Qed.

Lemma od_get_None d k : od_get d k = None ↔ k ∉ od_keys d.
Proof.
  unfold od_keys. induction d as [|[k' v'] d IH]; simpl.
  - split; [intros _; apply not_elem_of_nil | done].
  - rewrite not_elem_of_cons. destruct (decide (k' = k)) as [->|Hne].
    + split; [done | intros [? _]; done].
    + rewrite IH. split; [by split | by intros [_ ?]].
Qed.

Lemma od_get_Some_elem d k v : od_get d k = Some v → (k, v) ∈ d.
Proof.
  induction d as [|[k' v'] d IH]; simpl; [done|].
  destruct (decide (k' = k)) as [->|Hne].
  - intros [= ->]. left.
  - intros Hg. right. by apply IH.
Qed.

Lemma od_elem_get d k v : NoDup (od_keys d) → (k, v) ∈ d → od_get d k = Some v.
Proof.
  unfold od_keys. induction d as [|[k' v'] d IH]; simpl.
  - intros _ Hin. by apply elem_of_nil in Hin.
  - rewrite NoDup_cons. intros [Hnin Hnd] Hin.
    apply elem_of_cons in Hin as [[= -> ->]|Hin].
    + by rewrite decide_True.
    + rewrite decide_False; [by apply IH|].
      intros ->. apply Hnin. apply list_elem_of_fmap. by exists (k, v).
Qed.

Lemma od_keys_set d k v :
  od_keys (od_set d k v) =
  match od_get d k with Some _ => od_keys d | None => od_keys d ++ [k] end.
Proof.
  unfold od_keys. induction d as [|[k' v'] d IH]; csimpl; [done|].
  destruct (decide (k' = k)) as [->|Hne]; csimpl; [done|].
  rewrite IH. by destruct (od_get d k).
Qed.

Lemma od_keys_set_NoDup d k v : NoDup (od_keys d) → NoDup (od_keys (od_set d k v)).
Proof.
  intros Hnd. rewrite od_keys_set. destruct (od_get d k) eqn:Hg; [done|].
  apply NoDup_app. split_and!; [done| |apply NoDup_singleton].
  intros x Hx Hx'. apply list_elem_of_singleton in Hx' as ->.
  by apply od_get_None in Hg.
Qed.

End odict_facts.

Section defaultdict_facts.
Context {K A : Type} `{EqDecision K}.
Implicit Types (d : list (K * list A)) (k : K) (x : A).

Lemma dl_get_append_eq d k x : dl_get (dl_append d k x) k = dl_get d k ++ [x].
Proof. unfold dl_append. unfold dl_get at 1. by rewrite od_get_set_eq. Qed.

Lemma dl_get_append_ne d k k' x : k ≠ k' → dl_get (dl_append d k x) k' = dl_get d k'.
Proof. intros Hne. unfold dl_append, dl_get. by rewrite od_get_set_ne. Qed.

Lemma dl_get_touch d k k' : dl_get (dl_touch d k) k' = dl_get d k'.
Proof.
  unfold dl_touch. destruct (od_get d k) eqn:Hg; [done|].
  unfold dl_get. induction d as [|[k0 l0] d IH]; simpl in *.
  - by destruct (decide (k = k')).
  - destruct (decide (k0 = k)); [done|]. destruct (decide (k0 = k')); [done|]. by apply IH.
Qed.

(** The read that creates a list and the append that follows it amount to
    the append alone. *)
Lemma dl_append_touch d k x : dl_append (dl_touch d k) k x = dl_append d k x.
Proof.
  unfold dl_append. rewrite dl_get_touch. unfold dl_touch.
  destruct (od_get d k) eqn:Hg; [done|].
  generalize (dl_get d k ++ [x]). intros l.
  induction d as [|[k0 l0] d IH]; simpl in *.
  - by rewrite decide_True.
  - destruct (decide (k0 = k)); [done|]. by rewrite IH.
Qed.

Lemma dl_keys_append d k x :
  od_keys (dl_append d k x) =
  match od_get d k with Some _ => od_keys d | None => od_keys d ++ [k] end.
Proof. apply od_keys_set. Qed.

End defaultdict_facts.

(** ** Request multiplexing *)

Section multiplexer.
Context {Raw Ctx Info Args V M J World : Type}.
Abbreviation BuildStateT := (@BuildState Raw Info Args World).
Abbreviation TaskT := (@Task Raw Ctx Info Args V M J World).
Implicit Types (st : BuildStateT) (req : @Request Args).

Lemma mux_request_requests key doc d info st i req :
  requests (mux_request key doc d info st (i, req)) =
  dl_append (requests st) (request_type req)
    (mkRequest (request_type req) (args req) (index req) d
       (Z.of_nat (length (dl_get (requests_origin st) (request_type req))))).
Proof. unfold mux_request. simpl. by rewrite dl_get_touch. Qed.

Lemma mux_request_origin key doc d info st i req :
  requests_origin (mux_request key doc d info st (i, req)) =
  dl_append (requests_origin st) (request_type req)
    (mkOrigin i key doc d info (index req)).
Proof. unfold mux_request. simpl. by rewrite dl_append_touch. Qed.

Lemma aligned_nil : aligned (Raw:=Raw) (Info:=Info) (Args:=Args) [] [].
Proof.
  split_and!; [done|constructor|]. intros t. split; [done|]. intros j r Hr.
  unfold dl_get in Hr. simpl in Hr. by rewrite lookup_nil in Hr.
Qed.

Lemma mux_request_aligned key doc d info st ir :
  aligned (requests st) (requests_origin st) →
  aligned (requests (mux_request key doc d info st ir))
          (requests_origin (mux_request key doc d info st ir)).
Proof.
  destruct ir as [i req]. intros (Hkeys & Hnd & Hall).
  rewrite mux_request_requests, mux_request_origin.
  set (t := request_type req).
  assert (od_get (requests st) t = None ↔ od_get (requests_origin st) t = None) as Hnone.
  { by rewrite !od_get_None, Hkeys. }
  split_and!.
  - rewrite !dl_keys_append.
    destruct (od_get (requests st) t), (od_get (requests_origin st) t);
      try (by rewrite Hkeys).
    + destruct Hnone as [_ Hn]. discriminate (Hn eq_refl).
    + destruct Hnone as [Hn _]. discriminate (Hn eq_refl).
  - by apply od_keys_set_NoDup.
  - intros t'. destruct (decide (t = t')) as [<-|Hne].
    + rewrite !dl_get_append_eq. destruct (Hall t) as [Hlen Hpos].
      split; [by rewrite !length_app, Hlen|].
      intros j r Hr. apply lookup_app_Some in Hr as [Hr|[Hge Hr]].
      * destruct (Hpos j r Hr) as (? & ? & o & Ho & ? & ?).
        split_and!; [done..|]. exists o. split_and!; [|done..].
        by apply lookup_app_l_Some.
      * apply list_lookup_singleton_Some in Hr as [Hj <-]. simpl.
        assert (j = length (dl_get (requests st) t)) as -> by lia.
        split_and!; [done|by rewrite Hlen|].
        exists (mkOrigin i key doc d info (index req)). split_and!; [|done..].
        rewrite lookup_app_r by lia. by rewrite Hlen, Nat.sub_diag.
    + rewrite !dl_get_append_ne by done. apply Hall.
Qed.

Lemma build_doc_aligned nf key (task : TaskT) st id_doc :
  aligned (requests st) (requests_origin st) →
  aligned (requests (build_doc nf key task st id_doc))
          (requests_origin (build_doc nf key task st id_doc)).
Proof.
  destruct id_doc as [d doc]. unfold build_doc.
  destruct (fewshot_context task doc nf (rng st)) as [[ctx info] rng'].
  intros Hal.
  apply (foldl_invariant (λ s, aligned (requests s) (requests_origin s))); [|done].
  intros s x. apply mux_request_aligned.
Qed.

Lemma build_task_aligned shuffle nf limit st (kt : string * TaskT) :
  aligned (requests st) (requests_origin st) →
  aligned (requests (build_task shuffle nf limit st kt))
          (requests_origin (build_task shuffle nf limit st kt)).
Proof.
  destruct kt as [key task]. unfold build_task.
  destruct (shuffle _ _) as [task_docs rng']. simpl. intros Hal.
  apply (foldl_invariant (λ s, aligned (requests s) (requests_origin s))); [|done].
  intros s x. apply build_doc_aligned.
Qed.

Lemma build_aligned shuffle nf limit seed (task_dict : list (string * TaskT)) :
  aligned (requests (build shuffle nf limit seed task_dict))
          (requests_origin (build shuffle nf limit seed task_dict)).
Proof.
  unfold build.
  apply (foldl_invariant (λ s, aligned (requests s) (requests_origin s))).
  - intros s x. apply build_task_aligned.
  - apply aligned_nil.
Qed.

Lemma mux_fold key doc d info (reqs : list (@Request Args)) n st t :
  let st' := foldl (mux_request key doc d info) st (enumerate_from n reqs) in
  dl_get (requests st') t =
    dl_get (requests st) t ++
    imap (λ k ir, mkRequest t (args ir.2) (index ir.2) d
                    (Z.of_nat (length (dl_get (requests_origin st) t) + k)))
      (filter (λ ir, request_type ir.2 = t) (enumerate_from n reqs)) ∧
  dl_get (requests_origin st') t =
    dl_get (requests_origin st) t ++
    ((λ ir, mkOrigin ir.1 key doc d info (index ir.2)) <$>
       filter (λ ir, request_type ir.2 = t) (enumerate_from n reqs)).
Proof.
  revert n st. induction reqs as [|r reqs IH]; intros n st; cbn zeta.
  - simpl. by rewrite !app_nil_r.
  - cbn [enumerate_from foldl].
    destruct (IH (n + 1) (mux_request key doc d info st (n, r))) as [IHr IHo].
    cbn zeta in IHr, IHo. rewrite IHr, IHo.
    rewrite mux_request_requests, mux_request_origin.
    destruct (decide (request_type r = t)) as [<-|Hne].
    + rewrite (filter_cons_True (λ ir : Z * @Request Args, request_type ir.2 = request_type r)) by done.
      rewrite !dl_get_append_eq, <- !app_assoc. split.
      * f_equal. rewrite imap_cons. cbn [app fst snd]. f_equal.
        -- f_equal. lia.
        -- apply imap_ext. intros k ir _. cbn [compose]. f_equal.
           rewrite length_app. simpl. lia.
      * by rewrite fmap_cons.
    + rewrite (filter_cons_False (λ ir : Z * @Request Args, request_type ir.2 = t)) by done.
      by rewrite !dl_get_append_ne.
Qed.

Lemma build_doc_files nf key (task : TaskT) st d doc t :
  let ctx_info := (fewshot_context task doc nf (rng st)).1 in
  let reqs := construct_requests task doc ctx_info.1 nf in
  let info := mkLoggingInfo ctx_info.2 (doc_field_doc_id doc) in
  let st' := build_doc nf key task st (d, doc) in
  dl_get (requests st') t =
    dl_get (requests st) t ++
    filed_requests t (length (dl_get (requests_origin st) t)) d reqs ∧
  dl_get (requests_origin st') t =
    dl_get (requests_origin st) t ++ filed_origins t key doc d info reqs.
Proof.
  cbn zeta. unfold build_doc, filed_requests, filed_origins, of_type, enumerate.
  destruct (fewshot_context task doc nf (rng st)) as [[ctx info] rng'].
  cbn [fst snd].
  apply (mux_fold key doc d (mkLoggingInfo info (doc_field_doc_id doc))
           (construct_requests task doc ctx nf) 0
           (mkBuildState rng' (od_set (docs st) (key, d) doc) (requests st)
              (requests_origin st) (versions st)) t).
Qed.

Lemma build_doc_extends nf key (task : TaskT) st id_doc t :
  dl_get (requests st) t `prefix_of`
    dl_get (requests (build_doc nf key task st id_doc)) t ∧
  dl_get (requests_origin st) t `prefix_of`
    dl_get (requests_origin (build_doc nf key task st id_doc)) t.
Proof.
  destruct id_doc as [d doc].
  destruct (build_doc_files nf key task st d doc t) as [-> ->].
  split; by eexists.
Qed.

Lemma build_task_extends shuffle nf limit st (kt : string * TaskT) t :
  dl_get (requests st) t `prefix_of`
    dl_get (requests (build_task shuffle nf limit st kt)) t ∧
  dl_get (requests_origin st) t `prefix_of`
    dl_get (requests_origin (build_task shuffle nf limit st kt)) t.
Proof.
  destruct kt as [key task]. unfold build_task.
  destruct (shuffle _ _) as [task_docs rng']. cbn [requests requests_origin].
  apply (foldl_invariant
           (λ s, dl_get (requests st) t `prefix_of` dl_get (requests s) t ∧
                 dl_get (requests_origin st) t `prefix_of`
                   dl_get (requests_origin s) t)); [|done].
  intros s x [Hr Ho]. destruct (build_doc_extends nf key task s x t) as [Hr' Ho'].
  split; by etrans.
Qed.

(** C3. The multiplexer gives each request the number of requests already
    assigned for its type as dispatch id and appends its origin record at
    the same position.  For the request list of a document this means: the
    requests of every type are appended to the requests of that type in
    their order, with the doc id of the document and dispatch ids counting
    on from the number of origin records the type already has, and their
    origin records, with their positions in the request list, are appended
    to the origin records of the type; what was filed before keeps its
    place through the rest of construction.  After construction the request
    at index [j] of a type has dispatch id [j] and its origin record is at
    index [j] of the origin list of that type; the two collections have
    equal lengths. *)
Theorem C3_multiplexer_index_aligned
    (env : @Collaborators Raw Args M World) (cfg : Config) (seed : World)
    (tasks : list TaskT) :
  (∀ key doc d info st i req,
     let t := request_type req in
     let st' := mux_request key doc d info st (i, req) in
     dl_get (requests st') t =
       dl_get (requests st) t ++
       [mkRequest t (args req) (index req) d
          (Z.of_nat (length (dl_get (requests_origin st) t)))] ∧
     dl_get (requests_origin st') t =
       dl_get (requests_origin st) t ++ [mkOrigin i key doc d info (index req)] ∧
     (∀ t', t ≠ t' →
        dl_get (requests st') t' = dl_get (requests st) t' ∧
        dl_get (requests_origin st') t' = dl_get (requests_origin st) t')) ∧
  (∀ nf key (task : TaskT) st d doc t,
     let ctx_info := (fewshot_context task doc nf (rng st)).1 in
     let reqs := construct_requests task doc ctx_info.1 nf in
     let info := mkLoggingInfo ctx_info.2 (doc_field_doc_id doc) in
     let st' := build_doc nf key task st (d, doc) in
     dl_get (requests st') t =
       dl_get (requests st) t ++
       filed_requests t (length (dl_get (requests_origin st) t)) d reqs ∧
     dl_get (requests_origin st') t =
       dl_get (requests_origin st) t ++ filed_origins t key doc d info reqs) ∧
  (∀ shuffle nf limit st (kt : string * TaskT) t,
     dl_get (requests st) t `prefix_of`
       dl_get (requests (build_task shuffle nf limit st kt)) t ∧
     dl_get (requests_origin st) t `prefix_of`
       dl_get (requests_origin (build_task shuffle nf limit st kt)) t) ∧
  aligned (requests (built env cfg seed tasks))
          (requests_origin (built env cfg seed tasks)).
Proof.
  split_and!.
  - intros key doc d info st i req t st'. subst st'.
    rewrite mux_request_requests, mux_request_origin. fold t.
    rewrite !dl_get_append_eq. split_and!; [done..|].
    intros t' Hne. by rewrite !dl_get_append_ne.
  - apply build_doc_files.
  - apply build_task_extends.
  - apply build_aligned.
Qed.

End multiplexer.

(** ** Deduplication and ordering of a bucket *)

Section bucket.
Context {Info V : Type}.
Abbreviation QEntryT := (@QEntry Info V).
Implicit Types (e : QEntryT) (l : list QEntryT) (seen : gset Z).

Lemma dedup_fold seen acc l :
  (foldl dedup_step (seen, acc) l).2 = acc ++ dedup_from seen l.
Proof.
  revert seen acc. induction l as [|e l IH]; intros seen acc; simpl.
  - by rewrite app_nil_r.
  - case_bool_decide; [apply IH|]. rewrite IH. by rewrite <- app_assoc.
Qed.

Lemma dedup_eq l : dedup l = dedup_from ∅ l.
Proof. unfold dedup. by rewrite dedup_fold. Qed.


Lemma dedup_from_elem seen l e :
  e ∈ dedup_from seen l → e ∈ l ∧ q_unique_request_id e ∉ seen.
Proof.
  revert seen. induction l as [|x l IH]; intros seen; simpl.
  - intros H. by apply elem_of_nil in H.
  - case_bool_decide as Hin.
    + intros H. destruct (IH _ H). split; [by right | done].
    + intros H. apply elem_of_cons in H as [->|H].
      * split; [left | done].
      * destruct (IH _ H) as [? Hn]. split; [by right | set_solver].
Qed.

Lemma dedup_from_NoDup seen l :
  NoDup (q_unique_request_id <$> dedup_from seen l).
Proof.
  revert seen. induction l as [|x l IH]; intros seen; simpl.
  - constructor.
  - case_bool_decide as Hin; [apply IH|]. csimpl. constructor; [|apply IH].
    intros Hx. apply list_elem_of_fmap in Hx as (e & Heq & He).
    apply dedup_from_elem in He as [_ Hn]. set_solver.
Qed.

Lemma dedup_from_covers seen l e :
  e ∈ l → q_unique_request_id e ∉ seen →
  ∃ e', e' ∈ dedup_from seen l ∧ q_unique_request_id e' = q_unique_request_id e.
Proof.
  revert seen. induction l as [|x l IH]; intros seen He Hn.
  - by apply elem_of_nil in He.
  - simpl. apply elem_of_cons in He as [->|He].
    + rewrite bool_decide_eq_false_2 by done. exists x. split; [left | done].
    + case_bool_decide as Hin.
      * destruct (IH seen He Hn) as (e' & ? & ?). by exists e'.
      * destruct (decide (q_unique_request_id e = q_unique_request_id x)) as [Heq|Hne].
        -- exists x. split; [left | done].
        -- destruct (IH ({[q_unique_request_id x]} ∪ seen) He) as (e' & ? & ?);
             [set_solver|]. exists e'. split; [by right | done].
Qed.


Lemma dedup_from_id seen l :
  NoDup (q_unique_request_id <$> l) →
  (∀ e, e ∈ l → q_unique_request_id e ∉ seen) →
  dedup_from seen l = l.
Proof.
  revert seen. induction l as [|x l IH]; intros seen Hnd Hs; csimpl in *; [done|].
  apply NoDup_cons in Hnd as [Hx Hnd].
  rewrite bool_decide_eq_false_2 by (apply Hs; left).
  f_equal. apply IH; [done|]. intros e He.
  assert (q_unique_request_id e ∉ seen) by (apply Hs; by right).
  assert (q_unique_request_id e ≠ q_unique_request_id x).
  { intros Heq. apply Hx. rewrite <- Heq. by apply list_elem_of_fmap_2. }
  set_solver.
Qed.

Lemma dedup_id l : NoDup (q_unique_request_id <$> l) → dedup l = l.
Proof. intros Hnd. rewrite dedup_eq. apply dedup_from_id; [done | set_solver]. Qed.







(** *** Line 365 *)

Lemma insert_by_i_perm e l : insert_by_i e l ≡ₚ e :: l.
Proof.
  induction l as [|y l IH]; simpl; [done|].
  case_bool_decide; [done|]. rewrite IH. apply Permutation_swap.
Qed.

Lemma sort_by_i_perm l : sort_by_i l ≡ₚ l.
Proof.
  induction l as [|e l IH]; simpl; [done|]. by rewrite insert_by_i_perm, IH.
Qed.

Lemma insert_by_i_sorted e l :
  StronglySorted le_i l → StronglySorted le_i (insert_by_i e l).
Proof.
  induction l as [|y l IH]; simpl; intros Hs.
  - repeat constructor.
  - apply StronglySorted_inv in Hs as [Hs Hy].
    case_bool_decide as Hle.
    + constructor; [by constructor|]. constructor; [done|].
      eapply Forall_impl; [exact Hy|]. unfold le_i. intros z Hz. lia.
    + constructor; [by apply IH|].
      rewrite insert_by_i_perm. constructor; [unfold le_i; lia | done].
Qed.

Lemma sort_by_i_sorted l : StronglySorted le_i (sort_by_i l).
Proof.
  induction l as [|e l IH]; simpl; [constructor | by apply insert_by_i_sorted].
Qed.

(** Sorting does not depend on the arrival order when the sub-indexes are
    pairwise different. *)
Lemma sort_by_i_unique l l' :
  l ≡ₚ l' → NoDup (q_i <$> l) → sort_by_i l = sort_by_i l'.
Proof.
  intros Hp Hnd. apply (StronglySorted_unique_strong le_i).
  - intros x1 x2 H1 H2 Hle1 Hle2. unfold le_i in *.
    rewrite sort_by_i_perm in H1. rewrite sort_by_i_perm, <- Hp in H2.
    assert (q_i x1 = q_i x2) as Heq by lia.
    apply list_elem_of_lookup in H1 as [j1 H1], H2 as [j2 H2].
    assert (j1 = j2) as ->.
    { eapply NoDup_lookup; [exact Hnd| |]; rewrite list_lookup_fmap.
      - by rewrite H1.
      - by rewrite H2, Heq. }
    congruence.
  - apply sort_by_i_sorted.
  - apply sort_by_i_sorted.
  - by rewrite !sort_by_i_perm.
Qed.

Lemma fewshot_logging_info_head l :
  fewshot_logging_info l =
  match bucket_entries l with
  | e :: _ => Ok (q_fewshotex_logging_info e)
  | [] => Raise IndexError
  end.
Proof.
  unfold fewshot_logging_info. destruct (bucket_entries l) as [|e es]; [done|].
  unfold py_index. rewrite bool_decide_eq_true_2; [done|].
  rewrite length_fmap. simpl. lia.
Qed.

Lemma bucket_consistent_perm l l' :
  l ≡ₚ l' → bucket_consistent l → bucket_consistent l'.
Proof.
  intros Hp Hc e1 e2 H1 H2. rewrite <- Hp in H1, H2. by apply Hc.
Qed.

Lemma dedup_elem_consistent l e :
  bucket_consistent l → e ∈ dedup l ↔ e ∈ l.
Proof.
  intros Hc. rewrite dedup_eq. split.
  - intros H. by apply dedup_from_elem in H as [? _].
  - intros He. destruct (dedup_from_covers ∅ l e He) as (e' & He' & Heq); [set_solver|].
    assert (e' = e) as <-; [|done].
    apply Hc; [|done|by left]. by apply dedup_from_elem in He' as [? _].
Qed.

Lemma dedup_NoDup l : NoDup (dedup l).
Proof.
  rewrite dedup_eq. eapply NoDup_fmap_1. apply dedup_from_NoDup.
Qed.

Lemma bucket_entries_perm_invariant l l' :
  bucket_consistent l → l ≡ₚ l' → bucket_entries l' = bucket_entries l.
Proof.
  intros Hc Hp. unfold bucket_entries. symmetry. apply sort_by_i_unique.
  - apply NoDup_Permutation; [apply dedup_NoDup..|]. intros e.
    rewrite !dedup_elem_consistent; [by rewrite Hp|by eapply bucket_consistent_perm|done].
  - apply NoDup_fmap_2_strong; [|apply dedup_NoDup].
    intros e1 e2 H1 H2 Heq.
    apply (dedup_elem_consistent _ _ Hc) in H1.
    apply (dedup_elem_consistent _ _ Hc) in H2.
    apply Hc; [done..|by right].
Qed.

(** C5. The entries of a bucket that reach scoring are the deduplicated
    entries sorted by sub-index ascending; the Result Bundle lists their
    responses in that order and the context metadata is that of the first
    sorted entry.  The result is the same for every arrival order of a
    consistent bucket, and sub-indexes arriving as 2, 0, 1 give the bundle
    in the order 0, 1, 2. *)
Theorem C5_bucket_sorted_by_sub_index l :
  StronglySorted le_i (bucket_entries l) ∧
  bucket_entries l ≡ₚ dedup l ∧
  per_doc_results l = q_response <$> bucket_entries l ∧
  fewshot_logging_info l =
    match bucket_entries l with
    | e :: _ => Ok (q_fewshotex_logging_info e)
    | [] => Raise IndexError
    end ∧
  (∀ l', bucket_consistent l → l ≡ₚ l' →
     bucket_entries l' = bucket_entries l ∧
     per_doc_results l' = per_doc_results l ∧
     fewshot_logging_info l' = fewshot_logging_info l) ∧
  (∀ r0 r1 r2 m0 m1 m2 u0 u1 u2,
     NoDup [u0; u1; u2] →
     l = [mkQEntry 2 r2 m2 u2; mkQEntry 0 r0 m0 u0; mkQEntry 1 r1 m1 u1] →
     per_doc_results l = [r0; r1; r2] ∧ fewshot_logging_info l = Ok m0).
Proof.
  split_and!.
  - apply sort_by_i_sorted.
  - apply sort_by_i_perm.
  - done.
  - apply fewshot_logging_info_head.
  - intros l' Hc Hp.
    pose proof (bucket_entries_perm_invariant l l' Hc Hp) as Heq.
    unfold per_doc_results, fewshot_logging_info. by rewrite Heq.
  - intros r0 r1 r2 m0 m1 m2 u0 u1 u2 Hnd ->.
    assert (dedup [mkQEntry 2 r2 m2 u2; mkQEntry 0 r0 m0 u0; mkQEntry 1 r1 m1 u1]
            = [mkQEntry 2 r2 m2 u2; mkQEntry 0 r0 m0 u0; mkQEntry 1 r1 m1 u1]) as Hd.
    { apply dedup_id. csimpl. revert Hnd.
      rewrite !NoDup_cons, !not_elem_of_cons, !elem_of_nil. naive_solver. }
    rewrite fewshot_logging_info_head. unfold per_doc_results, bucket_entries.
    by rewrite Hd.
Qed.

(** *** Duplicates fed to the queue *)







End bucket.

(** ** Response reconciliation *)

Section reconciler.
Context {Raw Info Args V World : Type}.
Abbreviation OriginT := (@Origin Raw Info).
Abbreviation QueueT := (list ((string * Z) * list (@QEntry Info V))).
Implicit Types (origins : list OriginT) (q : QueueT) (o : OriginT).

Lemma reconcile_entry_assert origins u d (resp : list V) :
  reconcile_entry origins (u, d, resp) = Raise AssertionError ↔
  ∃ o, py_index origins u = Ok o ∧ d ≠ o_doc_id o.
Proof.
  unfold reconcile_entry. destruct (py_index origins u) as [o|e] eqn:Ho; simpl.
  - case_bool_decide as Hd.
    + split.
      * destruct (o_request_return_index o) as [idx|]; simpl; [|done].
        destruct (py_index resp idx) as [v|e] eqn:Hv; simpl; [done|].
        apply py_index_raise in Hv as ->. done.
      * intros (o' & [= <-] & Hne). done.
    + split; [by exists o | done].
  - split.
    + intros [= ->]. by apply py_index_raise in Ho.
    + by intros (o & ? & _).
Qed.

Lemma reconcile_one_assert origins q t :
  reconcile_one origins q t = Raise AssertionError ↔
  reconcile_entry origins t = Raise AssertionError.
Proof.
  unfold reconcile_one. destruct (reconcile_entry origins t); simpl; naive_solver.
Qed.


End reconciler.

(** ** Batch execution *)

Section executor.
Context {Raw Info Args V World Batch Net : Type}.
Abbreviation RequestT := (@Request Args).
Abbreviation LMT := (@LM Args V Batch Net).
Abbreviation AcceleratorT := (@Accelerator Args Net).
Implicit Types (api : @RequestApi Args) (collator : list Tok → result Batch).
Implicit Types (acc : AcceleratorT) (model : LMT) (shards : list (list RequestT)).
Implicit Types (origins : list (@Origin Raw Info)).
Implicit Types (q : list ((string * Z) * list (@QEntry Info V))).
Implicit Types (items : list RequestT) (b : @Collated Batch).

Lemma enumerate_from_elem {A} n (xs : list A) j x :
  (j, x) ∈ enumerate_from n xs → x ∈ xs.
Proof.
  intros H. rewrite <- (enumerate_from_snd n xs).
  apply list_elem_of_fmap. by exists (j, x).
Qed.

Lemma gather_fmap {A B} (f : A → B) (ls : list (list A)) :
  gather ((λ l : list A, f <$> l) <$> ls) = f <$> gather ls.
Proof.
  unfold gather. induction ls as [|l ls IH]; csimpl; [done|].
  by rewrite IH, fmap_app.
Qed.

Lemma zip3_elem_fmap {A B C D} (f : A → B) (g : A → C) (l : list A)
    (rs : list D) u d x :
  (u, d, x) ∈ zip3 (f <$> l) (g <$> l) rs → ∃ r, r ∈ l ∧ u = f r ∧ d = g r.
Proof.
  revert rs. induction l as [|r l IH]; intros rs; csimpl.
  - intros H. by apply elem_of_nil in H.
  - destruct rs as [|z rs]; [intros H; by apply elem_of_nil in H|].
    intros H. apply elem_of_cons in H as [[= -> -> ->]|H].
    + exists r. split_and!; [left|done..].
    + destruct (IH _ H) as (r' & ? & ? & ?). exists r'. split_and!; [by right|done..].
Qed.

(** *** Presenting a batch *)

Lemma getitem_inv api model item (s : Sample) :
  RequestDataset_getitem api model item = Ok s →
  ∃ r0 r', request_iter api item = Ok [r0; r'] ∧
           s_unique_request_id s = unique_request_id r' ∧
           s_doc_id s = doc_id r' ∧
           index r' = Some (s_index s).
Proof.
  unfold RequestDataset_getitem. intros H.
  apply rbind_Ok in H as (parts & Hparts & H).
  apply rbind_Ok in H as (r' & Hr' & H).
  destruct parts as [|r0 [|r1 [|? ?]]]; try done. injection Hr' as ->.
  apply rbind_Ok in H as ([c t] & _ & H). cbv beta iota zeta in H.
  apply rbind_Ok in H as (dt & _ & H).
  apply rbind_Ok in H as (ct & _ & H).
  apply rbind_Ok in H as (tt & _ & H).
  apply rbind_Ok in H as (i & Hi & H).
  injection H as <-. exists r0, r'. cbn. split_and!; try done.
  destruct (index r'); [by injection Hi as -> | done].
Qed.


Lemma getitem_no_assert api model item :
  (∀ r, request_iter api r ≠ Raise AssertionError) →
  (∀ a, tok_encode model a ≠ Raise AssertionError) →
  RequestDataset_getitem api model item ≠ Raise AssertionError.
Proof.
  intros Hit Htok. unfold RequestDataset_getitem. intros H.
  apply rbind_raise in H as [H|(parts & _ & H)]; [by eapply Hit|].
  apply rbind_raise in H as [H|(r' & _ & H)].
  { by destruct parts as [|? [|? [|? ?]]]. }
  apply rbind_raise in H as [H|([c t] & _ & H)].
  { by destruct (args r') as [|? [|? [|? ?]]]. }
  cbv beta iota zeta in H.
  apply rbind_raise in H as [H|(dt & _ & H)]; [by eapply Htok|].
  apply rbind_raise in H as [H|(ct & _ & H)]; [by eapply Htok|].
  apply rbind_raise in H as [H|(tt & _ & H)]; [by eapply Htok|].
  apply rbind_raise in H as [H|(i & _ & H)]; [|done].
  by destruct (index r').
Qed.

Lemma collate_inv collator (samples : list Sample) b :
  DataCollator_call collator samples = Ok b →
  samples ≠ [] ∧
  unique_request_id_batch b = s_unique_request_id <$> samples ∧
  doc_id_batch b = s_doc_id <$> samples.
Proof.
  unfold DataCollator_call. destruct samples as [|s0 samples]; [done|].
  intros H.
  apply rbind_Ok in H as (cb & _ & H).
  apply rbind_Ok in H as (tb & _ & H).
  apply rbind_Ok in H as (db & _ & H).
  by injection H as <-.
Qed.




Lemma fetch_inv api model collator items b :
  fetch api model collator items = Ok b →
  items ≠ [] ∧
  ∃ samples,
    Forall2 (λ item s, RequestDataset_getitem api model item = Ok s) items samples ∧
    unique_request_id_batch b = s_unique_request_id <$> samples ∧
    doc_id_batch b = s_doc_id <$> samples.
Proof.
  unfold fetch. intros H. apply rbind_Ok in H as (samples & Hs & H).
  apply rfold_collect_inv in Hs as (zs & -> & HF). rewrite app_nil_l in H.
  apply collate_inv in H as (Hne & Hu & Hd). split.
  - intros ->. by inv HF.
  - by exists zs.
Qed.

Lemma fetch_ids api model collator items b :
  iter_keeps_ids api →
  fetch api model collator items = Ok b →
  unique_request_id_batch b = unique_request_id <$> items ∧
  doc_id_batch b = doc_id <$> items.
Proof.
  intros Hk H. apply fetch_inv in H as (_ & samples & HF & -> & ->).
  induction HF as [|item s items samples Hs _ IH]; [done|].
  destruct IH as [IHu IHd]. csimpl. rewrite IHu, IHd.
  apply getitem_inv in Hs as (r0 & r' & Hit & -> & -> & _).
  by destruct (Hk _ _ _ Hit) as [-> ->].
Qed.


Lemma fetch_no_assert api model collator items :
  (∀ r, request_iter api r ≠ Raise AssertionError) →
  (∀ a, tok_encode model a ≠ Raise AssertionError) →
  (∀ toks, collator toks ≠ Raise AssertionError) →
  fetch api model collator items ≠ Raise AssertionError.
Proof.
  intros Hit Htok Hc. unfold fetch. intros H.
  apply rbind_raise in H as [H|(samples & _ & H)].
  - revert H. apply rfold_not_raise. intros ss item _ H.
    apply rbind_raise in H as [H|(? & _ & H)]; [|done].
    by eapply getitem_no_assert.
  - unfold DataCollator_call in H. destruct samples as [|s0 samples]; [done|].
    apply rbind_raise in H as [H|(? & _ & H)]; [by eapply Hc|].
    apply rbind_raise in H as [H|(? & _ & H)]; [by eapply Hc|].
    apply rbind_raise in H as [H|(? & _ & H)]; [by eapply Hc|]. done.
Qed.

Lemma answer_inv api model collator capability items (br : @Collated Batch * list (list V)) :
  answer api model collator capability items = Ok br →
  fetch api model collator items = Ok br.1 ∧
  capability (context_batch br.1) (target_batch br.1) (decoder_tokens_batch br.1)
  = Ok br.2.
Proof.
  unfold answer. intros H.
  apply rbind_Ok in H as (b & Hb & H).
  apply rbind_Ok in H as (r & Hr & H). by injection H as <-.
Qed.

Lemma answers_ids api model collator capability shards
    (all : list (@Collated Batch * list (list V))) :
  iter_keeps_ids api →
  Forall2 (λ shard br, answer api model collator capability shard = Ok br) shards all →
  gather (unique_request_id_batch <$> all.*1) = unique_request_id <$> gather shards ∧
  gather (doc_id_batch <$> all.*1) = doc_id <$> gather shards.
Proof.
  intros Hk HF. unfold gather.
  induction HF as [|shard br shards all Hbr _ [IHu IHd]]; [done|].
  apply answer_inv in Hbr as [Hf _].
  destruct (fetch_ids _ _ _ _ _ Hk Hf) as [Hu Hd].
  csimpl. by rewrite !fmap_app, Hu, Hd, IHu, IHd.
Qed.

(** *** The triples of a step *)

Lemma gather_step_streams n_steps N step seen (batches : list (@Collated Batch))
    (all_responses : list (list (list V))) ids dids resps seen' :
  gather_step n_steps N step seen batches all_responses = Ok (ids, dids, resps, seen') →
  ids = gather (unique_request_id_batch <$> batches) ∧
  dids = gather (doc_id_batch <$> batches).
Proof.
  unfold gather_step.
  destruct (rfold _ [] all_responses) as [col0|]; simpl; [|done].
  destruct (rfold _ [] all_responses) as [col1|]; simpl; [|done].
  case_bool_decide; by intros [= <- <- _ _].
Qed.

Lemma gather_step_no_assert n_steps N step seen (batches : list (@Collated Batch))
    (all_responses : list (list (list V))) :
  gather_step n_steps N step seen batches all_responses ≠ Raise AssertionError.
Proof.
  unfold gather_step.
  assert (∀ k, rfold (λ (acc : list (list V)) (r : list (list V)),
                  do c <- py_index r k; Ok (acc ++ [c])) [] all_responses
               ≠ Raise AssertionError) as Hcol.
  { intros k. apply rfold_not_raise. intros s x _.
    destruct (py_index x k) eqn:Hx; simpl; [done|].
    apply py_index_raise in Hx as ->. done. }
  cbv zeta. intros H.
  apply rbind_raise in H as [H|(col0 & _ & H)]; [by eapply Hcol|].
  apply rbind_raise in H as [H|(col1 & _ & H)]; [by eapply Hcol|].
  by case_bool_decide.
Qed.

Lemma step_triples_sound api acc model t collator n_steps N seen step shards ts seen' :
  iter_keeps_ids api →
  step_triples api acc model t collator n_steps N seen (step, shards) = Ok (ts, seen') →
  ∀ u d (x : list V), (u, d, x) ∈ ts →
    ∃ shard r, shard ∈ shards ∧ r ∈ shard ∧
               u = unique_request_id r ∧ d = doc_id r.
Proof.
  intros Hk. unfold step_triples. intros H.
  apply rbind_Ok in H as (request_batch & Hf & H).
  apply rbind_Ok in H as (capability & _ & H).
  apply rbind_Ok in H as (responses & _ & H).
  apply rbind_Ok in H as ([[[ids dids] resps] seen1] & Hg & H).
  injection H as <- <-. intros u d x Hx.
  destruct (use_distributed acc).
  - apply rbind_Ok in Hg as (all & Hall & Hg).
    apply rfold_collect_inv in Hall as (zs & -> & HF). rewrite app_nil_l in Hg.
    apply gather_step_streams in Hg as [-> ->].
    destruct (answers_ids _ _ _ _ _ _ Hk HF) as [Hu Hd]. rewrite Hu, Hd in Hx.
    apply zip3_elem_fmap in Hx as (r & Hr & -> & ->).
    unfold gather in Hr. apply list_elem_of_join in Hr as (shard & ? & ?).
    by exists shard, r.
  - injection Hg as <- <- <- <-.
    destruct (fetch_ids _ _ _ _ _ Hk Hf) as [Hu Hd]. rewrite Hu, Hd in Hx.
    apply zip3_elem_fmap in Hx as (r & Hr & -> & ->).
    exists (nth (process_index acc) shards []), r. split_and!; [|done..].
    destruct (nth_in_or_default (process_index acc) shards []) as [Hin|Hnil].
    + by apply list_elem_of_In.
    + rewrite Hnil in Hr. by apply elem_of_nil in Hr.
Qed.

Lemma step_triples_no_assert api acc model t collator n_steps N seen sb :
  (∀ r, request_iter api r ≠ Raise AssertionError) →
  (∀ a, tok_encode model a ≠ Raise AssertionError) →
  (∀ toks, collator toks ≠ Raise AssertionError) →
  (∀ capability context target decoder,
     getattr model t = Some capability →
     capability context target decoder ≠ Raise AssertionError) →
  step_triples api acc model t collator n_steps N seen sb ≠ Raise AssertionError.
Proof.
  intros Hit Htok Hc Hm. destruct sb as [step shards]. unfold step_triples.
  intros H.
  apply rbind_raise in H as [H|(request_batch & _ & H)];
    [by eapply fetch_no_assert|].
  destruct (getattr model t) as [capability|] eqn:Hcap; simpl in H; [|done].
  apply rbind_raise in H as [H|(responses & _ & H)]; [by eapply Hm|].
  apply rbind_raise in H as [H|([[[ids dids] resps] seen1] & _ & H)]; [|done].
  destruct (use_distributed acc); [|done].
  apply rbind_raise in H as [H|(all & _ & H)].
  - revert H. apply rfold_not_raise. intros s shard _ H.
    apply rbind_raise in H as [H|(? & _ & H)]; [|done].
    unfold answer in H.
    apply rbind_raise in H as [H|(? & _ & H)]; [by eapply fetch_no_assert|].
    apply rbind_raise in H as [H|(? & _ & H)]; [by eapply Hm|]. done.
  - by eapply gather_step_no_assert.
Qed.

(** *** Propagation of an exception *)

Lemma exec_step_raise api acc model t collator origins n_steps N
    (st : list ((string * Z) * list (@QEntry Info V)) * Z) sb ts e :
  step_triples api acc model t collator n_steps N st.2 sb = Ok ts →
  rfold (reconcile_one origins) st.1 ts.1 = Raise e →
  exec_step api acc model t collator origins n_steps N st sb = Raise e.
Proof. intros Hts Hr. unfold exec_step. rewrite Hts. cbn [rbind]. by rewrite Hr. Qed.

Lemma exec_type_raise api acc model (O : list (string * list (@Origin Raw Info)))
    q t (loader : @Loader Args Batch) s1 sb s2 st1 e :
  enumerate (loader_steps loader) = s1 ++ sb :: s2 →
  rfold (exec_step api acc model t (loader_collator loader) (dl_get O t)
           (length (loader_steps loader)) (length (loader_dataset loader)))
    (q, 0) s1 = Ok st1 →
  exec_step api acc model t (loader_collator loader) (dl_get O t)
    (length (loader_steps loader)) (length (loader_dataset loader)) st1 sb = Raise e →
  exec_type api acc model O q (t, loader) = Raise e.
Proof.
  intros Hsteps H1 Hsb. unfold exec_type. rewrite Hsteps.
  by rewrite (rfold_raise _ e _ _ _ _ _ H1 Hsb).
Qed.

Lemma execute_loaders_raise api acc model (O : list (string * list (@Origin Raw Info)))
    (l1 : list (string * @Loader Args Batch)) tl l2 q e :
  execute_loaders api acc model O l1 = Ok q →
  exec_type api acc model O q tl = Raise e →
  execute_loaders api acc model O (l1 ++ tl :: l2) = Raise e.
Proof. intros H1 H2. unfold execute_loaders in *. by apply (rfold_raise _ e _ q). Qed.

(** *** The loaders of a state *)

Lemma execute_unfold api acc model collator (B : nat)
    (st : @BuildState Raw Info Args World) :
  execute api acc model collator B st =
  rfold (λ q (tr : string * list RequestT),
           exec_type api acc model (requests_origin st) q
             (tr.1, mkLoader tr.2 collator
                      (prepare_data_loader acc (DataLoader B tr.2))))
    [] (requests st).
Proof.
  unfold execute, execute_loaders, loaders_of, prepare_loaders.
  by rewrite <- list_fmap_compose, rfold_fmap.
Qed.

End executor.

(** ** The doc-id assertion *)

Section assertion.
Context {Raw Ctx Info Args V M J World Batch Net : Type}.
Abbreviation TaskT := (@Task Raw Ctx Info Args V M J World).
Abbreviation BuildStateT := (@BuildState Raw Info Args World).
Implicit Types (st : BuildStateT) (acc : @Accelerator Args Net).
Implicit Types (model : @LM Args V Batch Net) (api : @RequestApi Args).
Implicit Types (collator : list Tok → result Batch).

Lemma aligned_lookup st t reqs r :
  aligned (requests st) (requests_origin st) →
  (t, reqs) ∈ requests st → r ∈ reqs →
  ∃ o, py_index (dl_get (requests_origin st) t) (unique_request_id r) = Ok o ∧
       o_doc_id o = doc_id r ∧ o_request_return_index o = index r.
Proof.
  intros (Hkeys & Hnd & Hall) Ht Hr.
  assert (dl_get (requests st) t = reqs) as Hget.
  { unfold dl_get. by rewrite (od_elem_get _ _ _ Hnd Ht). }
  apply list_elem_of_lookup in Hr as [j Hj]. rewrite <- Hget in Hj.
  destruct (Hall t) as [_ Hpos].
  destruct (Hpos j r Hj) as (_ & Hu & o & Ho & Hd & Hi).
  exists o. split_and!; [|done..]. rewrite Hu. by apply py_index_nat.
Qed.

Lemma step_triples_match api acc model collator st t reqs n_steps N seen step
    shards ts seen' :
  aligned (requests st) (requests_origin st) →
  iter_keeps_ids api →
  (t, reqs) ∈ requests st →
  (∀ shard r, shard ∈ shards → r ∈ shard → r ∈ reqs) →
  step_triples api acc model t collator n_steps N seen (step, shards) = Ok (ts, seen') →
  ∀ u d (resp : list V), (u, d, resp) ∈ ts →
    ∃ o, py_index (dl_get (requests_origin st) t) u = Ok o ∧ d = o_doc_id o.
Proof.
  intros Hal Hk Ht Hsound Hts u d resp Hx.
  destruct (step_triples_sound _ _ _ _ _ _ _ _ _ _ _ _ Hk Hts u d resp Hx)
    as (shard & r & Hs & Hr & -> & ->).
  destruct (aligned_lookup st t reqs r Hal Ht (Hsound _ _ Hs Hr))
    as (o & Ho & Hd & _).
  by exists o.
Qed.

Lemma exec_step_no_assert api acc model collator st t reqs n_steps N
    (s : list ((string * Z) * list (@QEntry Info V)) * Z) step shards :
  aligned (requests st) (requests_origin st) →
  iter_keeps_ids api →
  backend_no_assert api model collator st →
  (t, reqs) ∈ requests st →
  (∀ shard r, shard ∈ shards → r ∈ shard → r ∈ reqs) →
  exec_step api acc model t collator (dl_get (requests_origin st) t) n_steps N s
    (step, shards)
  ≠ Raise AssertionError.
Proof.
  intros Hal Hk (Hit & Htok & Hc & Hm) Ht Hsound. unfold exec_step.
  destruct (step_triples _ _ _ _ _ _ _ _ _) as [[ts seen']|e] eqn:Hts; simpl.
  - intros H. apply rbind_raise in H as [H|(? & _ & H)]; [|done].
    revert H. apply rfold_not_raise. intros q [[u d] resp] Hx.
    rewrite reconcile_one_assert, reconcile_entry_assert.
    intros (o & Ho & Hne).
    destruct (step_triples_match _ _ _ _ _ _ _ _ _ _ _ _ _ _ Hal Hk Ht Hsound Hts
                u d resp Hx) as (o' & Ho' & Hd).
    congruence.
  - intros [= ->]. revert Hts. apply step_triples_no_assert; [done..|].
    intros capability context target decoder. by apply (Hm t reqs).
Qed.

Lemma execute_no_assert api acc model collator (B : nat) st :
  aligned (requests st) (requests_origin st) →
  iter_keeps_ids api →
  (∀ t reqs, (t, reqs) ∈ requests st → loader_sound acc B reqs) →
  backend_no_assert api model collator st →
  execute api acc model collator B st ≠ Raise AssertionError.
Proof.
  intros Hal Hk Hsound Hm. rewrite execute_unfold.
  apply rfold_not_raise. intros q [t reqs] Ht. unfold exec_type. cbn [fst snd].
  cbn [loader_collator loader_steps loader_dataset].
  intros H. apply rbind_raise in H as [H|(? & _ & H)]; [|done].
  revert H. apply rfold_not_raise. intros s [step shards] Hstep.
  eapply exec_step_no_assert; [done..|].
  intros shard r Hs Hr. eapply (Hsound t reqs Ht); [|done..].
  by eapply enumerate_from_elem.
Qed.

(** C6. The reconciler raises its assertion exactly when the origin record
    found at the dispatch id carries another doc id than the one that came
    with the batch.  A mismatch aborts the run: when execution reaches a
    triple whose doc id differs from that of the origin record at its
    dispatch id, [evaluate] raises AssertionError.  When every request
    carries the doc id of its origin record (the collections are aligned),
    iterating over a request keeps its ids and the loader presents requests
    of its dataset only, every triple a step hands over matches its origin
    record, so the assertion cannot fail, and execution raises
    AssertionError only if a collaborator does. *)
Theorem C6_doc_id_assertion :
  (∀ (origins : list (@Origin Raw Info))
     (q : list ((string * Z) * list (@QEntry Info V))) u d resp,
     reconcile_one origins q (u, d, resp) = Raise AssertionError ↔
     ∃ o, py_index origins u = Ok o ∧ d ≠ o_doc_id o) ∧
  (∀ (env : @Collaborators Raw Args M World) acc model (tasks : list TaskT) cfg seed
     datasets loaders net prepared l1 t loader l2 q s1 step shards s2 mid ts
     pre u d resp post q1 o,
     let st := built env cfg seed tasks in
     let origins := dl_get (requests_origin st) t in
     let n_steps := length (loader_steps loader) in
     let dataset_len := length (loader_dataset loader) in
     requests_datasets st = Ok datasets →
     requests_data_loaders model datasets = Ok loaders →
     inner_model model = Some net →
     prepare_model acc net = Ok prepared →
     prepare_loaders acc (batch_size cfg) loaders = l1 ++ (t, loader) :: l2 →
     execute_loaders (request_api env) acc model (requests_origin st) l1 = Ok q →
     enumerate (loader_steps loader) = s1 ++ (step, shards) :: s2 →
     rfold (exec_step (request_api env) acc model t (loader_collator loader) origins
              n_steps dataset_len) (q, 0) s1 = Ok mid →
     step_triples (request_api env) acc model t (loader_collator loader)
       n_steps dataset_len mid.2 (step, shards) = Ok ts →
     ts.1 = pre ++ (u, d, resp) :: post →
     rfold (reconcile_one origins) mid.1 pre = Ok q1 →
     py_index origins u = Ok o →
     d ≠ o_doc_id o →
     evaluate env acc model tasks cfg seed = Raise AssertionError) ∧
  (∀ api acc model collator st t reqs n_steps N seen step shards ts seen',
     aligned (requests st) (requests_origin st) →
     iter_keeps_ids api →
     (t, reqs) ∈ requests st →
     (∀ shard r, shard ∈ shards → r ∈ shard → r ∈ reqs) →
     step_triples api acc model t collator n_steps N seen (step, shards)
     = Ok (ts, seen') →
     ∀ (q : list ((string * Z) * list (@QEntry Info V))) u d resp,
       (u, d, resp) ∈ ts →
       (∃ o, py_index (dl_get (requests_origin st) t) u = Ok o ∧ d = o_doc_id o) ∧
       reconcile_one (dl_get (requests_origin st) t) q (u, d, resp)
       ≠ Raise AssertionError) ∧
  (∀ api acc model collator (B : nat) st,
     aligned (requests st) (requests_origin st) →
     iter_keeps_ids api →
     (∀ t reqs, (t, reqs) ∈ requests st → loader_sound acc B reqs) →
     backend_no_assert api model collator st →
     execute api acc model collator B st ≠ Raise AssertionError).
Proof.
  split_and!.
  - intros origins q u d resp.
    by rewrite reconcile_one_assert, reconcile_entry_assert.
  - intros env acc model tasks cfg seed datasets loaders net prepared l1 t loader
      l2 q s1 step shards s2 mid ts pre u d resp post q1 o st origins n_steps
      dataset_len Hd Hl Hn Hp Hpl Hq Hsteps Hs1 Hts Hpre Hq1 Ho Hne.
    unfold evaluate. fold st. rewrite Hd. cbn [rbind]. rewrite Hl. cbn [rbind].
    rewrite Hn. cbn [rbind of_option]. rewrite Hp. cbn [rbind]. rewrite Hpl.
    rewrite (execute_loaders_raise _ _ _ _ l1 (t, loader) l2 q AssertionError Hq);
      [done|].
    apply (exec_type_raise _ _ _ _ _ _ _ s1 (step, shards) s2 mid); [done..|].
    apply (exec_step_raise _ _ _ _ _ _ _ _ _ _ ts); [done|].
    rewrite Hpre. apply (rfold_raise _ _ _ q1); [done|].
    apply reconcile_one_assert, reconcile_entry_assert. by exists o.
  - intros api acc model collator st t reqs n_steps N seen step shards ts seen'
      Hal Hk Ht Hsound Hts q u d resp Hx.
    destruct (step_triples_match _ _ _ _ _ _ _ _ _ _ _ _ _ _ Hal Hk Ht Hsound Hts
                u d resp Hx) as (o & Ho & Hd).
    split; [by exists o|].
    rewrite reconcile_one_assert, reconcile_entry_assert.
    intros (o' & Ho' & Hne). congruence.
  - apply execute_no_assert.
Qed.

End assertion.

(** ** Duplicated triples *)

Section duplicates.
Context {Raw Ctx Info Args V M J World : Type}.
Abbreviation TaskT := (@Task Raw Ctx Info Args V M J World).
Abbreviation QueueT := (list ((string * Z) * list (@QEntry Info V))).
Implicit Types (origins : list (@Origin Raw Info)) (q : QueueT).
Implicit Types (task_dict : list (string * TaskT)).






End duplicates.

(** ** Aggregation *)

Section aggregator.
Context {Raw Ctx Info Args V M J World : Type}.
Abbreviation TaskT := (@Task Raw Ctx Info Args V M J World).
Abbreviation CellT := (@Cell M J).
Abbreviation ReducerT := (@Reducer M World).
Abbreviation AggStateT := (@AggState M J World).
Implicit Types (task_dict : list (string * TaskT)) (st : AggStateT).
Implicit Types (results : list (string * list (string * CellT))).

Lemma append_length (s t : string) :
  String.length (s +:+ t) = (String.length s + String.length t)%nat.
Proof.
  induction s as [|c s IH]; [done|].
  change (String.length (String c (s +:+ t)) = S (String.length s + String.length t)).
  simpl. by rewrite IH.
Qed.

Lemma stderr_key_ne metric : stderr_key metric ≠ metric.
Proof.
  unfold stderr_key. intros H. apply (f_equal String.length) in H.
  rewrite append_length in H. simpl in H. lia.
Qed.

Lemma stderr_key_not_name metric :
  stderr_key metric ≠ "task_name" ∧ stderr_key metric ≠ "prompt_name".
Proof.
  unfold stderr_key. split; intros H;
    pose proof (f_equal String.length H) as Hl; rewrite append_length in Hl;
    simpl in Hl.
  - destruct metric as [|a [|b [|c m]]]; simpl in Hl; try lia.
    vm_compute in H. discriminate.
  - destruct metric as [|a [|b [|c [|d [|e m]]]]]; simpl in Hl; try lia.
    vm_compute in H. discriminate.
Qed.

Lemma table_cell_set_eq results key field c :
  table_cell (dd_set results key field c) key field = Some c.
Proof. unfold table_cell, dd_set. rewrite od_get_set_eq. simpl. apply od_get_set_eq. Qed.

Lemma table_cell_set_ne results key field field' c :
  field ≠ field' →
  table_cell (dd_set results key field c) key field' = table_cell results key field'.
Proof.
  intros Hne. unfold table_cell, dd_set. rewrite od_get_set_eq. simpl.
  by rewrite od_get_set_ne.
Qed.

Lemma od_get_logging (d : list (string * CellT)) (l : list (string * J)) k :
  k ∉ l.*1 →
  od_get (foldl (λ d kj, od_set d kj.1 (CLog kj.2)) d l) k = od_get d k.
Proof.
  revert d. induction l as [|[k' j] l IH]; intros d Hk; csimpl in *; [done|].
  apply not_elem_of_cons in Hk as [Hne Hk]. rewrite IH by done.
  by rewrite od_get_set_ne.
Qed.

(** The record of lines 400-405 before the standard error is added. *)
Lemma record_metric (name : string) (prompt : option string) metric (v : M)
    (l : list (string * J)) :
  metric ∉ l.*1 →
  od_get (foldl (λ d kj, od_set d kj.1 (CLog kj.2))
            (od_set (od_set (od_set [] "task_name" (CStr name))
                       "prompt_name" (name_cell prompt)) metric (CMetric v)) l)
    metric = Some (CMetric v).
Proof. intros H. rewrite od_get_logging by done. apply od_get_set_eq. Qed.

Lemma record_no_stderr (name : string) (prompt : option string) metric (v : M)
    (l : list (string * J)) :
  stderr_key metric ∉ l.*1 →
  od_get (foldl (λ d kj, od_set d kj.1 (CLog kj.2))
            (od_set (od_set (od_set [] "task_name" (CStr name))
                       "prompt_name" (name_cell prompt)) metric (CMetric v)) l)
    (stderr_key metric) = None.
Proof.
  intros H. rewrite od_get_logging by done.
  destruct (stderr_key_not_name metric) as [H1 H2].
  rewrite od_get_set_ne by (intros Heq; by apply (stderr_key_ne metric)).
  rewrite od_get_set_ne by done. by rewrite od_get_set_ne.
Qed.

#[local] Arguments od_set : simpl never.

(** What one pass of the aggregation loop does, call by call. *)
Lemma aggregate_one_inv split sfm task_dict iters st key metric items st' :
  aggregate_one split sfm task_dict iters st ((key, metric), items) = Ok st' →
  ∃ task reduce v1 w1 v2 w2 record,
    od_get task_dict key = Some task ∧
    od_get (aggregation task) metric = Some reduce ∧
    reduce items (ag_world st) = Ok (v1, w1) ∧
    reduce items w1 = Ok (v2, w2) ∧
    ag_metric_results st' = ag_metric_results st ++ [record] ∧
    table_cell (ag_results st') key metric = Some (CMetric v1) ∧
    (metric ∉ (get_logging_info task).*1 →
     od_get record metric = Some (CMetric v2)) ∧
    match sfm reduce (stderr_iters iters metric) with
    | Some stderr =>
        ∃ s1 w3 s2 w4,
          stderr items w2 = Ok (s1, w3) ∧
          stderr items w3 = Ok (s2, w4) ∧
          ag_world st' = w4 ∧
          table_cell (ag_results st') key (stderr_key metric) = Some (CMetric s1) ∧
          od_get record (stderr_key metric) = Some (CMetric s2)
    | None =>
        ag_world st' = w2 ∧
        table_cell (ag_results st') key (stderr_key metric) =
          table_cell (ag_results st) key (stderr_key metric) ∧
        (stderr_key metric ∉ (get_logging_info task).*1 →
         od_get record (stderr_key metric) = None)
    end.
Proof.
  unfold aggregate_one. destruct (split key) as [name prompt].
  destruct (od_get task_dict key) as [task|] eqn:Ht; cbn [rbind of_option]; [|done].
  destruct (od_get (aggregation task) metric) as [reduce|] eqn:Hagg;
    cbn [rbind of_option]; [|done].
  destruct (reduce items (ag_world st)) as [[v1 w1]|] eqn:Hr1;
    cbn [rbind fst snd]; [|done].
  destruct (reduce items w1) as [[v2 w2]|] eqn:Hr2; cbn [rbind fst snd]; [|done].
  intros H.
  destruct (stderr_key_not_name metric) as [Hn1 Hn2].
  destruct (sfm reduce (stderr_iters iters metric)) as [stderr|] eqn:Hs.
  - apply rbind_Ok in H as ([s1 w3] & Hs1 & H).
    apply rbind_Ok in H as ([s2 w4] & Hs2 & H).
    cbn [fst snd] in *. injection H as <-. cbn [ag_results ag_metric_results ag_world].
    eexists task, reduce, v1, w1, v2, w2, _. rewrite Hs.
    split_and!; [done..| | |].
    + rewrite table_cell_set_ne by (intros Heq; by apply (stderr_key_ne metric)).
      apply table_cell_set_eq.
    + intros Hlog. rewrite od_get_set_ne by apply stderr_key_ne.
      by apply record_metric.
    + exists s1, w3, s2, w4. split_and!; [done..| |].
      * apply table_cell_set_eq.
      * apply od_get_set_eq.
  - injection H as <-. cbn [ag_results ag_metric_results ag_world].
    eexists task, reduce, v1, w1, v2, w2, _. rewrite Hs.
    split_and!; try done.
    + apply table_cell_set_eq.
    + apply record_metric.
    + rewrite table_cell_set_ne by (intros Heq; by apply (stderr_key_ne metric)).
      rewrite table_cell_set_ne by done. by rewrite table_cell_set_ne.
    + apply record_no_stderr.
Qed.

End aggregator.



(** C8 as the specification states it fails: with a single collected value
    and an estimator defined for the metric, the run reports a standard
    error (here zero), and with an estimator that needs two values the run
    fails. *)
Lemma C8_counterexample :
  (∃ out,
     evaluate (Demo.env Demo.flat_stderr) single_process Demo.lm (Demo.tasks 1 1)
       (Demo.cfg 2) 0 = Ok out ∧
     table_cell (out_table_results out) "t" "acc_stderr" = Some (CMetric 0) ∧
     out_results out =
       [[("task_name"%string, CStr "t"); ("prompt_name"%string, CNone);
         ("acc"%string, CMetric 1); ("acc_stderr"%string, CMetric 0)]]) ∧
  evaluate (Demo.env Demo.strict_stderr) single_process Demo.lm (Demo.tasks 1 1)
    (Demo.cfg 2) 0 = Raise (CollaboratorError "ZeroDivisionError").
Proof.
  split; [eexists; split_and!|]; vm_compute; reflexivity.
Qed.

(** C8, amended.  Whether a standard error is reported depends only on
    whether [stderr_for_metric] returns an estimator for the reduction
    function, not on the number of collected values.  A pass that succeeds
    has applied the reduction function twice to the value list: the first
    value is the point estimate of the table, the second that of the
    record (unless the logging information of the task overwrites it).
    Without an estimator the pass writes nothing under the standard-error
    key and succeeds whenever the reduction function returns; with an
    estimator the pass applies it twice to the value list, whatever its
    length, and reports the first value under the standard-error key of the
    table and the second under that of the record. *)
Theorem C8_stderr_omitted_iff_no_estimator
    {Raw Ctx Info Args V M J World : Type} split sfm
    (task_dict : list (string * @Task Raw Ctx Info Args V M J World))
    iters st key metric items :
  (∀ st',
     aggregate_one split sfm task_dict iters st ((key, metric), items) = Ok st' →
     ∃ task reduce record v1 w1 v2 w2,
       od_get task_dict key = Some task ∧
       od_get (aggregation task) metric = Some reduce ∧
       reduce items (ag_world st) = Ok (v1, w1) ∧
       reduce items w1 = Ok (v2, w2) ∧
       ag_metric_results st' = ag_metric_results st ++ [record] ∧
       table_cell (ag_results st') key metric = Some (CMetric v1) ∧
       (metric ∉ (get_logging_info task).*1 →
        od_get record metric = Some (CMetric v2)) ∧
       match sfm reduce (stderr_iters iters metric) with
       | None =>
           table_cell (ag_results st') key (stderr_key metric) =
             table_cell (ag_results st) key (stderr_key metric) ∧
           (stderr_key metric ∉ (get_logging_info task).*1 →
            od_get record (stderr_key metric) = None)
       | Some stderr =>
           ∃ s1 w3 s2 w4,
             stderr items w2 = Ok (s1, w3) ∧
             stderr items w3 = Ok (s2, w4) ∧
             table_cell (ag_results st') key (stderr_key metric) = Some (CMetric s1) ∧
             od_get record (stderr_key metric) = Some (CMetric s2)
       end) ∧
  (∀ task reduce p1 p2,
     od_get task_dict key = Some task →
     od_get (aggregation task) metric = Some reduce →
     sfm reduce (stderr_iters iters metric) = None →
     reduce items (ag_world st) = Ok p1 →
     reduce items p1.2 = Ok p2 →
     ∃ st', aggregate_one split sfm task_dict iters st ((key, metric), items) = Ok st') ∧
  (∀ task reduce stderr p1 p2,
     od_get task_dict key = Some task →
     od_get (aggregation task) metric = Some reduce →
     sfm reduce (stderr_iters iters metric) = Some stderr →
     reduce items (ag_world st) = Ok p1 →
     reduce items p1.2 = Ok p2 →
     ∀ e, stderr items p2.2 = Raise e →
          aggregate_one split sfm task_dict iters st ((key, metric), items) = Raise e).
Proof.
  split_and!.
  - intros st' H.
    destruct (aggregate_one_inv _ _ _ _ _ _ _ _ _ H)
      as (task & reduce & v1 & w1 & v2 & w2 & record & Ht & Hred & Hr1 & Hr2 &
          Hrec & Htab & Hmet & Hse).
    exists task, reduce, record, v1, w1, v2, w2. split_and!; try done.
    destruct (sfm reduce (stderr_iters iters metric)) as [stderr|].
    + destruct Hse as (s1 & w3 & s2 & w4 & Hs1 & Hs2 & _ & Hts & Hrs).
      by exists s1, w3, s2, w4.
    + by destruct Hse as (_ & ? & ?).
  - intros task reduce p1 p2 Ht Hred Hs Hr1 Hr2.
    unfold aggregate_one. destruct (split key) as [name prompt].
    rewrite Ht. cbn [rbind of_option]. rewrite Hred. cbn [rbind of_option].
    rewrite Hr1. cbn [rbind]. rewrite Hr2. cbn [rbind]. rewrite Hs. by eexists.
  - intros task reduce stderr p1 p2 Ht Hred Hs Hr1 Hr2 e He.
    unfold aggregate_one. destruct (split key) as [name prompt].
    rewrite Ht. cbn [rbind of_option]. rewrite Hred. cbn [rbind of_option].
    rewrite Hr1. cbn [rbind]. rewrite Hr2. cbn [rbind]. rewrite Hs.
    by rewrite He.
Qed.

Lemma C8_witness :
  ∃ st',
    aggregate_one (split_task_template_key (Demo.env Demo.no_stderr))
      Demo.no_stderr
      [("t"%string, Demo.task "t" [100] (Demo.requests_for "loglikelihood" (Some 0) 1))]
      10 (mkAggState [] [] 0) (("t"%string, "acc"%string), [1]) = Ok st' ∧
    table_cell (ag_results st') "t" "acc_stderr" = None.
Proof.
  destruct (proj1 (proj2 (C8_stderr_omitted_iff_no_estimator
              (split_task_template_key (Demo.env Demo.no_stderr))
              Demo.no_stderr
              [("t"%string, Demo.task "t" [100] (Demo.requests_for "loglikelihood" (Some 0) 1))]
              10 (mkAggState [] [] 0) "t"%string "acc"%string [1]))
              _ Demo.total (1, 0) (1, 0) eq_refl eq_refl eq_refl eq_refl eq_refl)
    as [st' Hst'].
  exists st'. split; [exact Hst'|].
  destruct (proj1 (C8_stderr_omitted_iff_no_estimator _ _ _ _ _ _ _ _) st' Hst')
    as (task & reduce & record & v1 & w1 & v2 & w2 & Ht & Hred & _ & _ & _ & _ & _
        & Hse).
  injection Ht as <-. injection Hred as <-.
  exact (proj1 Hse).
Defined.

(** ** The batches of a loader *)




(** ** Truncation of the final batch *)


(** C1 at the failing input: 5 requests, batch size 2, two workers.  Each
    of the two steps gathers 4 samples.  After the first step
    [samples_seen] is 2, the length of the pair of columns, not 4; on the
    final step the slice bound is therefore 3, both columns stay whole, and
    all 4 gathered triples, not 5 - 4 = 1, reach reconciliation.  With 3
    requests and batch size 1 the bound is 1: the slice drops the column of
    exact-match flags and the remaining triple carries the whole gathered
    column of log-probabilities in place of the row of request 2. *)
Theorem C1_final_batch_not_truncated :
  DemoRuns.ids 5 2 = [0; 1; 2; 3; 4] ∧
  DemoRuns.loader_ids 5 2 = [[[0; 1]; [2; 3]]; [[4; 4]; [4; 4]]] ∧
  step_triples Demo.api (padded_distributed 2 2 0) Demo.lm "loglikelihood"
    Demo.collator 2 5 0 (0, nth 0 (DemoRuns.loader 5 2) []) =
    Ok ([(0, 0, [1000; 1]); (1, 1, [1010; 1]); (2, 2, [1020; 1]); (3, 3, [1030; 1])],
        2) ∧
  step_triples Demo.api (padded_distributed 2 2 0) Demo.lm "loglikelihood"
    Demo.collator 2 5 2 (1, nth 1 (DemoRuns.loader 5 2) []) =
    Ok ([(4, 4, [1040; 1]); (4, 4, [1040; 1]); (4, 4, [1040; 1]); (4, 4, [1040; 1])],
        2) ∧
  step_triples Demo.api (padded_distributed 2 1 0) Demo.lm "loglikelihood"
    Demo.collator 2 3 2 (1, nth 1 (DemoRuns.loader 3 1) []) =
    Ok ([(2, 2, [1020; 1020])], 2).
Proof.
  split_and!; vm_compute; reflexivity.
Qed.

(** ** No request is lost or duplicated *)

Lemma foldl_enumerate_inv {A S} (f : S → Z * A → S) (P : Z → S → Prop) xs n s :
  P n s →
  (∀ m s x, n ≤ m → x ∈ xs → P m s → P (m + 1) (f s (m, x))) →
  P (n + Z.of_nat (length xs)) (foldl f s (enumerate_from n xs)).
Proof.
  revert n s. induction xs as [|x xs IH]; intros n s Hs Hstep.
  - simpl. by rewrite Z.add_0_r.
  - cbn [enumerate_from foldl length]. rewrite Nat2Z.inj_succ.
    replace (n + Z.succ (Z.of_nat (length xs)))
      with ((n + 1) + Z.of_nat (length xs)) by lia.
    apply IH.
    + apply Hstep; [lia | left | done].
    + intros m s' y Hm Hy. apply Hstep; [lia | by right].
Qed.

Lemma foldl_prefix_inv {A S} (f : S → A → S) (P : list A → S → Prop) l s :
  P [] s →
  (∀ pre x post s, l = pre ++ x :: post → P pre s → P (pre ++ [x]) (f s x)) →
  P l (foldl f s l).
Proof.
  intros H0 Hstep.
  assert (∀ rest pre s, l = pre ++ rest → P pre s → P l (foldl f s rest)) as Hgen.
  { induction rest as [|x rest IH]; intros pre s' Hl Hp; simpl.
    - by rewrite Hl, app_nil_r.
    - apply (IH (pre ++ [x])).
      + by rewrite <- app_assoc.
      + by eapply Hstep. }
  by apply (Hgen l []).
Qed.

Lemma dl_append_lookup {K A} `{EqDecision K} (d : list (K * list A)) k x k' (j : nat) o :
  dl_get (dl_append d k x) k' !! j = Some o ↔
  dl_get d k' !! j = Some o ∨ (k' = k ∧ j = length (dl_get d k) ∧ o = x).
Proof.
  destruct (decide (k = k')) as [<-|Hne].
  - rewrite dl_get_append_eq, lookup_app_Some, list_lookup_singleton_Some.
    split; [intros [?|(? & ? & ?)]; [by left | right; split_and!; [done|lia|done]]|].
    intros [?|(_ & -> & ->)]; [by left|]. right. split_and!; [lia|lia|done].
  - rewrite dl_get_append_ne by done. split; [by left|].
    intros [?|(-> & _)]; done.
Qed.

Lemma od_set_elem {K A} `{EqDecision K} (d : list (K * A)) k v k' v' :
  (k', v') ∈ od_set d k v → (k', v') ∈ d ∨ (k' = k ∧ v' = v).
Proof.
  induction d as [|[k0 v0] d IH]; simpl.
  - intros H. apply list_elem_of_singleton in H as [= -> ->]. by right.
  - destruct (decide (k0 = k)) as [->|Hne]; intros H;
      apply elem_of_cons in H as [[= -> ->]|H].
    + by right.
    + left. by right.
    + left. left.
    + destruct (IH H) as [?|?]; [left; by right | by right].
Qed.

Section construction.
Context {Raw Ctx Info Args V M J World : Type}.
Abbreviation BuildStateT := (@BuildState Raw Info Args World).
Abbreviation TaskT := (@Task Raw Ctx Info Args V M J World).
Abbreviation OriginsT := (list (string * list (@Origin Raw Info))).
Implicit Types (st : BuildStateT) (O : OriginsT).






Lemma build_task_dict_NoDup key_of (tasks : list TaskT) :
  NoDup (od_keys (build_task_dict key_of tasks)).
Proof.
  unfold build_task_dict.
  apply (foldl_invariant (λ d, NoDup (od_keys d))); [|constructor].
  intros d task Hd. case_match; [done|]. by apply od_keys_set_NoDup.
Qed.


(** *** One request type per document *)




Lemma build_task_dict_elem key_of (tasks : list TaskT) k task :
  (k, task) ∈ build_task_dict key_of tasks → task ∈ tasks.
Proof.
  unfold build_task_dict.
  apply (foldl_prefix_inv _
    (λ pre (d : list (string * TaskT)), ∀ k task, (k, task) ∈ d → task ∈ pre)).
  - intros k' task' H. by apply elem_of_nil in H.
  - intros pre x post d _ Hd k' task' Hin. rewrite elem_of_app.
    case_match; [left; by eapply Hd|].
    apply od_set_elem in Hin as [Hin|[_ ->]].
    + left. by eapply Hd.
    + right. left.
Qed.


End construction.



Section execution.
Context {Raw Info Args V World Batch Net : Type}.
Abbreviation OriginsT := (list (string * list (@Origin Raw Info))).
Abbreviation QueueT := (list ((string * Z) * list (@QEntry Info V))).
Abbreviation RequestT := (@Request Args).
Implicit Types (origin : OriginsT) (q : QueueT) (acc : @Accelerator Args Net).
Implicit Types (model : @LM Args V Batch Net) (X : list RequestT).
Implicit Types (api : @RequestApi Args) (collator : list Tok → result Batch).


End execution.

Lemma rfold_prefix_inv {A S} (body : S → A → result S) (P : list A → S → Prop) l s :
  P [] s →
  (∀ pre x post s, l = pre ++ x :: post → P pre s →
     ∃ s', body s x = Ok s' ∧ P (pre ++ [x]) s') →
  ∃ s', rfold body s l = Ok s' ∧ P l s'.
Proof.
  intros H0 Hstep.
  assert (∀ rest pre s, l = pre ++ rest → P pre s →
            ∃ s', rfold body s rest = Ok s' ∧ P l s') as Hgen.
  { induction rest as [|x rest IH]; intros pre s0 Hl Hp.
    - exists s0. split; [done|]. by rewrite Hl, app_nil_r.
    - destruct (Hstep pre x rest s0 Hl Hp) as (s1 & Hx & Hp1).
      destruct (IH (pre ++ [x]) s1) as (s2 & Hr & Hp2); [by rewrite <- app_assoc|done|].
      exists s2. split; [|done]. by rewrite rfold_cons, Hx. }
  by apply (Hgen l []).
Qed.




Section reconciliation.
Context {Raw Info Args V World : Type}.
Abbreviation OriginsT := (list (string * list (@Origin Raw Info))).
Abbreviation QueueT := (list ((string * Z) * list (@QEntry Info V))).
Abbreviation RequestT := (@Request Args).
Implicit Types (origin : OriginsT) (q : QueueT) (X : list RequestT).





End reconciliation.

Section pipeline.
Context {Raw Ctx Info Args V M J World Batch Net : Type}.
Abbreviation BuildStateT := (@BuildState Raw Info Args World).
Abbreviation TaskT := (@Task Raw Ctx Info Args V M J World).
Abbreviation QueueT := (list ((string * Z) * list (@QEntry Info V))).
Implicit Types (st : BuildStateT) (q : QueueT) (acc : @Accelerator Args Net).
Implicit Types (model : @LM Args V Batch Net).
Implicit Types (api : @RequestApi Args) (collator : list Tok → result Batch).

Lemma aligned_get st t reqs :
  aligned (requests st) (requests_origin st) →
  (t, reqs) ∈ requests st → dl_get (requests st) t = reqs.
Proof.
  intros (_ & Hnd & _) Ht. unfold dl_get. by rewrite (od_elem_get _ _ _ Hnd Ht).
Qed.






End pipeline.



Section bijection.
Context {Raw Info Args V World : Type}.
Abbreviation BuildStateT := (@BuildState Raw Info Args World).
Abbreviation QueueT := (list ((string * Z) * list (@QEntry Info V))).
Implicit Types (st : BuildStateT) (q : QueueT).









End bijection.




Section no_loss.
Context {Raw Ctx Info Args V M J World Batch Net : Type}.



End no_loss.

(** ** The collaborators of the concrete runs *)






(** ** The theorems at concrete runs *)

Lemma C3_witness :
  aligned (requests (Demo.state 3 2 2)) (requests_origin (Demo.state 3 2 2)) ∧
  dl_get (requests
            (build_doc 0 "t"
               (Demo.task "t" [] (Demo.requests_for "loglikelihood" (Some 0) 2))
               (Demo.state 3 2 2) (3, mkDoc 103 3)))
    "loglikelihood" =
  dl_get (requests (Demo.state 3 2 2)) "loglikelihood" ++
  [mkRequest "loglikelihood" [1030; 0] (Some 0) 3 6;
   mkRequest "loglikelihood" [1031; 0] (Some 0) 3 7].
Proof.
  split.
  - exact (proj2 (proj2 (proj2 (C3_multiplexer_index_aligned (V:=Z) (J:=string)
                    (Demo.env Demo.no_stderr) (Demo.cfg 2) 0 (Demo.tasks 3 2))))).
  - exact (proj1 (proj1 (proj2 (C3_multiplexer_index_aligned (V:=Z) (J:=string)
                    (Demo.env Demo.no_stderr) (Demo.cfg 2) 0 (Demo.tasks 3 2)))
                  0 "t"%string
                  (Demo.task "t" [] (Demo.requests_for "loglikelihood" (Some 0) 2))
                  (Demo.state 3 2 2) 3 (mkDoc 103 3) "loglikelihood"%string)).
Defined.


Lemma C5_witness :
  per_doc_results Demo.scrambled = [RItem 10; RItem 11; RItem 12] ∧
  fewshot_logging_info Demo.scrambled = Ok (mkLoggingInfo tt 7).
Proof.
  apply (proj2 (proj2 (proj2 (proj2 (proj2
           (C5_bucket_sorted_by_sub_index Demo.scrambled)))))
           (RItem 10) (RItem 11) (RItem 12) (mkLoggingInfo tt 7) (mkLoggingInfo tt 7)
           (mkLoggingInfo tt 7) 3 4 5).
  - repeat constructor; rewrite ?not_elem_of_cons, ?elem_of_nil; intuition lia.
  - reflexivity.
Defined.

Lemma C6_witness :
  evaluate (Demo.env Demo.no_stderr) Demo.tampering Demo.lm (Demo.tasks 1 1)
    (Demo.cfg 1) 0 = Raise AssertionError.
Proof.
  set (st := built (Demo.env Demo.no_stderr) (Demo.cfg 1) 0 (Demo.tasks 1 1)).
  eapply (proj1 (proj2 (C6_doc_id_assertion (Raw:=Z) (Ctx:=unit) (Info:=unit)
            (Args:=Z) (V:=Z) (M:=Z) (J:=string) (World:=Z) (Batch:=list Z)
            (Net:=unit)))
            (Demo.env Demo.no_stderr) Demo.tampering Demo.lm (Demo.tasks 1 1)
            (Demo.cfg 1) 0 _ _ tt tt [] "loglikelihood"%string
            (mkLoader (dl_get (requests st) "loglikelihood") Demo.collator
               (prepare_data_loader Demo.tampering
                  (DataLoader 1 (dl_get (requests st) "loglikelihood"))))
            [] [] [] 0
            [[mkRequest "loglikelihood" [1000; 0] (Some 0) 1 0]] [] ([], 0)
            ([(0, 1, [1000; 1])], 0) [] 0 1 [1000; 1] [] []).
  - vm_compute; reflexivity.
  - vm_compute; reflexivity.
  - reflexivity.
  - reflexivity.
  - vm_compute; reflexivity.
  - reflexivity.
  - vm_compute; reflexivity.
  - reflexivity.
  - vm_compute; reflexivity.
  - reflexivity.
  - reflexivity.
  - vm_compute; reflexivity.
  - vm_compute. discriminate.
Defined.

(** ** The steps of a run *)

Section run_steps.
Context {Raw Ctx Info Args V M J World Batch Net : Type}.

(** A run that returns has passed every step of the driver. *)
Lemma evaluate_inv (env : @Collaborators Raw Args M World)
    (acc : @Accelerator Args Net) (model : @LM Args V Batch Net)
    (tasks : list (@Task Raw Ctx Info Args V M J World)) (cfg : Config)
    (seed : World) (out : @EvalOutput M J) :
  evaluate env acc model tasks cfg seed = Ok out →
  ∃ datasets loaders net prepared q vals ag,
    requests_datasets (built env cfg seed tasks) = Ok datasets ∧
    requests_data_loaders model datasets = Ok loaders ∧
    inner_model model = Some net ∧
    prepare_model acc net = Ok prepared ∧
    execute_loaders (request_api env) acc model
      (requests_origin (built env cfg seed tasks))
      (prepare_loaders acc (batch_size cfg) loaders) = Ok q ∧
    score (build_task_dict (get_task_template_key env) tasks)
      (docs (built env cfg seed tasks)) q = Ok vals ∧
    aggregate (split_task_template_key env) (stderr_for_metric env)
      (build_task_dict (get_task_template_key env) tasks) (bootstrap_iters cfg)
      (rng (built env cfg seed tasks)) vals = Ok ag ∧
    out = mkEvalOutput (ag_metric_results ag) (versions (built env cfg seed tasks))
            (ag_results ag).
Proof.
  unfold evaluate. intros H.
  apply rbind_Ok in H as (datasets & Hd & H).
  apply rbind_Ok in H as (loaders & Hl & H).
  apply rbind_Ok in H as (net & Hn & H).
  apply rbind_Ok in H as (prepared & Hp & H).
  apply rbind_Ok in H as (q & Hq & H).
  apply rbind_Ok in H as (vals & Hv & H).
  apply rbind_Ok in H as (ag & Ha & H).
  injection H as <-.
  exists datasets, loaders, net, prepared, q, vals, ag. split_and!; try done.
  by destruct (inner_model model); [injection Hn as -> |].
Qed.

End run_steps.

(** ** The task dictionary and the bookkeeping of request construction *)

Lemma od_set_new {K A} `{EqDecision K} (d : list (K * A)) k v :
  k ∉ od_keys d → od_set d k v = d ++ [(k, v)].
Proof.
  induction d as [|[k0 v0] d IH]; intros Hk; simpl; [done|].
  unfold od_keys in Hk. rewrite fmap_cons in Hk.
  apply not_elem_of_cons in Hk as [Hne Hk]. simpl in Hne.
  destruct (decide (k0 = k)) as [->|_]; [done|]. by rewrite IH.
Qed.

Section task_dict.
Context {Raw Ctx Info Args V M J World : Type}.
Abbreviation TaskX := (@Task Raw Ctx Info Args V M J World).
Abbreviation BuildStateX := (@BuildState Raw Info Args World).
Implicit Types (st : BuildStateX) (task : TaskX).

(** X1. The task dictionary of lines 193-204 maps a key to the last task
    of the list that has validation or test documents and gets this key:
    tasks without evaluation documents are skipped, and of two tasks with
    the same key the later one replaces the earlier one. *)
Theorem X1_task_dict_last_task_wins key_of (tasks : list TaskX) k :
  od_get (build_task_dict key_of tasks) k =
  last (filter (λ task, has_evaluation_docs task = true ∧ task_key key_of task = k)
          tasks).
Proof.
  induction tasks as [|task tasks IH] using rev_ind; [done|].
  unfold build_task_dict in *. rewrite foldl_app, filter_app. simpl.
  unfold has_evaluation_docs, task_key in *.
  destruct (has_validation_docs task) eqn:Hv, (has_test_docs task) eqn:Ht; simpl.
  all: try (destruct (decide (key_of (registry_name task) (prompt_template_name task) = k))
              as [<-|Hne];
            [ rewrite od_get_set_eq, filter_cons_True, filter_nil by (by rewrite ?Hv, ?Ht);
              by rewrite last_snoc
            | rewrite od_get_set_ne by done;
              rewrite filter_cons_False, filter_nil by (rewrite ?Hv, ?Ht; naive_solver);
              by rewrite app_nil_r ]).
  rewrite filter_cons_False, filter_nil by (rewrite ?Hv, ?Ht; naive_solver).
  by rewrite app_nil_r.
Qed.

Lemma mux_request_keeps key doc d info st ir :
  versions (mux_request key doc d info st ir) = versions st ∧
  docs (mux_request key doc d info st ir) = docs st ∧
  rng (mux_request key doc d info st ir) = rng st.
Proof. by destruct ir. Qed.

Lemma build_doc_versions nf key task st id_doc :
  versions (build_doc nf key task st id_doc) = versions st.
Proof.
  destruct id_doc as [d doc]. unfold build_doc.
  destruct (fewshot_context task doc nf (rng st)) as [[ctx info] rng'].
  apply (foldl_invariant (λ s, versions s = versions st)); [|done].
  intros s x Hs. by rewrite (proj1 (mux_request_keeps _ _ _ _ _ _)).
Qed.

Lemma build_task_versions shuffle nf limit st key task :
  versions (build_task shuffle nf limit st (key, task)) =
  od_set (versions st) key (VERSION task).
Proof.
  unfold build_task. destruct (shuffle _ _) as [task_docs rng']. cbn [versions].
  f_equal.
  apply (foldl_invariant (λ s, versions s = versions st)); [|done].
  intros s x Hs. by rewrite build_doc_versions.
Qed.

Lemma build_versions shuffle nf limit seed (task_dict : list (string * TaskX)) :
  NoDup (od_keys task_dict) →
  versions (build shuffle nf limit seed task_dict) = version_entry <$> task_dict.
Proof.
  intros Hnd. unfold build.
  apply (foldl_prefix_inv _ (λ pre s, versions s = version_entry <$> pre)); [done|].
  intros pre [key task] post s Hl Hs.
  rewrite build_task_versions, Hs, fmap_app. apply od_set_new.
  unfold od_keys in *. rewrite <- list_fmap_compose.
  rewrite Hl, fmap_app, fmap_cons in Hnd.
  apply NoDup_app in Hnd as (_ & Hdisj & _). intros Hin.
  apply (Hdisj key); [|left].
  by replace (fst <$> pre) with (fst ∘ version_entry <$> pre).
Qed.

(** X2. After request construction [versions] holds, for every key of the
    task dictionary and in its order, the [VERSION] of the task, whether or
    not the task produced a request (line 256); a run that returns reports
    exactly these versions. *)
Theorem X2_versions_of_every_task (env : @Collaborators Raw Args M World) (cfg : Config)
    (seed : World) (tasks : list TaskX) {Batch Net : Type}
    (acc : @Accelerator Args Net) (model : @LM Args V Batch Net) :
  versions (built env cfg seed tasks) =
    version_entry <$> build_task_dict (get_task_template_key env) tasks ∧
  match evaluate env acc model tasks cfg seed with
  | Ok out =>
      out_versions out =
        version_entry <$> build_task_dict (get_task_template_key env) tasks
  | Raise _ => True
  end.
Proof.
  assert (versions (built env cfg seed tasks) =
          version_entry <$> build_task_dict (get_task_template_key env) tasks) as Hv
    by apply build_versions, build_task_dict_NoDup.
  split; [done|].
  destruct (evaluate env acc model tasks cfg seed) as [out|] eqn:Hrun; [|done].
  by apply evaluate_inv in Hrun as (? & ? & ? & ? & ? & ? & ? & _ & _ & _ & _ & _ & _ & _ & ->).
Qed.

Lemma mux_request_traced done key doc d info st ir :
  0 ≤ d →
  od_get (docs st) (key, d) = Some doc →
  logged_doc_id info = doc_field_doc_id doc →
  traced done key (d + 1) st →
  traced done key (d + 1) (mux_request key doc d info st ir).
Proof.
  intros Hd Hdoc Hlog Htr t j o Ho. destruct ir as [i req].
  rewrite mux_request_origin in Ho.
  rewrite (proj1 (proj2 (mux_request_keeps key doc d info st (i, req)))).
  apply dl_append_lookup in Ho as [Ho|(-> & _ & ->)]; [by eapply Htr|].
  simpl. split_and!; [right; split; [done|lia] | done..].
Qed.

Lemma build_doc_traced nf done key task st d doc :
  key ∉ done → 0 ≤ d →
  traced done key d st →
  traced done key (d + 1) (build_doc nf key task st (d, doc)).
Proof.
  intros Hkey Hd Htr. unfold build_doc.
  destruct (fewshot_context task doc nf (rng st)) as [[ctx info] rng'].
  set (s0 := mkBuildState rng' _ _ _ _).
  assert (traced done key (d + 1) s0 ∧ od_get (docs s0) (key, d) = Some doc) as H0.
  { split; [|apply od_get_set_eq].
    intros t j o Ho. destruct (Htr t j o Ho) as (Hb & Hdocs & Hlog).
    split_and!; [| |done].
    - destruct Hb as [?|[? ?]]; [by left|right; split; [done|lia]].
    - simpl. rewrite od_get_set_ne; [done|].
      intros [= Hk Hdd]. destruct Hb as [Hin|[_ ?]]; [|lia].
      by rewrite <- Hk in Hin. }
  apply (foldl_invariant
           (λ s, traced done key (d + 1) s ∧ od_get (docs s) (key, d) = Some doc));
    [|done].
  intros s x [Hs Hdoc]. split.
  - by apply mux_request_traced.
  - by rewrite (proj1 (proj2 (mux_request_keeps _ _ _ _ _ _))).
Qed.

Lemma build_task_traced shuffle nf limit done st key task :
  key ∉ done →
  traced done key 0 st →
  traced (done ++ [key]) key 0 (build_task shuffle nf limit st (key, task)).
Proof.
  intros Hkey Htr. unfold build_task.
  destruct (shuffle _ _) as [task_docs rng'].
  set (s0 := mkBuildState rng' _ _ _ _).
  set (ds := islice_to limit task_docs).
  assert (0 ≤ 0 + Z.of_nat (length ds) ∧
          traced done key (0 + Z.of_nat (length ds))
            (foldl (build_doc nf key task) s0 (enumerate ds))) as [_ Hend].
  { apply (foldl_enumerate_inv _ (λ d s, 0 ≤ d ∧ traced done key d s)).
    - done.
    - intros m s doc Hm _ [_ Hs]. split; [lia|]. by apply build_doc_traced. }
  intros t j o Ho. destruct (Hend t j o Ho) as (Hb & Hdocs & Hlog).
  split_and!; [|done..]. left. rewrite elem_of_app, list_elem_of_singleton.
  destruct Hb as [?|[? _]]; [by left|by right].
Qed.

Lemma build_traced shuffle nf limit seed (task_dict : list (string * TaskX)) :
  NoDup (od_keys task_dict) →
  origins_traceable task_dict (build shuffle nf limit seed task_dict).
Proof.
  intros Hnd.
  assert (traced (od_keys task_dict) "" 0 (build shuffle nf limit seed task_dict))
    as Htr.
  { unfold build.
    apply (foldl_prefix_inv _ (λ pre s, ∀ key, traced (pre.*1) key 0 s)).
    - intros key t j o Ho. unfold dl_get in Ho. simpl in Ho.
      by rewrite lookup_nil in Ho.
    - intros pre [key task] post s Hl Hs key'.
      assert (key ∉ pre.*1) as Hkey.
      { unfold od_keys in Hnd. rewrite Hl, fmap_app, fmap_cons in Hnd.
        apply NoDup_app in Hnd as (_ & Hdisj & _). intros Hin.
        apply (Hdisj key Hin). left. }
      rewrite fmap_app. simpl.
      intros t j o Ho.
      destruct (build_task_traced shuffle nf limit (pre.*1) s key task Hkey (Hs key)
                  t j o Ho) as (Hb & Hdocs & Hlog).
      split_and!; [|done..]. left. destruct Hb as [?|[_ ?]]; [done|lia]. }
  intros t j o Ho. destruct (Htr t j o Ho) as (Hb & Hdocs & Hlog).
  split_and!; [|done..].
  destruct Hb as [Hin|[_ ?]]; [|lia].
  destruct (od_get task_dict (o_task_template_key o)) eqn:Hg; [done|].
  by apply od_get_None in Hg.
Qed.

(** X3. Every origin record of a run can be traced back: its task-template
    key is a key of the task dictionary, [docs] holds its document under
    the pair of its key and its doc id (line 234), and the doc id stored in
    its few-shot logging dictionary (line 240) is the ["doc_id"] field of
    that document. *)
Theorem X3_origins_traceable (env : @Collaborators Raw Args M World) (cfg : Config)
    (seed : World) (tasks : list TaskX) :
  origins_traceable (build_task_dict (get_task_template_key env) tasks)
    (built env cfg seed tasks).
Proof. apply build_traced, build_task_dict_NoDup. Qed.

End task_dict.

(** ** The request datasets *)

Lemma dl_append_elem {K A} `{EqDecision K} (d : list (K * list A)) k x k' l :
  (k', l) ∈ dl_append d k x → (k', l) ∈ d ∨ l = dl_get d k ++ [x].
Proof.
  unfold dl_append. intros H. apply od_set_elem in H as [?|[_ ->]]; [by left|by right].
Qed.

Lemma dl_touch_elem {K A} `{EqDecision K} (d : list (K * list A)) k k' (l : list A) :
  (k', l) ∈ dl_touch d k → (k', l) ∈ d ∨ l = [].
Proof.
  unfold dl_touch. destruct (od_get d k); [by left|].
  rewrite elem_of_app, list_elem_of_singleton. intros [?|[= _ ->]]; [by left|by right].
Qed.

Section datasets_facts.
Context {Raw Ctx Info Args V M J World : Type}.
Abbreviation TaskY := (@Task Raw Ctx Info Args V M J World).
Abbreviation BuildStateY := (@BuildState Raw Info Args World).
Implicit Types (st : BuildStateY) (task : TaskY) (reqs : list (@Request Args)).

Lemma types_singleton reqs t :
  reqs ≠ [] → Forall (λ r, request_type r = t) reqs →
  list_to_set (C:=gset string) (request_type <$> reqs) = {[t]}.
Proof.
  intros Hne Hall. apply set_eq. intros x.
  rewrite elem_of_list_to_set, list_elem_of_fmap, elem_of_singleton. split.
  - intros (r & -> & Hr). by eapply Forall_forall in Hall.
  - intros ->. destruct reqs as [|r reqs]; [done|].
    exists r. split; [|left]. symmetry. by apply Forall_cons in Hall as [? _].
Qed.

Lemma RequestDataset_init_Ok t reqs :
  reqs ≠ [] → Forall (λ r, request_type r = t) reqs →
  RequestDataset_init t reqs = Ok reqs.
Proof.
  intros Hne Hall. unfold RequestDataset_init.
  rewrite (types_singleton reqs t Hne Hall), size_singleton.
  rewrite bool_decide_eq_true_2 by done.
  destruct reqs as [|r reqs]; [done|].
  apply Forall_cons in Hall as [Hr _].
  pose proof (py_index_nat (r :: reqs) 0 r eq_refl) as Hi.
  change (Z.of_nat 0) with 0 in Hi.
  rewrite Hi. cbn [rbind]. by rewrite bool_decide_eq_true_2.
Qed.

Lemma RequestDataset_init_inv t reqs ds :
  RequestDataset_init t reqs = Ok ds →
  ds = reqs ∧ reqs ≠ [] ∧ Forall (λ r, request_type r = t) reqs.
Proof.
  unfold RequestDataset_init. case_bool_decide as Hsize; [|done].
  apply size_1_elem_of in Hsize as [x Hx]. apply leibniz_equiv in Hx.
  intros H. apply rbind_Ok in H as (r0 & H0 & H).
  case_bool_decide as Ht; [|done]. injection H as <-.
  destruct reqs as [|r reqs]; [done|].
  pose proof (py_index_nat (r :: reqs) 0 r eq_refl) as Hi.
  change (Z.of_nat 0) with 0 in Hi.
  rewrite Hi in H0. injection H0 as <-.
  split_and!; [done..|]. apply Forall_forall. intros r' Hr'.
  assert (∀ r1, r1 ∈ r :: reqs → request_type r1 = x) as Hall.
  { intros r1 Hr1. apply (elem_of_singleton (C:=gset string)). rewrite <- Hx.
    apply elem_of_list_to_set, list_elem_of_fmap. by exists r1. }
  rewrite Ht, (Hall r') by done. symmetry. apply Hall. left.
Qed.

(** X4. The assertion of [RequestDataset.__init__] (line 121) passes
    exactly when the request list is not empty and all its requests have the
    given type; in every other case the constructor raises AssertionError.
    In particular the empty list fails the first conjunct, so [requests[0]]
    never raises IndexError. *)
Theorem X4_RequestDataset_assertion t reqs :
  (RequestDataset_init t reqs = Ok reqs ↔
   reqs ≠ [] ∧ Forall (λ r, request_type r = t) reqs) ∧
  (RequestDataset_init t reqs = Ok reqs ∨
   RequestDataset_init t reqs = Raise AssertionError).
Proof.
  split.
  - split.
    + intros H. by apply RequestDataset_init_inv in H as (_ & ? & ?).
    + intros [? ?]. by apply RequestDataset_init_Ok.
  - destruct (RequestDataset_init t reqs) as [ds|e] eqn:H.
    + left. by apply RequestDataset_init_inv in H as (-> & _).
    + right. unfold RequestDataset_init in H. case_bool_decide as Hsize.
      * apply rbind_raise in H as [H|(r0 & _ & H)].
        -- exfalso. destruct reqs as [|r reqs].
           2: { pose proof (py_index_nat (r :: reqs) 0 r eq_refl) as Hi.
                change (Z.of_nat 0) with 0 in Hi. by rewrite Hi in H. }
           by rewrite fmap_nil, list_to_set_nil, size_empty in Hsize.
        -- case_bool_decide; [done|]. by injection H as <-.
      * by injection H as <-.
Qed.

Lemma mux_request_nonempty key doc d info st ir :
  lists_nonempty st → lists_nonempty (mux_request key doc d info st ir).
Proof.
  intros [Hr Ho]. destruct ir as [i req]. split.
  - intros t reqs. rewrite mux_request_requests. intros H.
    apply dl_append_elem in H as [H| ->]; [by eapply Hr|].
    by destruct (dl_get _ _).
  - intros t os. rewrite mux_request_origin. intros H.
    apply dl_append_elem in H as [H| ->]; [by eapply Ho|].
    by destruct (dl_get _ _).
Qed.

Lemma build_doc_nonempty nf key task st id_doc :
  lists_nonempty st → lists_nonempty (build_doc nf key task st id_doc).
Proof.
  intros Hst. destruct id_doc as [d doc]. unfold build_doc.
  destruct (fewshot_context task doc nf (rng st)) as [[ctx info] rng'].
  apply (foldl_invariant lists_nonempty); [|done].
  intros s x. apply mux_request_nonempty.
Qed.

Lemma build_task_nonempty shuffle nf limit st (kt : string * TaskY) :
  lists_nonempty st → lists_nonempty (build_task shuffle nf limit st kt).
Proof.
  intros Hst. destruct kt as [key task]. unfold build_task.
  destruct (shuffle _ _) as [task_docs rng'].
  assert (lists_nonempty
            (foldl (build_doc nf key task)
               (mkBuildState rng' (docs st) (requests st) (requests_origin st)
                  (versions st))
               (enumerate (islice_to limit task_docs)))) as H; [|done].
  apply (foldl_invariant lists_nonempty); [|done].
  intros s x. apply build_doc_nonempty.
Qed.

Lemma build_nonempty shuffle nf limit seed (task_dict : list (string * TaskY)) :
  lists_nonempty (build shuffle nf limit seed task_dict).
Proof.
  unfold build. apply (foldl_invariant lists_nonempty).
  - intros s x. apply build_task_nonempty.
  - split; intros t l H; by apply elem_of_nil in H.
Qed.

Lemma requests_datasets_Ok st :
  aligned (requests st) (requests_origin st) → lists_nonempty st →
  requests_datasets st = Ok (requests st).
Proof.
  intros Hal [Hne _]. unfold requests_datasets.
  destruct (rfold_prefix_inv
    (λ datasets (tr : string * list (@Request Args)),
       do dataset <- RequestDataset_init tr.1 tr.2;
       Ok (od_set datasets tr.1 dataset))
    (λ pre s, s = pre) (requests st) []) as (s & Hs & ->); [done| |done].
  intros pre [t reqs] post s Hl ->.
  assert ((t, reqs) ∈ requests st) as Hin.
  { rewrite Hl. apply elem_of_app. right. left. }
  exists (pre ++ [(t, reqs)]). split; [|done]. cbn [fst snd].
  rewrite RequestDataset_init_Ok.
  - cbn [rbind]. f_equal. apply od_set_new.
    destruct Hal as (_ & Hnd & _). unfold od_keys in *.
    rewrite Hl, fmap_app, fmap_cons in Hnd.
    apply NoDup_app in Hnd as (_ & Hdisj & _). intros Hk.
    apply (Hdisj t Hk). left.
  - by eapply Hne.
  - apply Forall_forall. intros r Hr.
    pose proof (aligned_get st t reqs Hal Hin) as Hget.
    destruct Hal as (_ & _ & Hall). destruct (Hall t) as [_ Hpos].
    apply list_elem_of_lookup in Hr as [j Hj]. rewrite <- Hget in Hj.
    by destruct (Hpos j r Hj) as (? & _).
Qed.

(** X5. For the requests of any run, lines 272-275 build a dataset for
    every request type: the assertion of line 121 never fails in the driver,
    because request construction files every request under its own type and
    creates a list only when it appends to it. *)
Theorem X5_datasets_always_built (env : @Collaborators Raw Args M World) (cfg : Config)
    (seed : World) (tasks : list TaskY) :
  requests_datasets (built env cfg seed tasks) = Ok (requests (built env cfg seed tasks)).
Proof.
  apply requests_datasets_Ok; [apply build_aligned | apply build_nonempty].
Qed.

End datasets_facts.

(** ** The loaders of a run *)

Section run_loaders.
Context {Raw Ctx Info Args V M J World Batch Net : Type}.
Implicit Types (model : @LM Args V Batch Net) (acc : @Accelerator Args Net).
Implicit Types (collator : list Tok → result Batch).

Lemma requests_data_loaders_Ok model collator
    (datasets : list (string * list (@Request Args))) :
  tokenizer model = Some collator → NoDup (od_keys datasets) →
  requests_data_loaders model datasets =
  Ok ((λ td, (td.1, (td.2, collator))) <$> datasets).
Proof.
  intros Htok Hnd. unfold requests_data_loaders.
  destruct (rfold_prefix_inv
    (λ loaders (td : string * list (@Request Args)),
       do collator <- of_option AttributeError (tokenizer model);
       Ok (od_set loaders td.1 (td.2, collator)))
    (λ pre s, s = (λ td, (td.1, (td.2, collator))) <$> pre) datasets [])
    as (s & Hs & ->); [done| |done].
  intros pre [t reqs] post s Hl ->. rewrite Htok. cbn [rbind of_option fst snd].
  eexists. split; [done|]. rewrite fmap_app. apply od_set_new.
  unfold od_keys in *. rewrite <- list_fmap_compose.
  rewrite Hl, fmap_app, fmap_cons in Hnd.
  apply NoDup_app in Hnd as (_ & Hdisj & _). intros Hin.
  apply (Hdisj t); [|left]. done.
Qed.

(** With its tokenizer and its network in place and the network prepared,
    a run is: execute the batches, score, aggregate. *)
Lemma evaluate_unfold (env : @Collaborators Raw Args M World) acc model
    (tasks : list (@Task Raw Ctx Info Args V M J World)) (cfg : Config)
    (seed : World) collator net prepared :
  tokenizer model = Some collator →
  inner_model model = Some net →
  prepare_model acc net = Ok prepared →
  evaluate env acc model tasks cfg seed =
  (do q <- execute (request_api env) acc model collator (batch_size cfg)
             (built env cfg seed tasks);
   do vals <- score (build_task_dict (get_task_template_key env) tasks)
                (docs (built env cfg seed tasks)) q;
   do ag <- aggregate (split_task_template_key env) (stderr_for_metric env)
              (build_task_dict (get_task_template_key env) tasks)
              (bootstrap_iters cfg) (rng (built env cfg seed tasks)) vals;
   Ok (mkEvalOutput (ag_metric_results ag) (versions (built env cfg seed tasks))
         (ag_results ag))).
Proof.
  intros Htok Hnet Hprep. unfold evaluate.
  pose proof (build_aligned (shuffle env) (num_fewshot cfg) (limit cfg) seed
                (build_task_dict (get_task_template_key env) tasks)) as Hal.
  fold (built env cfg seed tasks) in Hal.
  rewrite (requests_datasets_Ok _ Hal) by apply build_nonempty.
  cbn [rbind].
  rewrite (requests_data_loaders_Ok model collator _ Htok)
    by (by destruct Hal as (_ & ? & _)).
  cbn [rbind]. rewrite Hnet. cbn [rbind of_option]. rewrite Hprep. cbn [rbind].
  done.
Qed.

(** A run that builds no request needs the network only. *)
Lemma evaluate_no_requests (env : @Collaborators Raw Args M World) acc model
    (tasks : list (@Task Raw Ctx Info Args V M J World)) (cfg : Config)
    (seed : World) :
  requests (built env cfg seed tasks) = [] →
  evaluate env acc model tasks cfg seed =
  (do net <- of_option AttributeError (inner_model model);
   do prepared <- prepare_model acc net;
   do vals <- score (build_task_dict (get_task_template_key env) tasks)
                (docs (built env cfg seed tasks)) [];
   do ag <- aggregate (split_task_template_key env) (stderr_for_metric env)
              (build_task_dict (get_task_template_key env) tasks)
              (bootstrap_iters cfg) (rng (built env cfg seed tasks)) vals;
   Ok (mkEvalOutput (ag_metric_results ag) (versions (built env cfg seed tasks))
         (ag_results ag))).
Proof.
  intros Hnil. unfold evaluate, requests_datasets. rewrite Hnil. done.
Qed.

End run_loaders.

(** ** Unregistered request types *)

Section unregistered.
Context {Raw Ctx Info Args V M J World Batch Net : Type}.
Implicit Types (acc : @Accelerator Args Net) (model : @LM Args V Batch Net).
Implicit Types (st : @BuildState Raw Info Args World).
Implicit Types (api : @RequestApi Args) (collator : list Tok → result Batch).

Lemma exec_step_first_batch api acc model t collator
    (origins : list (@Origin Raw Info)) n_steps N
    (s : list ((string * Z) * list (@QEntry Info V)) * Z) step shards :
  getattr model t = None →
  exec_step api acc model t collator origins n_steps N s (step, shards) =
  match fetch api model collator (nth (process_index acc) shards []) with
  | Ok _ => Raise AttributeError
  | Raise e => Raise e
  end.
Proof.
  intros Hm. unfold exec_step, step_triples.
  destruct (fetch _ _ _ _) as [b|e]; cbn [rbind]; [|done].
  by rewrite Hm.
Qed.

Lemma execute_first_batch api acc model collator (B : nat) st pre t reqs post q1
    shards rest :
  requests st = pre ++ (t, reqs) :: post →
  getattr model t = None →
  prepare_data_loader acc (DataLoader B reqs) = shards :: rest →
  execute_loaders api acc model (requests_origin st)
    (prepare_loaders acc B ((λ tr, (tr.1, (tr.2, collator))) <$> pre)) = Ok q1 →
  execute api acc model collator B st =
  match fetch api model collator (nth (process_index acc) shards []) with
  | Ok _ => Raise AttributeError
  | Raise e => Raise e
  end.
Proof.
  intros Hreq Hm Hloader Hpre. unfold execute, loaders_of. rewrite Hreq.
  rewrite fmap_app, fmap_cons. unfold prepare_loaders at 1.
  rewrite fmap_app, fmap_cons. cbn [fst snd].
  fold (prepare_loaders acc B ((λ tr, (tr.1, (tr.2, collator))) <$> pre)).
  unfold execute_loaders in *. rewrite rfold_app, Hpre. cbn [rbind].
  rewrite rfold_cons. unfold exec_type at 1.
  cbn [loader_steps loader_collator loader_dataset]. rewrite Hloader.
  unfold enumerate. cbn [enumerate_from]. rewrite rfold_cons.
  rewrite exec_step_first_batch by done.
  by destruct (fetch _ _ _ _).
Qed.

(** C7, amended.  The multiplexer groups a request whatever its type.  A
    request type the model has no capability for makes the run fail with
    AttributeError when the executor reaches the first batch of that type,
    after the request types grouped before it have been executed, provided
    the loader can present this batch; if it cannot, the run fails at the
    same point with the exception of the loader. *)
Theorem C7_unregistered_type_fails_at_execution :
  (∀ key doc d info st i req,
     last (dl_get (requests (mux_request key doc d info st (i, req)))
             (request_type req)) =
     Some (mkRequest (request_type req) (args req) (index req) d
             (Z.of_nat (length (dl_get (requests_origin st) (request_type req)))))) ∧
  (∀ (env : @Collaborators Raw Args M World) acc model
     (tasks : list (@Task Raw Ctx Info Args V M J World)) cfg seed collator net
     prepared pre t reqs post q1 shards rest,
     let st := built env cfg seed tasks in
     tokenizer model = Some collator →
     inner_model model = Some net →
     prepare_model acc net = Ok prepared →
     requests st = pre ++ (t, reqs) :: post →
     getattr model t = None →
     prepare_data_loader acc (DataLoader (batch_size cfg) reqs) = shards :: rest →
     execute_loaders (request_api env) acc model (requests_origin st)
       (prepare_loaders acc (batch_size cfg)
          ((λ tr, (tr.1, (tr.2, collator))) <$> pre)) = Ok q1 →
     evaluate env acc model tasks cfg seed =
     match fetch (request_api env) model collator
             (nth (process_index acc) shards []) with
     | Ok _ => Raise AttributeError
     | Raise e => Raise e
     end).
Proof.
  split.
  - intros key doc d info st i req.
    rewrite mux_request_requests, dl_get_append_eq. apply last_snoc.
  - intros env acc model tasks cfg seed collator net prepared pre t reqs post q1
      shards rest st Htok Hnet Hprep Hreq Hm Hloader Hpre.
    rewrite (evaluate_unfold env acc model tasks cfg seed collator net prepared)
      by done.
    fold st.
    rewrite (execute_first_batch (request_api env) acc model collator
               (batch_size cfg) st pre t reqs post q1 shards rest) by done.
    by destruct (fetch _ _ _ _).
Qed.

End unregistered.

(** C7 as the specification states it fails: the request of the type
    ["perplexity"], which the backend does not have, is grouped without an
    error, the batch of the type grouped before it is executed and
    reconciled, and only then the run fails. *)
Lemma C7_counterexample :
  let st := built (Demo.env Demo.no_stderr) (Demo.cfg 1) 0 DemoRuns.unregistered in
  getattr Demo.lm "perplexity" = None ∧
  od_get (requests st) "perplexity" =
    Some [mkRequest "perplexity" [2000; 0] (Some 0) 0 0] ∧
  (∃ q1, execute_loaders Demo.api (single_process (Net:=unit)) Demo.lm
           (requests_origin st)
           (prepare_loaders (single_process (Net:=unit)) 1
              [("loglikelihood"%string,
                (dl_get (requests st) "loglikelihood", Demo.collator))]) = Ok q1 ∧
         od_keys q1 = [("t"%string, 0)]) ∧
  evaluate (Demo.env Demo.no_stderr) single_process Demo.lm DemoRuns.unregistered
    (Demo.cfg 1) 0 = Raise AttributeError.
Proof.
  split_and!; [reflexivity|vm_compute; reflexivity| |vm_compute; reflexivity].
  eexists. split; vm_compute; reflexivity.
Qed.

Lemma C7_witness :
  evaluate (Demo.env Demo.no_stderr) single_process Demo.lm DemoRuns.unregistered
    (Demo.cfg 1) 0 = Raise AttributeError.
Proof.
  refine (eq_trans
    (proj2 (C7_unregistered_type_fails_at_execution (Raw:=Z) (Ctx:=unit)
              (Info:=unit) (Args:=Z) (V:=Z) (M:=Z) (J:=string) (World:=Z)
              (Batch:=list Z) (Net:=unit))
       (Demo.env Demo.no_stderr) single_process Demo.lm DemoRuns.unregistered
       (Demo.cfg 1) 0 Demo.collator tt tt
       [("loglikelihood"%string, [mkRequest "loglikelihood" [1000; 0] (Some 0) 0 0])]
       "perplexity"%string [mkRequest "perplexity" [2000; 0] (Some 0) 0 0] []
       [(("t"%string, 0), [mkQEntry 0 (RItem 1000) (mkLoggingInfo tt 0) 0])]
       [[mkRequest "perplexity" [2000; 0] (Some 0) 0 0]] []
       _ _ _ _ _ _ _) _).
  - reflexivity.
  - reflexivity.
  - reflexivity.
  - vm_compute; reflexivity.
  - reflexivity.
  - vm_compute; reflexivity.
  - vm_compute; reflexivity.
  - vm_compute; reflexivity.
Defined.

(** ** Determinism *)


Section determinism.
Context {Raw Ctx Info Args V M J World Batch Net : Type}.
Abbreviation TaskD := (@Task Raw Ctx Info Args V M J World).
Abbreviation BuildStateD := (@BuildState Raw Info Args World).
Implicit Types (st : BuildStateD) (task : TaskD).
Implicit Types (acc : @Accelerator Args Net) (model : @LM Args V Batch Net).
Implicit Types (api : @RequestApi Args) (collator : list Tok → result Batch).








End determinism.


(** ** Responses of more than one row *)

Lemma zip_star_length {A} (rows : list (list A)) (k : nat) :
  rows ≠ [] → Forall (λ row, length row = k) rows → length (zip_star rows) = k.
Proof.
  induction rows as [|c cs IH]; [done|]. intros _ HF.
  apply Forall_cons in HF as [Hc Hcs]. cbn [zip_star].
  destruct cs as [|c' cs'].
  - by rewrite length_fmap.
  - rewrite length_zip_with, IH by done. lia.
Qed.

Lemma zip_star_lookup {A} (rows : list (list A)) (j : nat) resp :
  zip_star rows !! j = Some resp →
  Forall2 (λ row v, row !! j = Some v) rows resp.
Proof.
  revert resp. induction rows as [|c cs IH]; intros resp; [done|].
  cbn [zip_star]. destruct cs as [|c' cs'].
  - rewrite list_lookup_fmap. destruct (c !! j) as [v|] eqn:Hv; [|done].
    intros [= <-]. by repeat constructor.
  - intros H. apply lookup_zip_with_Some in H as (v & r & -> & Hv & Hr).
    constructor; [done|]. by apply IH.
Qed.

Lemma zip3_length {A B C} (a : list A) (b : list B) (c : list C) :
  length (zip3 a b c) = ((length a `min` length b) `min` length c)%nat.
Proof.
  revert b c. induction a as [|x a IH]; intros [|y b] [|z c]; simpl; try done; try lia.
  rewrite IH. lia.
Qed.

Lemma zip3_lookup {A B C} (a : list A) (b : list B) (c : list C) j x y z :
  zip3 a b c !! j = Some (x, y, z) →
  a !! j = Some x ∧ b !! j = Some y ∧ c !! j = Some z.
Proof.
  revert b c j. induction a as [|x' a IH]; intros [|y' b] [|z' c] [|j]; simpl; try done.
  - by intros [= -> -> ->].
  - apply IH.
Qed.

Section rows.
Context {Args V Batch Net : Type}.

(** X18. Without distributed execution, a response of more than one
    element is transposed before it is paired with the ids of the batch
    (lines 334-335 and 342): the request at position [j] of the batch is
    paired with the elements at position [j] of all elements of the
    response.  When the response has one row of [k] elements per request,
    only the first [k] requests of the batch reach reconciliation, each
    with a column of the rows and not with its own row. *)
Theorem X18_response_rows_are_transposed (api : @RequestApi Args)
    (acc : @Accelerator Args Net) (model : @LM Args V Batch Net) (t : string)
    (collator : list Tok → result Batch)
    (capability : Batch → Batch → Batch → result (list (list V)))
    (n_steps N : nat) (seen step : Z) (shards : list (list (@Request Args)))
    (b : @Collated Batch) (rows : list (list V)) :
  use_distributed acc = false →
  fetch api model collator (nth (process_index acc) shards []) = Ok b →
  getattr model t = Some capability →
  capability (context_batch b) (target_batch b) (decoder_tokens_batch b) = Ok rows →
  (1 < length rows)%nat →
  ∃ ts,
    step_triples api acc model t collator n_steps N seen (step, shards)
    = Ok (ts, seen) ∧
    (∀ k : nat, Forall (λ row, length row = k) rows →
       length ts = (length (nth (process_index acc) shards []) `min` k)%nat) ∧
    ∀ (j : nat) u d resp, ts !! j = Some (u, d, resp) →
      unique_request_id_batch b !! j = Some u ∧
      doc_id_batch b !! j = Some d ∧
      Forall2 (λ row v, row !! j = Some v) rows resp.
Proof.
  intros Hd Hb Hcap Hrows Hlen. eexists. split_and!.
  - unfold step_triples. rewrite Hb. cbn [rbind]. rewrite Hcap. cbn [rbind of_option].
    rewrite Hrows. cbn [rbind]. rewrite Hd. cbn [rbind].
    by rewrite bool_decide_eq_true_2.
  - intros k Hk. rewrite zip3_length.
    rewrite (zip_star_length rows k); [|intros ->; simpl in Hlen; lia|done].
    apply fetch_inv in Hb as (_ & samples & HF & -> & ->).
    rewrite !length_fmap. apply Forall2_length in HF. lia.
  - intros j u d resp Hj. apply zip3_lookup in Hj as (Hu & Hdoc & Hr).
    split_and!; [done..|]. by apply zip_star_lookup.
Qed.

End rows.

Lemma X18_witness :
  let st := built (Demo.env Demo.no_stderr) (Demo.cfg 3) 0 DemoRuns.generation in
  (∃ ts, step_triples Demo.api (single_process (Net:=unit)) Demo.lm "greedy_until"
           Demo.collator 1 3 0 (0, [dl_get (requests st) "greedy_until"])
         = Ok (ts, 0) ∧
         length ts = 2%nat) ∧
  length (constructed st) = 3%nat ∧
  ∃ q, execute Demo.api (single_process (Net:=unit)) Demo.lm Demo.collator 3 st = Ok q ∧
       recovered q = [("t"%string, 0, 0); ("t"%string, 1, 0)] ∧
       (q_response <$> dl_get q ("t"%string, 1)) = [RItem 1001].
Proof.
  split_and!.
  - destruct (X18_response_rows_are_transposed Demo.api (single_process (Net:=unit))
                Demo.lm "greedy_until" Demo.collator
                (λ context _ _, Ok ((λ a, [a; a + 1]) <$> context)) 1 3 0 0
                [dl_get (requests (built (Demo.env Demo.no_stderr) (Demo.cfg 3) 0
                                     DemoRuns.generation)) "greedy_until"]
                (mkCollated [0; 0; 0] [0; 1; 2] [0; 1; 2] [1000; 1010; 1020] [0; 0; 0]
                   [1000; 1010; 1020])
                [[1000; 1001]; [1010; 1011]; [1020; 1021]])
      as (ts & Hts & Hlen & _).
    + reflexivity.
    + vm_compute; reflexivity.
    + reflexivity.
    + reflexivity.
    + simpl; lia.
    + exists ts. split; [exact Hts|].
      rewrite (Hlen 2%nat) by (repeat constructor). reflexivity.
  - vm_compute; reflexivity.
  - eexists. split_and!; vm_compute; reflexivity.
Defined.

(** ** From execution to scoring *)

Lemma rfold_Ok_inv {A S} (body : S → A → result S) (P : S → Prop) l s s' :
  (∀ s x s', x ∈ l → P s → body s x = Ok s' → P s') →
  P s → rfold body s l = Ok s' → P s'.
Proof.
  revert s. induction l as [|x l IH]; intros s Hstep Hs; simpl.
  - by intros [= <-].
  - intros H. apply rbind_Ok in H as (s1 & Hx & H).
    eapply (IH s1); [|by eapply Hstep; [left|..]|done].
    intros s2 y s3 Hy. apply Hstep. by right.
Qed.



Section scoring.
Context {Raw Ctx Info Args V M J World Batch Net : Type}.
Abbreviation TaskZ := (@Task Raw Ctx Info Args V M J World).
Abbreviation BuildStateZ := (@BuildState Raw Info Args World).
Abbreviation QueueZ := (list ((string * Z) * list (@QEntry Info V))).
Implicit Types (st : BuildStateZ) (task : TaskZ) (q : QueueZ).
Implicit Types (acc : @Accelerator Args Net) (model : @LM Args V Batch Net).
Implicit Types (api : @RequestApi Args).








End scoring.


(** ** From scoring to the result table *)

Lemma od_get_set_is_Some {K A} `{EqDecision K} (d : list (K * A)) k v k' :
  is_Some (od_get d k') → is_Some (od_get (od_set d k v) k').
Proof.
  intros H. destruct (decide (k = k')) as [->|Hne].
  - by rewrite od_get_set_eq.
  - by rewrite od_get_set_ne.
Qed.

Lemma od_get_fmap {K A B} `{EqDecision K} (f : A → B) (d : list (K * A)) k :
  od_get ((λ kv, (kv.1, f kv.2)) <$> d) k = f <$> od_get d k.
Proof.
  induction d as [|[k0 v0] d IH]; csimpl; [done|].
  destruct (decide (k0 = k)); [done|apply IH].
Qed.

Section tables.
Context {Raw Ctx Info Args V M J World : Type}.
Abbreviation TaskW := (@Task Raw Ctx Info Args V M J World).
Abbreviation CellW := (@Cell M J).
Abbreviation AggStateW := (@AggState M J World).
Implicit Types (task_dict : list (string * TaskW)) (st : AggStateW).
Implicit Types (results : list (string * list (string * CellW))).
Implicit Types (dict : list (string * CellW)).

Lemma dd_set_get results key field (c : CellW) key' :
  od_get (dd_set results key field c) key' =
  if decide (key = key')
  then Some (od_set (default [] (od_get results key)) field c)
  else od_get results key'.
Proof.
  unfold dd_set. destruct (decide (key = key')) as [<-|Hne].
  - apply od_get_set_eq.
  - by apply od_get_set_ne.
Qed.

Lemma dict_ok_set dict field (c : CellW) :
  dict_ok dict →
  (field = "task_name"%string ∨ field = "prompt_name"%string ∨ ∃ m, c = CMetric m) →
  dict_ok (od_set dict field c).
Proof.
  intros Hd Hc f c' Hin. apply od_set_elem in Hin as [Hin|[-> ->]]; [by eapply Hd|done].
Qed.


Lemma table_well_formed_set task_dict results key field (c : CellW) :
  is_Some (od_get task_dict key) →
  (field = "task_name"%string ∨ field = "prompt_name"%string ∨ ∃ m, c = CMetric m) →
  is_Some (od_get results key) →
  table_well_formed task_dict results →
  table_well_formed task_dict (dd_set results key field c).
Proof.
  intros Hk Hc [D HD] [Hnd Hall]. split; [by apply od_keys_set_NoDup|].
  intros key' dict. rewrite dd_set_get. destruct (decide (key = key')) as [<-|Hne].
  - rewrite HD. simpl. intros [= <-].
    destruct (Hall key D HD) as (_ & Hn1 & Hn2 & HndD & Hok).
    split_and!; [done|by apply od_get_set_is_Some..|by apply od_keys_set_NoDup|].
    by apply dict_ok_set.
  - apply Hall.
Qed.

Lemma table_well_formed_names task_dict results key (a b : CellW) :
  is_Some (od_get task_dict key) →
  table_well_formed task_dict results →
  table_well_formed task_dict
    (dd_set (dd_set results key "task_name" a) key "prompt_name" b) ∧
  is_Some (od_get (dd_set (dd_set results key "task_name" a) key "prompt_name" b) key).
Proof.
  intros Hk [Hnd Hall]. split; [|rewrite dd_set_get; by rewrite decide_True].
  split; [by do 2 apply od_keys_set_NoDup|].
  intros key' dict. rewrite dd_set_get. destruct (decide (key = key')) as [<-|Hne].
  - rewrite dd_set_get, decide_True by done. simpl. intros [= <-].
    assert (NoDup (od_keys (default [] (od_get results key))) ∧
            dict_ok (default [] (od_get results key))) as [HndD Hok].
    { destruct (od_get results key) as [D|] eqn:HD; simpl.
      - by destruct (Hall key D HD) as (_ & _ & _ & ? & ?).
      - split; [constructor|]. intros f c H. by apply elem_of_nil in H. }
    split_and!; [done| | | |].
    + apply od_get_set_is_Some. by rewrite od_get_set_eq.
    + by rewrite od_get_set_eq.
    + by do 2 apply od_keys_set_NoDup.
    + apply dict_ok_set; [apply dict_ok_set|]; [done|by left|by right; left].
  - rewrite dd_set_get, decide_False by done. apply Hall.
Qed.

Lemma aggregate_one_well_formed split sfm task_dict iters st key metric items st' :
  aggregate_one split sfm task_dict iters st ((key, metric), items) = Ok st' →
  table_well_formed task_dict (ag_results st) →
  table_well_formed task_dict (ag_results st').
Proof.
  unfold aggregate_one. destruct (split key) as [name prompt].
  destruct (od_get task_dict key) as [task|] eqn:Ht; cbn [rbind of_option]; [|done].
  destruct (od_get (aggregation task) metric) as [reduce|] eqn:Hagg;
    cbn [rbind of_option]; [|done].
  destruct (reduce items (ag_world st)) as [[v1 w1]|] eqn:Hr1;
    cbn [rbind fst snd]; [|done].
  destruct (reduce items w1) as [[v2 w2]|] eqn:Hr2; cbn [rbind fst snd]; [|done].
  intros H Hwf.
  destruct (table_well_formed_names task_dict (ag_results st) key (CStr name)
              (name_cell prompt)) as [Hwf2 Hin2]; [done..|].
  assert (table_well_formed task_dict
            (dd_set (dd_set (dd_set (ag_results st) key "task_name" (CStr name))
                       key "prompt_name" (name_cell prompt))
               key metric (CMetric v1))) as Hwf3.
  { apply table_well_formed_set; [done| |done..]. right; right. by eexists. }
  destruct (sfm reduce (stderr_iters iters metric)) as [stderr|] eqn:Hs.
  - apply rbind_Ok in H as ([s1 w3] & Hs1 & H).
    apply rbind_Ok in H as ([s2 w4] & Hs2 & H).
    cbn [fst snd] in *. injection H as <-. cbn [ag_results].
    apply table_well_formed_set; [done| | |done].
    + right; right. by eexists.
    + rewrite dd_set_get. by rewrite decide_True.
  - by injection H as <-.
Qed.

Lemma aggregate_well_formed split sfm task_dict iters w vals (ag : AggStateW) :
  aggregate split sfm task_dict iters w vals = Ok ag →
  table_well_formed task_dict (ag_results ag).
Proof.
  unfold aggregate.
  apply (rfold_Ok_inv _ (λ s, table_well_formed task_dict (ag_results s))).
  - intros s [[key metric] items] s' _ Hs H. by eapply aggregate_one_well_formed.
  - split; [constructor|]. intros key dict H. done.
Qed.



Lemma evaluate_table_well_formed (env : @Collaborators Raw Args M World) (cfg : Config)
    (seed : World) (tasks : list TaskW) {Batch Net : Type}
    (acc : @Accelerator Args Net) (model : @LM Args V Batch Net) out :
  evaluate env acc model tasks cfg seed = Ok out →
  table_well_formed (build_task_dict (get_task_template_key env) tasks)
    (out_table_results out) ∧
  out_versions out = version_entry <$> build_task_dict (get_task_template_key env) tasks.
Proof.
  intros H.
  apply evaluate_inv in H
    as (? & ? & ? & ? & q & vals & ag & _ & _ & _ & _ & _ & _ & Hag & ->).
  simpl. split.
  - by eapply aggregate_well_formed.
  - apply build_versions, build_task_dict_NoDup.
Qed.

End tables.

(** ** The result table *)

Lemma rfold_Ok_prefix_inv {A S} (body : S → A → result S) (P : list A → S → Prop)
    l s s' :
  P [] s →
  (∀ pre x post s s1, l = pre ++ x :: post → P pre s → body s x = Ok s1 →
     P (pre ++ [x]) s1) →
  rfold body s l = Ok s' → P l s'.
Proof.
  intros H0 Hstep.
  assert (∀ rest pre s, l = pre ++ rest → P pre s →
            rfold body s rest = Ok s' → P l s') as Hgen.
  { induction rest as [|x rest IH]; intros pre s0 Hl Hp; simpl.
    - intros [= <-]. by rewrite Hl, app_nil_r.
    - intros H. apply rbind_Ok in H as (s1 & Hx & H).
      apply (IH (pre ++ [x]) s1); [by rewrite <- app_assoc| |done].
      by eapply Hstep. }
  by apply (Hgen l []).
Qed.

Section table_facts.
Context {Raw Ctx Info Args V M J World : Type}.
Abbreviation TaskV := (@Task Raw Ctx Info Args V M J World).
Abbreviation CellV := (@Cell M J).
Abbreviation RowV := (@Row M J).
Implicit Types (dict : list (string * CellV)) (format_4f : CellV → result string).
Implicit Types (values rows : list RowV).

Lemma table_row_Ok format_4f dict st m v :
  (∀ x, ∃ s, format_4f (CMetric x) = Ok s) →
  dict_ok dict →
  is_Some (od_get dict "task_name") → is_Some (od_get dict "prompt_name") →
  (m, v) ∈ dict →
  ∃ st', table_row format_4f dict st (m, v) = Ok st'.
Proof.
  intros Hfmt Hok [tn Htn] [pn Hpn] Hin. unfold table_row. destruct st as [values ver].
  destruct (endswith m "_stderr"); [by eexists|].
  destruct (str_contains "_name" m) eqn:Hname; [by eexists|].
  assert (∃ x, v = CMetric x) as [x ->].
  { destruct (Hok m v Hin) as [->|[->|?]]; [by vm_compute in Hname..|done]. }
  rewrite Htn, Hpn. cbn [rbind of_option].
  destruct (Hfmt x) as [s ->]. cbn [rbind].
  destruct (od_get dict (m +:+ "_stderr")) as [se|] eqn:Hse; [|by eexists].
  apply od_get_Some_elem in Hse.
  destruct (stderr_key_not_name m) as [H1 H2]. unfold stderr_key in *.
  destruct (Hok _ _ Hse) as [?|[?|[y ->]]]; [done..|].
  destruct (Hfmt y) as [s' ->]. by eexists.
Qed.

Lemma make_table_values_Ok (task_dict : list (string * TaskV)) format_4f
    (out : @EvalOutput M J) :
  (∀ x, ∃ s, format_4f (CMetric x) = Ok s) →
  table_well_formed task_dict (out_table_results out) →
  out_versions out = version_entry <$> task_dict →
  ∃ values, make_table_values format_4f out = Ok values.
Proof.
  intros Hfmt [Hnd Hall] Hv. unfold make_table_values.
  destruct (rfold_prefix_inv (table_rows format_4f (out_versions out))
              (λ _ _, True) (out_table_results out) []) as (values & H & _);
    [done| |by exists values].
  intros pre [k dict] post values Hl _.
  assert (od_get (out_table_results out) k = Some dict) as Hk.
  { apply od_elem_get; [done|]. rewrite Hl. apply elem_of_app. right. left. }
  destruct (Hall k dict Hk) as ([task Htask] & Hn1 & Hn2 & _ & Hok).
  unfold table_rows. rewrite Hv. unfold version_entry.
  rewrite (od_get_fmap VERSION), Htask. cbn [fmap option_fmap option_map rbind of_option].
  destruct (rfold_prefix_inv (table_row format_4f dict) (λ _ _, True) dict
              (values, inl (VERSION task))) as (st & Hst & _); [done| |].
  - intros pre' [m v] post' st Hl' _.
    destruct (table_row_Ok format_4f dict st m v) as [st' Hst']; [done..| |by exists st'].
    rewrite Hl'. apply elem_of_app. right. left.
  - rewrite Hst. cbn [rbind]. by eexists.
Qed.

(** X8. [make_table] after [evaluate]: on the output of any run that
    returns, the value matrix of the result table is built without KeyError
    (every key of [table_results] has a version, every results dictionary
    holds both names) and without formatting a cell that is not a metric
    value, provided metric values can be formatted. *)
Theorem X8_table_of_every_result (env : @Collaborators Raw Args M World) (cfg : Config)
    (seed : World) (tasks : list TaskV) {Batch Net : Type}
    (acc : @Accelerator Args Net) (model : @LM Args V Batch Net) format_4f out :
  evaluate env acc model tasks cfg seed = Ok out →
  (∀ x, ∃ s, format_4f (CMetric x) = Ok s) →
  ∃ values, make_table_values format_4f out = Ok values.
Proof.
  intros Hout Hfmt.
  destruct (evaluate_table_well_formed env cfg seed tasks acc model out Hout)
    as [Hwf Hv].
  by eapply make_table_values_Ok.
Qed.

(** The state of the loop over a results dictionary after the fields
    [pre]. *)
Lemma table_row_rows format_4f dict version values st' :
  rfold (table_row format_4f dict) (values, inl version) dict = Ok st' →
  ∃ rows,
    st'.1 = values ++ rows ∧
    row_metric <$> rows = (filter (λ mv, shown mv.1 = true) dict).*1 ∧
    (∀ (i : nat) row, rows !! i = Some row →
       row_version row = if decide (i = 0%nat) then inl version else inr ""%string) ∧
    (∀ row, row ∈ rows →
       match od_get dict (row_metric row +:+ "_stderr") with
       | Some se => row_sign row = "±"%string ∧ format_4f se = Ok (row_stderr row)
       | None => row_sign row = ""%string ∧ row_stderr row = ""%string
       end).
Proof.
  intros Hrun.
  set (P := λ (pre : list (string * CellV)) (st : list RowV * (Z + string)),
    ∃ rows,
      st.1 = values ++ rows ∧
      st.2 = (if decide (rows = []) then inl version else inr ""%string) ∧
      row_metric <$> rows = (filter (λ mv, shown mv.1 = true) pre).*1 ∧
      (∀ (i : nat) row, rows !! i = Some row →
         row_version row = if decide (i = 0%nat) then inl version else inr ""%string) ∧
      (∀ row, row ∈ rows →
         match od_get dict (row_metric row +:+ "_stderr") with
         | Some se => row_sign row = "±"%string ∧ format_4f se = Ok (row_stderr row)
         | None => row_sign row = ""%string ∧ row_stderr row = ""%string
         end)).
  assert (P dict st') as (rows & ? & _ & ? & ? & ?); [|by exists rows].
  revert Hrun. apply (rfold_Ok_prefix_inv _ P); unfold P.
  - exists []. split_and!; [by rewrite app_nil_r|done|done| |].
    + intros i row H. by rewrite lookup_nil in H.
    + intros row H. by apply elem_of_nil in H.
  - intros pre [m v] post [vs ver] st1 Hl (rows & Hvs & Hver & Hmet & Hvers & Hsign) H.
    cbn [fst snd] in *. subst vs ver.
    rewrite filter_app, fmap_app. unfold table_row in H. unfold shown at 1. cbn [fst].
    destruct (endswith m "_stderr") eqn:He.
    { injection H as <-. exists rows. cbn [fst snd].
      rewrite filter_cons_False, filter_nil, app_nil_r by (unfold shown; cbn; by rewrite He).
      done. }
    destruct (str_contains "_name" m) eqn:Hn.
    { injection H as <-. exists rows. cbn [fst snd].
      rewrite filter_cons_False, filter_nil, app_nil_r
        by (unfold shown; cbn; by rewrite He, Hn).
      done. }
    rewrite filter_cons_True, filter_nil by (unfold shown; cbn; by rewrite He, Hn).
    assert (∃ row, st1 = (values ++ rows ++ [row], inr ""%string) ∧
                   row_metric row = m ∧
                   row_version row =
                     (if decide (rows = []) then inl version else inr ""%string) ∧
                   match od_get dict (m +:+ "_stderr") with
                   | Some se => row_sign row = "±"%string ∧
                                format_4f se = Ok (row_stderr row)
                   | None => row_sign row = ""%string ∧ row_stderr row = ""%string
                   end) as (row & -> & Hm & Hv & Hs).
    { destruct (od_get dict (m +:+ "_stderr")) as [se|].
      - apply rbind_Ok in H as (tn & _ & H). apply rbind_Ok in H as (pn & _ & H).
        apply rbind_Ok in H as (val & _ & H). apply rbind_Ok in H as (sd & Hsd & H).
        injection H as <-. eexists. rewrite <- app_assoc. split; [done|]. done.
      - apply rbind_Ok in H as (tn & _ & H). apply rbind_Ok in H as (pn & _ & H).
        apply rbind_Ok in H as (val & _ & H).
        injection H as <-. eexists. rewrite <- app_assoc. split; [done|]. done. }
    exists (rows ++ [row]). cbn [fst snd]. split_and!.
    + done.
    + rewrite decide_False; [done|]. by destruct rows.
    + rewrite fmap_app, Hmet. simpl. by rewrite Hm.
    + intros i r Hi. apply lookup_app_Some in Hi as [Hi|[Hge Hi]]; [by apply Hvers|].
      apply list_lookup_singleton_Some in Hi as [Hi ->]. rewrite Hv.
      destruct rows as [|r0 rows]; simpl in *.
      * by rewrite !decide_True by (done || lia).
      * by rewrite !decide_False by (done || lia).
    + intros r Hr. apply elem_of_app in Hr as [Hr|Hr]; [by apply Hsign|].
      apply list_elem_of_singleton in Hr as ->. by rewrite Hm.
Qed.

(** X9. The rows [make_table] adds for one task: one row for every field
    of the results dictionary that neither ends in ["_stderr"] nor contains
    ["_name"], in the order of the dictionary; the version is shown on the
    first of these rows and blank on the others; and the sign and the
    standard-error column are filled exactly when the dictionary has the
    field of the metric followed by ["_stderr"]. *)
Theorem X9_table_rows_of_a_task format_4f (versions : list (string * Z)) values k dict
    values' :
  table_rows format_4f versions values (k, dict) = Ok values' →
  ∃ version rows,
    od_get versions k = Some version ∧
    values' = values ++ rows ∧
    row_metric <$> rows = (filter (λ mv, shown mv.1 = true) dict).*1 ∧
    (∀ (i : nat) row, rows !! i = Some row →
       row_version row = if decide (i = 0%nat) then inl version else inr ""%string) ∧
    (∀ row, row ∈ rows →
       match od_get dict (row_metric row +:+ "_stderr") with
       | Some se => row_sign row = "±"%string ∧ format_4f se = Ok (row_stderr row)
       | None => row_sign row = ""%string ∧ row_stderr row = ""%string
       end).
Proof.
  unfold table_rows. intros H.
  apply rbind_Ok in H as (version & Hv & H).
  apply rbind_Ok in H as (st & Hst & [= <-]).
  destruct (od_get versions k) as [ver|] eqn:Hk; [|done]. injection Hv as ->.
  destruct (table_row_rows _ _ _ _ _ Hst) as (rows & ? & ? & ? & ?).
  by exists version, rows.
Qed.

End table_facts.

(** ** The limit on the documents of a task *)

Section limits.
Context {Raw Ctx Info Args V M J World : Type}.
Abbreviation TaskU := (@Task Raw Ctx Info Args V M J World).
Abbreviation BuildStateU := (@BuildState Raw Info Args World).
Implicit Types (st : BuildStateU) (task : TaskU).

Lemma build_task_no_docs shuffle nf st (kt : string * TaskU) :
  requests (build_task shuffle nf (Some 0%nat) st kt) = requests st ∧
  docs (build_task shuffle nf (Some 0%nat) st kt) = docs st.
Proof.
  destruct kt as [key task]. unfold build_task.
  by destruct (shuffle _ _) as [task_docs rng'].
Qed.

Lemma build_no_docs shuffle nf seed (task_dict : list (string * TaskU)) :
  requests (build shuffle nf (Some 0%nat) seed task_dict) = [] ∧
  docs (build shuffle nf (Some 0%nat) seed task_dict) = [].
Proof.
  unfold build. apply (foldl_invariant (λ s, requests s = [] ∧ docs s = [])); [|done].
  intros s kt [Hr Hd]. destruct (build_task_no_docs shuffle nf s kt) as [-> ->]. done.
Qed.

(** X10. With [limit=0] no request is built: there is no dataset, loader or
    batch, and the tokenizer and the capabilities of the model are never
    used.  The run still asks the model for its network and has the
    accelerator prepare it (lines 290-292): it fails with AttributeError
    when the model has none and with the accelerator's exception when the
    preparation fails, and otherwise returns empty results and an empty
    table together with the versions of all tasks of the task dictionary. *)
Theorem X10_limit_zero (env : @Collaborators Raw Args M World) (tasks : list TaskU)
    {Batch Net : Type} (acc : @Accelerator Args Net) (model : @LM Args V Batch Net)
    (nf : Z) (B : nat) (iters : Z) (seed : World) :
  evaluate env acc model tasks (mkConfig nf B iters (Some 0%nat)) seed =
  match inner_model model with
  | None => Raise AttributeError
  | Some net =>
      match prepare_model acc net with
      | Ok _ =>
          Ok (mkEvalOutput []
                (version_entry <$> build_task_dict (get_task_template_key env) tasks)
                [])
      | Raise e => Raise e
      end
  end.
Proof.
  pose proof (build_versions (shuffle env) nf (Some 0%nat) seed
                (build_task_dict (get_task_template_key env) tasks)
                (build_task_dict_NoDup _ _)) as Hv.
  destruct (build_no_docs (shuffle env) nf seed
              (build_task_dict (get_task_template_key env) tasks)) as [Hr _].
  rewrite evaluate_no_requests by exact Hr.
  destruct (inner_model model) as [net|]; cbn [rbind of_option]; [|done].
  destruct (prepare_model acc net) as [prepared|]; cbn [rbind]; [|done].
  unfold built. cbn [num_fewshot limit batch_size bootstrap_iters].
  by rewrite Hv.
Qed.

Lemma build_task_limit shuffle nf (n : nat) st key task :
  (∀ w ds, length (shuffle w ds).1 = length ds) →
  (length (evaluation_docs task) ≤ n)%nat →
  build_task shuffle nf (Some n) st (key, task) =
  build_task shuffle nf None st (key, task).
Proof.
  intros Hsh Hn. unfold build_task.
  set (ds := filter _ _).
  pose proof (Hsh (rng st) ds) as Hlen.
  destruct (shuffle (rng st) ds) as [task_docs rng']. simpl in Hlen.
  unfold islice_to. rewrite take_ge; [done|].
  rewrite Hlen. unfold ds. etrans; [apply length_filter|].
  rewrite length_fmap.
  assert (∀ (xs : list Raw) m, length (enumerate_from m xs) = length xs) as He.
  { induction xs as [|x xs IH]; intros m; simpl; [done|]. by rewrite IH. }
  unfold enumerate. by rewrite He.
Qed.

Lemma foldl_ext_in {A S} (f g : S → A → S) l s :
  (∀ s x, x ∈ l → f s x = g s x) → foldl f s l = foldl g s l.
Proof.
  revert s. induction l as [|x l IH]; intros s H; simpl; [done|].
  rewrite H by left. apply IH. intros s' y Hy. apply H. by right.
Qed.

(** X11. A limit that is at least the number of documents of every task
    is the same as no limit, when [shuffle] returns as many documents as it
    is given: the run returns the same result or fails the same way. *)
Theorem X11_limit_beyond_documents (env : @Collaborators Raw Args M World)
    (tasks : list TaskU) {Batch Net : Type} (acc : @Accelerator Args Net)
    (model : @LM Args V Batch Net) (nf : Z) (B : nat) (iters : Z) (n : nat)
    (seed : World) :
  (∀ w ds, length (shuffle env w ds).1 = length ds) →
  (∀ task, task ∈ tasks → (length (evaluation_docs task) ≤ n)%nat) →
  evaluate env acc model tasks (mkConfig nf B iters (Some n)) seed =
  evaluate env acc model tasks (mkConfig nf B iters None) seed.
Proof.
  intros Hsh Hn.
  assert (built env (mkConfig nf B iters (Some n)) seed tasks =
          built env (mkConfig nf B iters None) seed tasks) as Hb.
  { unfold built, build. cbn [num_fewshot limit].
    apply foldl_ext_in. intros s [key task] Hin.
    apply build_task_limit; [done|]. apply Hn. by eapply build_task_dict_elem. }
  unfold evaluate. by rewrite Hb.
Qed.

End limits.

(** ** The cache name *)

Section cache_facts.
Import (notations) Stdlib.Strings.Ascii.

Lemma cache_args_cons c s :
  cache_args (String c s) = String (cache_char c) (cache_args s).
Proof.
  unfold cache_args, cache_char. cbn [replace_char]. f_equal.
  destruct (Ascii.eqb c "=") eqn:H1.
  { apply Ascii.eqb_eq in H1 as ->. done. }
  destruct (Ascii.eqb c ",") eqn:H2.
  { apply Ascii.eqb_eq in H2 as ->. done. }
  destruct (Ascii.eqb c "/") eqn:H3.
  { apply Ascii.eqb_eq in H3 as ->. done. }
  apply Ascii.eqb_neq in H1, H2, H3.
  rewrite bool_decide_eq_false_2 by naive_solver.
  by rewrite bool_decide_eq_false_2.
Qed.

Lemma cache_char_safe c :
  cache_char c ∉ ["="%char; ","%char; "/"%char].
Proof.
  unfold cache_char. repeat case_bool_decide; rewrite !not_elem_of_cons;
    split_and!; try done; try apply not_elem_of_nil; naive_solver.
Qed.

Lemma cache_char_class a b : cache_char a = cache_char b ↔ same_cache_class a b.
Proof.
  unfold cache_char, same_cache_class.
  rewrite !elem_of_cons, !elem_of_nil.
  repeat case_bool_decide; split; intros Heq; subst; try done; naive_solver.
Qed.

(** X12. The cache name of lines 79-81: the sanitised argument string has
    the length of the argument string and holds none of [=], [,] and [/];
    two argument strings get the same sanitised string exactly when they
    have the same length and agree at every position up to the classes
    [= - /] and [, _]; two such strings share one cache file. *)
Theorem X12_cache_name_collisions :
  (∀ model_args, Forall (λ c, c ∉ ["="%char; ","%char; "/"%char])
                   (chars (cache_args model_args))) ∧
  (∀ model_args, String.length (cache_args model_args) = String.length model_args) ∧
  (∀ a b, cache_args a = cache_args b ↔ same_cache a b) ∧
  (∀ model_api_name a b,
     same_cache a b → cache_location model_api_name a = cache_location model_api_name b).
Proof.
  assert (∀ a b, cache_args a = cache_args b ↔ same_cache a b) as Hcoll.
  { induction a as [|x a IH]; intros [|y b]; try done.
    rewrite !cache_args_cons. simpl. rewrite <- IH, <- cache_char_class.
    split; [by intros [= -> ->] | by intros [-> ->]]. }
  split_and!.
  - induction model_args as [|c s IH]; [constructor|].
    rewrite cache_args_cons. simpl. constructor; [apply cache_char_safe|done].
  - induction model_args as [|c s IH]; [done|].
    rewrite cache_args_cons. simpl. by rewrite IH.
  - done.
  - intros name a b Hab. unfold cache_location. by rewrite (proj2 (Hcoll a b) Hab).
Qed.

End cache_facts.

(** ** The Hugging Face backend *)

Section huggingface_facts.
Import huggingface.

Section model_facts.
Context {Model : Type}.
Implicit Types self : HuggingFaceAutoLM Model.

Lemma max_length_tokenizer_update self n (m : option Model) :
  max_length self = n →
  max_length
    (mkHuggingFaceAutoLM (auto_class self) (_batch_size self)
       (_user_defined_max_generation_length self) (_max_length self) (_config self)
       (mkTokenizer (Some n) (pad_token (tokenizer self)) (eos_token (tokenizer self))
          (decode (tokenizer self))) m) = n.
Proof.
  unfold max_length. simpl.
  destruct (auto_class self), (_max_length self); try done.
  destruct (head _); [done|]. by destruct (model_max_length _).
Qed.

(** X13. A model object that the constructor returns has given its own
    maximum length to its tokenizer, and reading [max_length] again returns
    that same value (also when the value came from the tokenizer); the pad
    token is the end-of-sequence token, and the model was loaded from the
    same revision path as the tokenizer.  A [max_length] argument wins
    over the configuration, and without one a sequence-to-sequence model
    has length 2048 whatever its configuration and tokenizer say. *)
Theorem X13_constructor_fixes_max_length cls config_from_pretrained
    tokenizer_from_pretrained (model_from_pretrained : AutoClass → string → string → result Model)
    pretrained tok_name subfolder revision batch_size udmgl max_length_arg device self :
  init cls config_from_pretrained tokenizer_from_pretrained model_from_pretrained
    pretrained tok_name subfolder revision batch_size udmgl max_length_arg device
  = Ok self →
  model_max_length (tokenizer self) = Some (max_length self) ∧
  pad_token (tokenizer self) = eos_token (tokenizer self) ∧
  (∃ t m,
     tokenizer_from_pretrained (default pretrained tok_name)
       (revision_path revision subfolder) = Ok t ∧
     model_from_pretrained cls pretrained (revision_path revision subfolder) = Ok m ∧
     decode (tokenizer self) = decode t ∧ model self = Some m) ∧
  (∀ n, max_length_arg = Some n → max_length self = n) ∧
  (cls = AutoSeq2SeqLM → max_length_arg = None → max_length self = 2048).
Proof.
  unfold init. destruct device as [d| |]; [|done..].
  destruct batch_size as [b|]; [|done].
  destruct (config_from_pretrained pretrained) as [config|]; [|done]. simpl.
  unfold _create_auto_tokenizer, _create_auto_model.
  destruct (tokenizer_from_pretrained _ _) as [t|] eqn:Ht; [|done]. simpl.
  destruct (model_from_pretrained _ _ _) as [m|] eqn:Hm; [|done]. simpl.
  intros [= <-]. cbn [tokenizer model model_max_length pad_token eos_token decode].
  set (tok := mkTokenizer (model_max_length t) (eos_token t) (eos_token t) (decode t)).
  set (self0 := mkHuggingFaceAutoLM cls b udmgl max_length_arg config tok None).
  pose proof (max_length_tokenizer_update self0 _ (Some m) eq_refl) as Hfix.
  split; [|split; [|split; [|split]]].
  - f_equal. symmetry. exact Hfix.
  - reflexivity.
  - by exists t, m.
  - intros n ->. unfold max_length. simpl. by destruct cls.
  - intros -> ->. done.
Qed.

End model_facts.

Lemma py_slice_from_neg {A} (xs : list A) (k : nat) :
  py_slice_from xs (- (Z.of_nat k + 1)) = drop (length xs - S k) xs.
Proof.
  unfold py_slice_from. rewrite bool_decide_eq_false_2 by lia.
  f_equal. lia.
Qed.

(** X14. A stopping criterion built for a stop sequence of n tokens looks
    only at the first sequence of the batch, and there only at its last
    n + 1 tokens (the whole sequence when it is shorter): it answers
    whether the decoded stop sequence occurs in the decoding of that
    window.  The other sequences of the batch and the earlier tokens never
    change the answer; on an empty batch it raises IndexError. *)
Theorem X14_stop_criterion_window tok ids :
  (∀ row rest,
     MultiTokenEOSCriteria_call tok (MultiTokenEOSCriteria_init tok ids) (row :: rest)
     = Ok (str_contains (decode tok ids)
             (decode tok (drop (length row - S (length ids)) row)))) ∧
  (∀ pre w rest rest',
     length w = S (length ids) →
     MultiTokenEOSCriteria_call tok (MultiTokenEOSCriteria_init tok ids)
       ((pre ++ w) :: rest)
     = MultiTokenEOSCriteria_call tok (MultiTokenEOSCriteria_init tok ids)
         (w :: rest')) ∧
  MultiTokenEOSCriteria_call tok (MultiTokenEOSCriteria_init tok ids) []
  = Raise IndexError.
Proof.
  assert (∀ row rest,
     MultiTokenEOSCriteria_call tok (MultiTokenEOSCriteria_init tok ids) (row :: rest)
     = Ok (str_contains (decode tok ids)
             (decode tok (drop (length row - S (length ids)) row)))) as Hcall.
  { intros row rest. unfold MultiTokenEOSCriteria_call.
    pose proof (py_index_nat (row :: rest) 0 row eq_refl) as Hi.
    change (Z.of_nat 0) with 0 in Hi. rewrite Hi. simpl.
    by rewrite py_slice_from_neg. }
  split; [done|]. split; [|done].
  intros pre w rest rest' Hw. rewrite !Hcall. do 3 f_equal.
  rewrite length_app, Hw.
  replace (length pre + S (length ids) - S (length ids))%nat with (length pre) by lia.
  rewrite drop_app_length. by rewrite Nat.sub_diag.
Qed.

Section generation_facts.
Context {Inputs Generations : Type}.
Implicit Types generate :
  Inputs → list (list Z) → list MultiTokenEOSCriteria → result Generations.

(** X15. [greedy_until] asks the model to generate only when both the
    maximum generation length and the stop sequences are tensors, and then
    with one stopping criterion per row of the stop sequences; in every
    other case it raises without calling the model.  In particular, no
    stop sequences ([None]) pass its assertion but raise TypeError when
    the stopping criteria are built. *)
Theorem X15_greedy_until_guards generate tok context_inputs stop_sequences
    max_generation_length :
  (∀ r, greedy_until generate tok context_inputs stop_sequences max_generation_length
        = Ok r →
     ∃ max_tokens stops,
       max_generation_length = ATensor max_tokens ∧ stop_sequences = ATensor stops ∧
       generate context_inputs max_tokens (MultiTokenEOSCriteria_init tok <$> stops)
       = Ok r) ∧
  ((∀ max_tokens stops,
      ¬ (max_generation_length = ATensor max_tokens ∧ stop_sequences = ATensor stops)) →
   ∀ generate',
     greedy_until generate' tok context_inputs stop_sequences max_generation_length
     = greedy_until generate tok context_inputs stop_sequences max_generation_length) ∧
  (∀ max_tokens,
     greedy_until generate tok context_inputs ANone (ATensor max_tokens)
     = Raise TypeError).
Proof.
  split; [|split].
  - intros r. unfold greedy_until, _model_generate.
    destruct max_generation_length as [mt| |]; [|done..].
    destruct stop_sequences as [ss| |]; [|done..].
    simpl. intros Hr. by exists mt, ss.
  - intros Hnot generate'. unfold greedy_until, _model_generate.
    destruct max_generation_length as [mt| |]; [|done..].
    destruct stop_sequences as [ss| |]; [|done..].
    by destruct (Hnot mt ss).
  - done.
Qed.

End generation_facts.

Section loglikelihood_facts.
Context {Logits Score : Type}.
Implicit Types row_score : Logits → list Z → list Z → result (Score * bool).

Lemma torch_cat_Ok {A} (xs out : list A) :
  torch_cat xs = Ok out → out = xs ∧ xs ≠ [].
Proof. destruct xs; [done|]. by intros [= <-]. Qed.

Lemma loglikelihood_tokens_shape row_score log_softmaxes input_ids attention_mask out :
  _loglikelihood_tokens row_score log_softmaxes input_ids attention_mask = Ok out →
  zip3 log_softmaxes input_ids attention_mask ≠ [] ∧
  length out.1 = length (zip3 log_softmaxes input_ids attention_mask) ∧
  length out.2 = length (zip3 log_softmaxes input_ids attention_mask) ∧
  ∀ (j : nat) row,
    zip3 log_softmaxes input_ids attention_mask !! j = Some row →
    ∃ r, row_score row.1.1 row.1.2 row.2 = Ok r ∧
         out.1 !! j = Some r.1 ∧ out.2 !! j = Some r.2.
Proof.
  unfold _loglikelihood_tokens.
  set (rows := zip3 log_softmaxes input_ids attention_mask).
  set (body := λ (acc : list Score * list bool) (row : Logits * list Z * list Z), _).
  destruct (rfold body ([], []) rows) as [results|] eqn:Hfold; [|done].
  simpl.
  destruct (torch_cat results.1) as [lp|] eqn:Hlp; [|done]. simpl.
  destruct (torch_cat results.2) as [em|] eqn:Hem; [|done]. simpl.
  intros [= <-]. simpl.
  apply torch_cat_Ok in Hlp as [-> Hne1]. apply torch_cat_Ok in Hem as [-> Hne2].
  set (P := λ (pre : list (Logits * list Z * list Z)) (acc : list Score * list bool),
              length acc.1 = length pre ∧ length acc.2 = length pre ∧
              ∀ (j : nat) row, pre !! j = Some row →
                ∃ r, row_score row.1.1 row.1.2 row.2 = Ok r ∧
                     acc.1 !! j = Some r.1 ∧ acc.2 !! j = Some r.2).
  assert (P rows results) as (Hl1 & Hl2 & Hrows).
  { revert Hfold. apply (rfold_Ok_prefix_inv _ P); unfold P.
    - simpl. split; [done|]. split; [done|]. intros j row Hj.
      by rewrite lookup_nil in Hj.
    - intros pre x post acc acc1 _ (Ha1 & Ha2 & Hacc) Hbody. unfold body in Hbody.
      destruct (row_score x.1.1 x.1.2 x.2) as [r|] eqn:Hr; [|done].
      simpl in Hbody. injection Hbody as <-. simpl.
      rewrite !length_app. simpl. split; [lia|]. split; [lia|].
      intros j row Hj. destruct (decide (j < length pre)%nat) as [Hlt|Hge].
      + rewrite lookup_app_l in Hj by done.
        destruct (Hacc j row Hj) as (r' & Hr' & H1 & H2).
        exists r'. split; [done|].
        rewrite !lookup_app_l by lia. done.
      + rewrite lookup_app_r in Hj by lia.
        destruct (j - length pre)%nat as [|m] eqn:Hm;
          [|simpl in Hj; by rewrite lookup_nil in Hj].
        simpl in Hj. injection Hj as <-. exists r. split; [done|].
        assert (j = length pre) as -> by lia.
        split.
        * rewrite <- Ha1. by rewrite lookup_app_r, Nat.sub_diag by lia.
        * rewrite <- Ha2. by rewrite lookup_app_r, Nat.sub_diag by lia. }
  split; [|done].
  intros Hnil. rewrite Hnil in Hl1. simpl in Hl1.
  by destruct results.1.
Qed.

(** X16. Whenever [_loglikelihood_tokens] returns, the batch (the rows
    that the logits, the target ids and the target masks all have) is not
    empty and the two tensors returned have one entry per row of it, in
    order: entry j holds the log-probability and the exact-match flag that
    scoring row j gave. *)
Theorem X16_loglikelihood_one_entry_per_row row_score log_softmaxes input_ids
    attention_mask out :
  _loglikelihood_tokens row_score log_softmaxes input_ids attention_mask = Ok out →
  zip3 log_softmaxes input_ids attention_mask ≠ [] ∧
  length out.1 = length (zip3 log_softmaxes input_ids attention_mask) ∧
  length out.2 = length (zip3 log_softmaxes input_ids attention_mask) ∧
  ∀ (j : nat) row,
    zip3 log_softmaxes input_ids attention_mask !! j = Some row →
    ∃ r, row_score row.1.1 row.1.2 row.2 = Ok r ∧
         out.1 !! j = Some r.1 ∧ out.2 !! j = Some r.2.
Proof. apply loglikelihood_tokens_shape. Qed.

(** X17. [_loglikelihood_tokens] returns exactly when the batch is not
    empty and every row of it can be scored: on an empty batch
    [torch.cat] refuses the empty list, and the first row that fails
    ends the call. *)
Theorem X17_loglikelihood_returns_iff row_score log_softmaxes input_ids attention_mask :
  (∃ out, _loglikelihood_tokens row_score log_softmaxes input_ids attention_mask = Ok out)
  ↔ zip3 log_softmaxes input_ids attention_mask ≠ [] ∧
    Forall (λ row : Logits * list Z * list Z,
              ∃ r, row_score row.1.1 row.1.2 row.2 = Ok r)
      (zip3 log_softmaxes input_ids attention_mask).
Proof.
  split.
  - intros [out Hout].
    destruct (loglikelihood_tokens_shape row_score log_softmaxes input_ids attention_mask out Hout)
      as (Hne & _ & _ & Hrows).
    split; [done|]. apply Forall_lookup. intros j row Hj.
    destruct (Hrows j row Hj) as (r & Hr & _). by exists r.
  - intros [Hne Hall]. unfold _loglikelihood_tokens.
    set (rows := zip3 log_softmaxes input_ids attention_mask) in *.
    set (body := λ (acc : list Score * list bool) (row : Logits * list Z * list Z), _).
    destruct (rfold_prefix_inv body
                (λ pre acc, length acc.1 = length pre ∧ length acc.2 = length pre)
                rows ([], [])) as (results & -> & Hl1 & Hl2).
    + done.
    + intros pre x post acc Hrows [Ha1 Ha2].
      assert (x ∈ rows) as Hx by (rewrite Hrows; set_solver).
      rewrite Forall_forall in Hall. destruct (Hall x Hx) as [r Hr].
      unfold body. rewrite Hr. simpl. eexists. split; [done|].
      simpl. rewrite !length_app. simpl. lia.
    + simpl. destruct results as [lp em]. simpl in *.
      destruct rows as [|row rows']; [done|].
      destruct lp; [done|]. destruct em; [done|]. simpl. by eexists.
Qed.

End loglikelihood_facts.

End huggingface_facts.

(** ** The further theorems at concrete runs *)



Lemma X8_witness :
  ∃ out values,
    evaluate (Demo.env Demo.flat_stderr) single_process Demo.lm (Demo.tasks 1 1)
      (Demo.cfg 2) 0 = Ok out ∧
    make_table_values
      (λ c, match c with CMetric _ => Ok "1.0000"%string | _ => Raise TypeError end)
      out = Ok values.
Proof.
  eexists.
  assert (evaluate (Demo.env Demo.flat_stderr) single_process Demo.lm (Demo.tasks 1 1)
            (Demo.cfg 2) 0 = Ok _) as H by (vm_compute; reflexivity).
  destruct (X8_table_of_every_result (Demo.env Demo.flat_stderr) (Demo.cfg 2) 0
              (Demo.tasks 1 1) single_process Demo.lm
              (λ c, match c with CMetric _ => Ok "1.0000"%string | _ => Raise TypeError end)
              _ H) as [values Hv].
  - intros x. by eexists.
  - exists values. split; [exact H | exact Hv].
Defined.

Lemma X9_witness :
  ∃ version rows,
    od_get [("t"%string, 1)] "t"%string = Some version ∧
    [mkRow (M:=Z) (J:=string) (CStr "t") CNone (inl 1) "acc" "1.0000" "±" "1.0000";
     mkRow (CStr "t") CNone (inr ""%string) "f1" "1.0000" "" ""] = [] ++ rows ∧
    row_metric <$> rows =
      (filter (λ mv : string * @Cell Z string, shown mv.1 = true)
         [("task_name"%string, CStr "t"); ("prompt_name"%string, CNone);
          ("acc"%string, CMetric 1); ("acc_stderr"%string, CMetric 0);
          ("f1"%string, CMetric 2)]).*1.
Proof.
  destruct (X9_table_rows_of_a_task (M:=Z) (J:=string)
              (λ c, match c with CMetric _ => Ok "1.0000"%string | _ => Raise TypeError end)
              [("t"%string, 1)] [] "t"%string
              [("task_name"%string, CStr "t"); ("prompt_name"%string, CNone);
               ("acc"%string, CMetric 1); ("acc_stderr"%string, CMetric 0);
               ("f1"%string, CMetric 2)] _ eq_refl)
    as (version & rows & Hver & Hrows & Hmet & _).
  exists version, rows. split_and!; [exact Hver | exact Hrows | exact Hmet].
Defined.

Lemma X11_witness :
  evaluate (Demo.env Demo.flat_stderr) single_process Demo.lm (Demo.tasks 3 1)
    (mkConfig 0 2 10 (Some 5%nat)) 0 =
  evaluate (Demo.env Demo.flat_stderr) single_process Demo.lm (Demo.tasks 3 1)
    (mkConfig 0 2 10 None) 0.
Proof.
  apply X11_limit_beyond_documents.
  - done.
  - intros task Htask. apply list_elem_of_singleton in Htask as ->. simpl. lia.
Defined.

(** ** The backend theorems at concrete inputs *)

Lemma X13_witness :
  ∃ self,
    huggingface.init huggingface.AutoCausalLM (λ _, Ok [("n_ctx"%string, 1024)])
      (λ _ _, Ok (huggingface.mkTokenizer (Some 512) None (Some "</s>"%string)
                    (λ _, ""%string)))
      (λ _ _ (rev : string), Ok rev)
      "gpt2" None (Some "sub"%string) "main" (Some 1) (Some 256) None
      (huggingface.DeviceStr "cuda")
    = Ok self ∧
    huggingface.max_length self = 1024 ∧
    huggingface.model self = Some "main/sub"%string ∧
    huggingface.model_max_length (huggingface.tokenizer self)
    = Some (huggingface.max_length self).
Proof.
  eexists. split; [reflexivity|]. split; [reflexivity|]. split; [reflexivity|].
  eapply (X13_constructor_fixes_max_length huggingface.AutoCausalLM
            (λ _, Ok [("n_ctx"%string, 1024)])
            (λ _ _, Ok (huggingface.mkTokenizer (Some 512) None (Some "</s>"%string)
                          (λ _, ""%string)))
            (λ _ _ (rev : string), Ok rev)
            "gpt2" None (Some "sub"%string) "main" (Some 1) (Some 256) None
            (huggingface.DeviceStr "cuda")).
  reflexivity.
Defined.

Lemma X16_witness :
  huggingface._loglikelihood_tokens
    (λ (ls : Z) (ids mask : list Z), Ok (ls + foldr Z.add 0 mask, bool_decide (ids = mask)))
    [10; 20] [[1; 1]; [1; 0]] [[1; 1]; [1; 1]]
  = Ok ([12; 22], [true; false]) ∧
  length ([12; 22], [true; false]).1
  = length (zip3 [10; 20] [[1; 1]; [1; 0]] [[1; 1]; [1; 1]]).
Proof.
  split; [reflexivity|].
  eapply (X16_loglikelihood_one_entry_per_row
            (λ (ls : Z) (ids mask : list Z),
               Ok (ls + foldr Z.add 0 mask, bool_decide (ids = mask)))
            [10; 20] [[1; 1]; [1; 0]] [[1; 1]; [1; 1]] ([12; 22], [true; false])).
  reflexivity.
Defined.
